(** * submarine_multistream: wire framing, frame cache and depth projection

    A shallow embedding of the framing protocol (datagram and stream
    receivers, the datagram sender), the per-type frame cache, and the
    2D / 3D depth projectors, followed by the properties established
    about them.

    Conventions.
    - [int] is a 32-bit two's complement integer, carried as a [Z];
      loads and stores of an [int] go through four bytes in the byte
      order of the machine (little-endian: x86-64 and AArch64, the
      targets of the build).
    - [float] is IEEE-754 binary32, carried as a [spec_float] and
      computed with the operations of [SpecFloat] at precision 24 and
      [emax] 128 (round to nearest, ties to even).
    - the clock ([std::chrono::steady_clock]) is passed explicitly, in
      nanoseconds.
    - the channel is passed explicitly: a datagram receive gets the
      datagram the socket delivers, a stream receive gets the sequence of
      results the successive [recv] calls will produce. *)

From Stdlib Require Import ZArith List Lia Bool.
From Stdlib Require Import Strings.Byte.
From Stdlib Require Import Floats.SpecFloat.
From stdpp Require Import base option list gmap.

Open Scope Z_scope.

(* ===================================================================== *)
(** * Part I: definitions                                                 *)
(* ===================================================================== *)

(** ** Outcomes of a receive call

    [Ok a]: the call returns [true] with the out-parameters [a];
    [Reject]: the call returns [false];
    [Fault f]: the call would leave defined behaviour, or the loop model
    would run out of iterations. *)

Inductive fault := OutOfBounds | OutOfFuel.

Inductive outcome (A : Type) :=
  | Ok (a : A)
  | Reject
  | Fault (f : fault).

Arguments Ok {A} a.
Arguments Reject {A}.
Arguments Fault {A} f.

Definition obind {A B} (m : outcome A) (k : A -> outcome B) : outcome B :=
  match m with
  | Ok a => k a
  | Reject => Reject
  | Fault f => Fault f
  end.

Notation "'let!' x ':=' m 'in' k" := (obind m (fun x => k))
  (at level 10, x name, m at level 200, k at level 200, only parsing).

Fixpoint omapM {A B} (f : A -> outcome B) (l : list A) : outcome (list B) :=
  match l with
  | [] => Ok []
  | a :: l' => let! b := f a in let! bs := omapM f l' in Ok (b :: bs)
  end.

(** ** Bytes and 32-bit integers *)

Module Wire.

Definition Z_of_byte (b : byte) : Z := Z.of_N (Byte.to_N b).

Definition byte_of_Z (z : Z) : byte :=
  match Byte.of_N (Z.to_N (z mod 256)) with
  | Some b => b
  | None => x00
  end.

Definition int_min : Z := - 2 ^ 31.
Definition int_max : Z := 2 ^ 31 - 1.

Definition is_int (z : Z) : Prop := int_min <= z <= int_max.

(** Conversion of an unsigned 32-bit pattern to [int]. *)
Definition to_int (u : Z) : Z :=
  let w := u mod 2 ^ 32 in
  if w <? 2 ^ 31 then w else w - 2 ^ 32.

(** [*(int* )&p[0] = z]: the four bytes an [int] is stored as. *)
Definition store_int (z : Z) : list byte :=
  let w := z mod 2 ^ 32 in
  [ byte_of_Z w; byte_of_Z (w / 2 ^ 8);
    byte_of_Z (w / 2 ^ 16); byte_of_Z (w / 2 ^ 24) ].

Definition le_combine (b0 b1 b2 b3 : byte) : Z :=
  Z_of_byte b0 + 2 ^ 8 * Z_of_byte b1
  + 2 ^ 16 * Z_of_byte b2 + 2 ^ 24 * Z_of_byte b3.

(** One byte of a buffer of which only [buf] has been written: an index
    past the written part is a read of bytes the channel never gave. *)
Definition byte_at (buf : list byte) (i : nat) : outcome byte :=
  match nth_error buf i with
  | Some b => Ok b
  | None => Fault OutOfBounds
  end.

(** [*(int* )&buf[off]]. *)
Definition load_int (buf : list byte) (off : nat) : outcome Z :=
  let! b0 := byte_at buf off in
  let! b1 := byte_at buf (off + 1) in
  let! b2 := byte_at buf (off + 2) in
  let! b3 := byte_at buf (off + 3) in
  Ok (to_int (le_combine b0 b1 b2 b3)).

(** [*(uint32_t* )&buf[off]]. *)
Definition load_u32 (buf : list byte) (off : nat) : outcome Z :=
  let! b0 := byte_at buf off in
  let! b1 := byte_at buf (off + 1) in
  let! b2 := byte_at buf (off + 2) in
  let! b3 := byte_at buf (off + 3) in
  Ok (le_combine b0 b1 b2 b3).

(** The bytes [buf + from, buf + to), read one by one. *)
Definition slice (buf : list byte) (from to : nat) : outcome (list byte) :=
  omapM (byte_at buf) (seq from (to - from)).

(** [recvfrom(fd, buf, bufferSize, ...)] on a datagram socket. [None]: the
    call fails or times out and returns -1. [Some d]: the datagram [d] is
    delivered, cut to the size of the buffer; the call returns the number
    of bytes written, and only these bytes of the buffer are written. *)
Definition recvfrom (ev : option (list byte)) (bufferSize : Z)
  : Z * list byte :=
  match ev with
  | None => (-1, [])
  | Some d =>
      let got := firstn (Z.to_nat bufferSize) d in
      (Z.of_nat (length got), got)
  end.

End Wire.

(** ** The image type and the codec

    A [cv::Mat] is carried by value: its dimensions and its bytes.
    [cv::imdecode] belongs to the codec library and is a parameter. *)

Record Mat := mkMat { rows : Z; cols : Z; mdata : list Z }.

(** [cv::Mat()]. *)
Definition Mat_default : Mat := mkMat 0 0 [].

(** [Mat::empty()]. *)
Definition Mat_empty (m : Mat) : bool :=
  (rows m * cols m =? 0) || match mdata m with [] => true | _ => false end.

Class Codec := { imdecode : list byte -> Mat }.

(** ** src/submarine_sender_depth3d.cpp: [UDPSender::sendRawData] *)

Module submarine_sender_depth3d.

(** The datagram handed to [sendto], or [None] when the function returns
    before sending (empty data). *)
Definition sendRawData (data : list byte) (frame_id frame_type : Z)
  : option (list byte) :=
  match data with
  | [] => None
  | _ =>
      Some (Wire.store_int frame_id
            ++ Wire.store_int frame_type
            ++ Wire.store_int (Z.of_nat (length data))
            ++ data)
  end.

End submarine_sender_depth3d.

(** ** src/submarine_receiver_depth3d.cpp: [UDPReceiver::receivePacket] *)

Module submarine_receiver_depth3d.

Definition FRAME_DEPTH_VIS : Z := 1.
Definition FRAME_2D_MAP : Z := 2.
Definition FRAME_3D_DEPTH : Z := 3.

Definition bufferSize : Z := 65536.

(** Result: [(buffer, frame_id, frame_type)]. *)
Definition receivePacket (ev : option (list byte))
  : outcome (list byte * Z * Z) :=
  let '(n, tempBuf) := Wire.recvfrom ev bufferSize in
  if n <? 12 then Reject
  else
    let! frame_id := Wire.load_int tempBuf 0 in
    let! frame_type := Wire.load_int tempBuf 4 in
    let! data_size := Wire.load_int tempBuf 8 in
    if (data_size <=? 0) || (data_size >? 5000000) then Reject
    else
      let! buffer := Wire.slice tempBuf 12 (Z.to_nat n) in
      Ok (buffer, frame_id, frame_type).

End submarine_receiver_depth3d.

(** ** src/submarine_receiver.cpp: [UDPReceiver::receiveFrame] *)

Module submarine_receiver.

Definition bufferSize : Z := 65536.

Section WithCodec.
Context `{Codec}.

(** Result: [(frame, frame_type)]. [data_size] is parsed and not used. *)
Definition receiveFrame (ev : option (list byte)) : outcome (Mat * Z) :=
  let '(n, buffer) := Wire.recvfrom ev bufferSize in
  if n <? 12 then Reject
  else
    let! frame_id := Wire.load_int buffer 0 in
    let! frame_type := Wire.load_int buffer 4 in
    let! data_size := Wire.load_int buffer 8 in
    if (frame_type <? 0) || (frame_type >? 3) then Reject
    else
      let! jpegData := Wire.slice buffer 12 (Z.to_nat n) in
      let decoded := imdecode jpegData in
      if Mat_empty decoded then Reject
      else if (cols decoded <=? 0) || (rows decoded <=? 0)
              || (cols decoded >? 2000) || (rows decoded >? 2000)
      then Reject
      else Ok (decoded, frame_type).
End WithCodec.

End submarine_receiver.

(** ** src/color_receiver.cpp: [UDPReceiver::receiveFrame] (8-byte header) *)

Module color_receiver.

Definition bufferSize : Z := 65536.

Section WithCodec.
Context `{Codec}.

(** Result: [(frame, frame_id)]. *)
Definition receiveFrame (ev : option (list byte)) : outcome (Mat * Z) :=
  let '(n, buffer) := Wire.recvfrom ev bufferSize in
  if n <? 8 then Reject
  else
    let! frame_id := Wire.load_int buffer 0 in
    let! data_size := Wire.load_int buffer 4 in
    if (data_size <=? 0) || (data_size >? 2000000) then Reject
    else
      let! jpegData := Wire.slice buffer 8 (Z.to_nat n) in
      let decoded := imdecode jpegData in
      if Mat_empty decoded then Reject
      else Ok (decoded, frame_id).
End WithCodec.

End color_receiver.

(** ** src/submarine_receiver_raw.cpp: [UDPReceiver::receivePacket]

    Here the buffer is a [std::vector<char>] of [maxSize] zero bytes, so a
    byte past the received part and inside the vector reads as the zero the
    vector was filled with; only a byte past the vector is out of bounds. *)

Module submarine_receiver_raw.

Definition maxSize : Z := 2000000.

Definition tempBuf_at (got : list byte) (i : nat) : outcome byte :=
  if Z.of_nat i <? maxSize then Ok (nth i got x00) else Fault OutOfBounds.

Definition load_int (got : list byte) (off : nat) : outcome Z :=
  let! b0 := tempBuf_at got off in
  let! b1 := tempBuf_at got (off + 1) in
  let! b2 := tempBuf_at got (off + 2) in
  let! b3 := tempBuf_at got (off + 3) in
  Ok (Wire.to_int (Wire.le_combine b0 b1 b2 b3)).

(** Result: [(buffer, frame_id)]. The slice runs from offset 8 over
    [data_size] bytes, whatever [n] is. *)
Definition receivePacket (ev : option (list byte))
  : outcome (list byte * Z) :=
  let '(n, got) := Wire.recvfrom ev maxSize in
  if n <? 8 then Reject
  else
    let! frame_id := load_int got 0 in
    let! data_size := load_int got 4 in
    if (data_size <=? 0) || (data_size >? 2000000) then Reject
    else
      let! buffer := omapM (tempBuf_at got) (seq 8 (Z.to_nat data_size)) in
      Ok (buffer, frame_id).

End submarine_receiver_raw.

(** ** Stream sockets

    A connected stream socket is the list of what the next [recv] calls
    will meet: a segment of bytes that has arrived, an orderly shutdown by
    the peer, or an error (which includes the one-second receive timeout).
    A [recv] of [len] bytes takes at most [len] bytes of the first segment
    and leaves the remainder of that segment for the next call. *)

Module Stream.

Inductive event :=
  | Chunk (bs : list byte)
  | Eof
  | Err.

Definition sock := list event.

(** [recv(fd, buf, len, 0)]: the return value, the bytes written to
    [buf], and the socket afterwards. With nothing left to arrive the
    timeout fires and the call returns -1. *)
Definition recv (s : sock) (len : Z) : Z * list byte * sock :=
  match s with
  | [] => (-1, [], [])
  | Err :: s' => (-1, [], s')
  | Eof :: s' => (0, [], s')
  | Chunk bs :: s' =>
      let got := firstn (Z.to_nat len) bs in
      let rest := skipn (Z.to_nat len) bs in
      (Z.of_nat (length got), got,
       match rest with [] => s' | _ => Chunk rest :: s' end)
  end.

(** The accumulation loop of the stream receivers:
    [while (total_received < size) { n = recv(fd, buf + total_received,
    size - total_received, 0); if (n <= 0) return false;
    total_received += n; }].
    [buf] is the part of the buffer filled so far. Every pass that does
    not return adds at least one byte, so [size] passes are enough; the
    callers give that much fuel. *)
Fixpoint recv_loop (fuel : nat) (s : sock) (size total_received : Z)
           (buf : list byte) : outcome (list byte) * sock :=
  if total_received <? size then
    match fuel with
    | O => (Fault OutOfFuel, s)
    | S fuel' =>
        let '(n, got, s') := recv s (size - total_received) in
        if n <=? 0 then (Reject, s')
        else recv_loop fuel' s' size (total_received + n) (buf ++ got)
    end
  else (Ok buf, s).

End Stream.

(** ** src/submarine_receiver_tcp.cpp: [TCPReceiver::receiveFrame] *)

Module submarine_receiver_tcp.

Definition FRAME_COLOR : Z := 0.
Definition FRAME_DEPTH : Z := 1.
Definition FRAME_IR : Z := 2.
Definition FRAME_MAP : Z := 3.

Section WithCodec.
Context `{Codec}.

(** Result: [(frame, frame_type)], and the socket afterwards. *)
Definition receiveFrame (client_sock : Stream.sock)
  : outcome (Mat * Z) * Stream.sock :=
  match Stream.recv_loop 12 client_sock 12 0 [] with
  | (Ok header, s1) =>
      match
        (let! frame_id := Wire.load_int header 0 in
         let! frame_type := Wire.load_int header 4 in
         let! data_size := Wire.load_int header 8 in
         if (frame_type <? 0) || (frame_type >? 3)
            || (data_size <=? 0) || (data_size >? 2000000)
         then Reject
         else Ok (frame_type, data_size))
      with
      | Ok (frame_type, data_size) =>
          match Stream.recv_loop (Z.to_nat data_size) s1 data_size 0 []
          with
          | (Ok buffer, s2) =>
              let decoded := imdecode buffer in
              if Mat_empty decoded then (Reject, s2)
              else (Ok (decoded, frame_type), s2)
          | (Reject, s2) => (Reject, s2)
          | (Fault f, s2) => (Fault f, s2)
          end
      | Reject => (Reject, s1)
      | Fault f => (Fault f, s1)
      end
  | (Reject, s1) => (Reject, s1)
  | (Fault f, s1) => (Fault f, s1)
  end.
End WithCodec.

End submarine_receiver_tcp.

(** ** src/switchable_receiver.cpp: [SwitchableReceiver::receiveFrame] *)

Module switchable_receiver.

Record SwitchableReceiver := mkReceiver {
  client_sock : Stream.sock;
  connected : bool
}.

Section WithCodec.
Context `{Codec}.

(** The 5-byte header is taken with one [recv]; the payload with the
    accumulation loop. Result: [(frame, frame_type)], and the receiver
    afterwards. *)
Definition receiveFrame (r : SwitchableReceiver)
  : outcome (Mat * Z) * SwitchableReceiver :=
  if negb (connected r) then (Reject, r)
  else
    let '(n, header, s1) := Stream.recv (client_sock r) 5 in
    if negb (n =? 5) then
      if n =? 0 then (Reject, mkReceiver s1 false)
      else (Reject, mkReceiver s1 true)
    else
      match
        (let! b0 := Wire.byte_at header 0 in
         let! size := Wire.load_u32 header 1 in
         Ok (Wire.Z_of_byte b0, Wire.to_int size))
      with
      | Ok (frame_type, data_size) =>
          if (data_size <=? 0) || (data_size >? 5000000)
          then (Reject, mkReceiver s1 true)
          else
            match Stream.recv_loop (Z.to_nat data_size) s1 data_size 0 []
            with
            | (Ok buffer, s2) =>
                let decoded := imdecode buffer in
                if Mat_empty decoded then (Reject, mkReceiver s2 true)
                else (Ok (decoded, frame_type), mkReceiver s2 true)
            | (Reject, s2) => (Reject, mkReceiver s2 false)
            | (Fault f, s2) => (Fault f, mkReceiver s2 true)
            end
      | Reject => (Reject, mkReceiver s1 true)
      | Fault f => (Fault f, mkReceiver s1 true)
      end.
End WithCodec.

End switchable_receiver.

(** ** The frame cache: [FrameBuffer]

    [std::map<int, TimedFrame>] is a finite map keyed by [int]; the time
    of each call is the reading of [steady_clock::now()] in nanoseconds.
    [duration_cast<milliseconds>] rounds toward zero. *)

Definition duration_ms (now timestamp : Z) : Z :=
  Z.quot (now - timestamp) 1000000.

(** *** src/submarine_receiver_depth3d.cpp *)

Module FrameBuffer_depth3d.

Record TimedFrame := mkTimed {
  frame : Mat;
  raw_data : list byte;
  timestamp : Z
}.

Definition timeout_ms : Z := 2000.

Definition update (frames : gmap Z TimedFrame) (frameType : Z)
           (f : Mat) (now : Z) : gmap Z TimedFrame :=
  <[frameType := mkTimed f [] now]> frames.

Definition updateRaw (frames : gmap Z TimedFrame) (frameType : Z)
           (data : list byte) (now : Z) : gmap Z TimedFrame :=
  <[frameType := mkTimed Mat_default data now]> frames.

Definition get (frames : gmap Z TimedFrame) (frameType : Z) (now : Z)
  : Mat :=
  match frames !! frameType with
  | Some it =>
      let age := duration_ms now (timestamp it) in
      if age <? timeout_ms then frame it else Mat_default
  | None => Mat_default
  end.

Definition getRaw (frames : gmap Z TimedFrame) (frameType : Z) (now : Z)
  : list byte :=
  match frames !! frameType with
  | Some it =>
      let age := duration_ms now (timestamp it) in
      if age <? timeout_ms then raw_data it else []
  | None => []
  end.

End FrameBuffer_depth3d.

(** *** src/submarine_receiver_tcp.cpp *)

Module FrameBuffer_tcp.

Record TimedFrame := mkTimed {
  frame : Mat;
  timestamp : Z
}.

Definition timeout_ms : Z := 2000.

Definition update (frames : gmap Z TimedFrame) (frameType : Z)
           (f : Mat) (now : Z) : gmap Z TimedFrame :=
  <[frameType := mkTimed f now]> frames.

Definition get (frames : gmap Z TimedFrame) (frameType : Z) (now : Z)
  : Mat :=
  match frames !! frameType with
  | Some it =>
      let age := duration_ms now (timestamp it) in
      if age <? timeout_ms then frame it else Mat_default
  | None => Mat_default
  end.

End FrameBuffer_tcp.

(** ** Single-precision arithmetic *)

Module F32.

Definition prec : Z := 24.
Definition emax : Z := 128.

Definition float := spec_float.

Definition add : float -> float -> float := SFadd prec emax.
Definition sub : float -> float -> float := SFsub prec emax.
Definition mul : float -> float -> float := SFmul prec emax.
Definition div : float -> float -> float := SFdiv prec emax.
Definition opp : float -> float := SFopp.
Definition ltb : float -> float -> bool := SFltb.
Definition leb : float -> float -> bool := SFleb.

(** Conversion of an integer to [float]. *)
Definition of_Z (z : Z) : float := binary_normalize prec emax z 0 false.

(** The decimal literal [num / den] (both exactly representable):
    the [float] nearest to the quotient, which is what the correctly
    rounded division gives. *)
Definition lit (num den : Z) : float := div (of_Z num) (of_Z den).

(** Integer part, toward zero; none for NaN and the infinities. *)
Definition trunc (x : float) : option Z :=
  match x with
  | S754_zero _ => Some 0
  | S754_finite s m e =>
      let a := if 0 <=? e then Zpos m * 2 ^ e else Zpos m / 2 ^ (- e) in
      Some (if s then - a else a)
  | S754_infinity _ | S754_nan => None
  end.

(** [(int)x]. Where the integer part does not fit an [int] the
    conversion is not defined by the language; the value taken here is
    the one the conversion instruction of x86-64 produces. *)
Definition to_int (x : float) : Z :=
  match trunc x with
  | Some z =>
      if (Wire.int_min <=? z) && (z <=? Wire.int_max) then z
      else Wire.int_min
  | None => Wire.int_min
  end.

(** [(uint8_t)x], and the narrowing of an [int] to [uchar]. *)
Definition to_u8 (x : float) : Z := to_int x mod 256.

(** [std::min(a, b)] and [std::max(a, b)] as the library defines them. *)
Definition min (a b : float) : float := if ltb b a then b else a.
Definition max (a b : float) : float := if ltb a b then b else a.

End F32.

(** The functions of the C math library the projectors call, taken at the
    type their results are stored in. *)
Class Libm := {
  tan : F32.float -> F32.float;
  cos : F32.float -> F32.float;
  sin : F32.float -> F32.float
}.

(** Loop counters [for (uint32_t i = 0; i < bound; i += step)]. *)
Definition strided (step bound : Z) : list Z :=
  map (fun k => step * Z.of_nat k)
      (seq 0 (Z.to_nat ((bound + step - 1) / step))).

(** [depth_data[y * depth_width + x]] with the index computed in
    [uint32_t]. *)
Definition depth_at (depth_data : list Z) (depth_width x y : Z) : Z :=
  nth (Z.to_nat ((y * depth_width + x) mod 2 ^ 32)) depth_data 0.

(** ** src/submarine_multistream.cpp: [Map2D] *)

Module submarine_multistream.

Record DepthFrame := mkDepthFrame {
  df_width : Z;
  df_height : Z;
  getValueScale : F32.float;
  df_data : list Z
}.

Definition width : Z := 640.
Definition height : Z := 480.
Definition max_range : F32.float := F32.of_Z 4.

(** [map_image[idx] = v]. *)
Definition set_at (map_image : list Z) (idx v : Z) : list Z :=
  <[Z.to_nat idx := v]> map_image.

Definition set_rgb (map_image : list Z) (idx r g b : Z) : list Z :=
  set_at (set_at (set_at map_image idx r) (idx + 1) g) (idx + 2) b.

(** [(depth_val * scale) / 1000.0f]. *)
Definition depth_m (scale : F32.float) (depth_val : Z) : F32.float :=
  F32.div (F32.mul (F32.of_Z depth_val) scale) (F32.of_Z 1000).

(** [depth_m > max_range || depth_m < 0.2f]. *)
Definition out_of_range (d : F32.float) : bool :=
  F32.ltb max_range d || F32.ltb d (F32.lit 2 10).


(** [60.0f * M_PI / 180.0f], evaluated in double precision and stored
    in a [float]: 0x3F860A92. *)
Definition fov : F32.float := S754_finite false 8784530 (-23).

Section WithLibm.
Context `{Libm}.

(** The body of the projection loop after the two tests. *)
Definition plot (map_image : list Z) (depth_width x : Z)
           (d : F32.float) : list Z :=
  let angle :=
    F32.mul
      (F32.div
         (F32.sub (F32.of_Z x)
                  (F32.div (F32.of_Z depth_width) (F32.of_Z 2)))
         (F32.of_Z depth_width))
      fov in
  let x_pos := F32.mul d (tan angle) in
  let map_x :=
    Wire.to_int
      (width / 2
       + F32.to_int (F32.div (F32.mul x_pos (F32.of_Z width))
                             (F32.mul max_range (F32.of_Z 2)))) in
  let map_y :=
    F32.to_int (F32.div (F32.mul d (F32.of_Z height)) max_range) in
  if (0 <=? map_x) && (map_x <? width)
     && (0 <=? map_y) && (map_y <? height)
  then
    let idx := (map_y * width + map_x) * 3 in
    let intensity := F32.sub (F32.of_Z 1) (F32.div d max_range) in
    set_rgb map_image idx
      (F32.to_u8 (F32.mul intensity (F32.of_Z 200)))
      0
      (F32.to_u8 (F32.mul (F32.sub (F32.of_Z 1) intensity)
                          (F32.of_Z 100)))
  else map_image.

(** One pass of the inner loop, at sample [(x, y)]. *)
Definition project_sample (f : DepthFrame) (map_image : list Z)
           (x y : Z) : list Z :=
  let depth_val := depth_at (df_data f) (df_width f) x y in
  if depth_val =? 0 then map_image
  else
    let d := depth_m (getValueScale f) depth_val in
    if out_of_range d then map_image
    else plot map_image (df_width f) x d.

Definition project_depth (f : DepthFrame) (map_image : list Z)
  : list Z :=
  fold_left
    (fun img y =>
       fold_left (fun img' x => project_sample f img' x y)
                 (strided 4 (df_width f)) img)
    (strided 4 (df_height f)) map_image.

(** The fixed decorations. *)
Definition clear (map_image : list Z) : list Z :=
  map (fun _ => 255) map_image.

Definition grid_lines (map_image : list Z) : list Z :=
  let horizontal :=
    fold_left
      (fun img y =>
         fold_left
           (fun img' x => set_rgb img' ((y * width + x) * 3) 200 200 200)
           (strided 1 width) img)
      (strided 50 height) map_image in
  fold_left
    (fun img x =>
       fold_left
         (fun img' y => set_rgb img' ((y * width + x) * 3) 200 200 200)
         (strided 1 height) img)
    (strided 50 width) horizontal.

Definition center_line (map_image : list Z) : list Z :=
  let center_x := width / 2 in
  fold_left
    (fun img y => set_rgb img ((y * width + center_x) * 3) 255 0 0)
    (strided 1 height) map_image.

Definition robot_icon (map_image : list Z) : list Z :=
  let robot_x := width / 2 in
  let robot_y := height - 10 in
  let span := map (fun k => k - 5) (strided 1 11) in
  fold_left
    (fun img dy =>
       fold_left
         (fun img' dx =>
            if dx * dx + dy * dy <=? 25 then
              let px := robot_x + dx in
              let py := robot_y + dy in
              if (0 <=? px) && (px <? width)
                 && (0 <=? py) && (py <? height)
              then set_rgb img' ((py * width + px) * 3) 0 255 0
              else img'
            else img')
         span img)
    span map_image.

Definition update (map_image : list Z) (f : DepthFrame) : list Z :=
  robot_icon
    (project_depth f (center_line (grid_lines (clear map_image)))).
End WithLibm.

End submarine_multistream.

(** ** src/submarine_receiver_depth3d.cpp: [PointCloudViewer] *)

Module PointCloudViewer.

Record t := mkViewer {
  yaw : F32.float;
  pitch : F32.float;
  zoom : F32.float;
  width : Z;
  height : Z
}.

(** The constructor, with the default member initialisers. *)
Definition make (w h : Z) : t :=
  mkViewer (F32.of_Z 0) (F32.lit 1 2) (F32.of_Z 150) w h.

Definition rotate (v : t) (dy dp : F32.float) : t :=
  let yaw1 := F32.add (yaw v) dy in
  let pitch1 := F32.add (pitch v) dp in
  let pitch2 := F32.max (F32.opp (F32.lit 3 2))
                        (F32.min (F32.lit 3 2) pitch1) in
  mkViewer yaw1 pitch2 (zoom v) (width v) (height v).

Definition setZoom (v : t) (z : F32.float) : t :=
  mkViewer (yaw v) (pitch v)
           (F32.max (F32.of_Z 50) (F32.min (F32.of_Z 500) z))
           (width v) (height v).

Definition getZoom (v : t) : F32.float := zoom v.

(** The two mutators, as calls. *)
Inductive call :=
  | Rotate (dy dp : F32.float)
  | SetZoom (z : F32.float).

Definition step (v : t) (c : call) : t :=
  match c with
  | Rotate dy dp => rotate v dy dp
  | SetZoom z => setZoom v z
  end.

Definition run (v : t) (cs : list call) : t := fold_left step cs v.

Definition pixel : Type := Z * Z * Z.

(** [display.at<cv::Vec3b>(py, px) = color] on a canvas of [width v]
    columns. *)
Definition set_pixel (v : t) (display : list pixel) (py px : Z)
           (color : pixel) : list pixel :=
  <[Z.to_nat (py * width v + px) := color]> display.

(** [cv::Mat display(height, width, CV_8UC3)] set to (20, 20, 30). *)
Definition background (v : t) : list pixel :=
  repeat (20, 20, 30) (Z.to_nat (height v * width v)).

Section WithLibm.
Context `{Libm}.

(** The camera-space point of sample [(x, y)] of depth [depth]
    metres. *)
Definition camera_point (depth_width depth_height x y : Z)
           (depth : F32.float) : F32.float * F32.float * F32.float :=
  let half_w := F32.div (F32.of_Z depth_width) (F32.of_Z 2) in
  let half_h := F32.div (F32.of_Z depth_height) (F32.of_Z 2) in
  let fx :=
    F32.mul depth
      (tan (F32.mul (F32.div (F32.sub (F32.of_Z x) half_w)
                             (F32.of_Z depth_width))
                    (F32.of_Z 1))) in
  let fy := F32.opp depth in
  let fz :=
    F32.mul depth
      (tan (F32.mul (F32.div (F32.sub (F32.of_Z y) half_h)
                             (F32.of_Z depth_width))
                    (F32.of_Z 1))) in
  (fx, fy, fz).

(** [(rx, ry, rz)] after the rotation and the [rz += 2.0f]. *)
Definition rotated (v : t) (p : F32.float * F32.float * F32.float)
  : F32.float * F32.float * F32.float :=
  let '(fx, fy, fz) := p in
  let cyaw := cos (yaw v) in
  let syaw := sin (yaw v) in
  let cpitch := cos (pitch v) in
  let spitch := sin (pitch v) in
  let rx := F32.sub (F32.mul fx cyaw) (F32.mul fy syaw) in
  let ry :=
    F32.sub
      (F32.add (F32.mul (F32.mul fx syaw) cpitch)
               (F32.mul (F32.mul fy cyaw) cpitch))
      (F32.mul fz spitch) in
  let rz :=
    F32.add
      (F32.add (F32.mul (F32.mul fx syaw) spitch)
               (F32.mul (F32.mul fy cyaw) spitch))
      (F32.mul fz cpitch) in
  (rx, ry, F32.add rz (F32.of_Z 2)).

(** The perspective divide and the write, for a point that passed
    [rz <= 0.1f]. *)
Definition draw (v : t) (display : list pixel) (depth : F32.float)
           (r : F32.float * F32.float * F32.float) : list pixel :=
  let '(rx, ry, rz) := r in
  let cx := F32.div (F32.of_Z (width v)) (F32.of_Z 2) in
  let cy := F32.div (F32.of_Z (height v)) (F32.of_Z 2) in
  let px := F32.to_int (F32.add cx (F32.mul (F32.div rx rz) (zoom v))) in
  let py := F32.to_int (F32.add cy (F32.mul (F32.div ry rz) (zoom v))) in
  if (0 <=? px) && (px <? width v) && (0 <=? py) && (py <? height v)
  then
    let normalizedDepth :=
      F32.min (F32.of_Z 1) (F32.div depth (F32.of_Z 4)) in
    let near := F32.sub (F32.of_Z 1) normalizedDepth in
    set_pixel v display py px
      (F32.to_u8 (F32.mul normalizedDepth (F32.of_Z 255)),
       F32.to_u8 (F32.mul near (F32.of_Z 200)),
       F32.to_u8 (F32.mul near (F32.of_Z 100)))
  else display.

(** The rotated point of sample [(x, y)], whatever its value. *)
Definition rotated_sample (v : t) (depthFrame : Mat) (x y : Z)
  : F32.float * F32.float * F32.float :=
  let depth_val := depth_at (mdata depthFrame) (cols depthFrame) x y in
  let depth := F32.div (F32.of_Z depth_val) (F32.of_Z 1000) in
  rotated v (camera_point (cols depthFrame) (rows depthFrame) x y depth).

(** One pass of the inner loop of [project], at sample [(x, y)]. *)
Definition project_sample (v : t) (depthFrame : Mat)
           (display : list pixel) (x y : Z) : list pixel :=
  let depth_val := depth_at (mdata depthFrame) (cols depthFrame) x y in
  if (depth_val =? 0) || (depth_val >? 5000) then display
  else
    let depth := F32.div (F32.of_Z depth_val) (F32.of_Z 1000) in
    let r :=
      rotated v
        (camera_point (cols depthFrame) (rows depthFrame) x y depth) in
    if F32.leb (snd r) (F32.lit 1 10) then display
    else draw v display depth r.

Definition project (v : t) (depthFrame : Mat) : list pixel :=
  fold_left
    (fun disp y =>
       fold_left (fun disp' x => project_sample v depthFrame disp' x y)
                 (strided 3 (cols depthFrame)) disp)
    (strided 3 (rows depthFrame)) (background v).
End WithLibm.

End PointCloudViewer.

(** ** src/submarine_3d_viz.cpp: [Map3D], the accumulating cloud *)

Module submarine_3d_viz.

Record DepthFrame := mkDepthFrame {
  df_width : Z;
  df_height : Z;
  getValueScale : F32.float;
  df_data : list Z
}.

(** A colour frame; [cf_data] is [None] for a null data pointer. *)
Record ColorFrame := mkColorFrame {
  cf_width : Z;
  cf_height : Z;
  cf_data : option (list Z)
}.

Definition Vec3f : Type := F32.float * F32.float * F32.float.
Definition Vec3b : Type := Z * Z * Z.

Record Map3D := mkMap3D {
  accumulatedPoints : list Vec3f;
  accumulatedColors : list Vec3b;
  accumulate : bool
}.

Definition maxPoints : Z := 100000.
Definition skipStep : Z := 2.
Definition fx : F32.float := F32.of_Z 525.
Definition fy : F32.float := F32.of_Z 525.
Definition cx : F32.float := F32.of_Z 320.
Definition cy : F32.float := F32.of_Z 240.
Definition max_range : F32.float := F32.of_Z 4.

(** The state the constructor leaves. *)
Definition make : Map3D := mkMap3D [] [] true.

Definition u32 (z : Z) : Z := z mod 2 ^ 32.

(** The colour of sample [(x, y)] at depth [depth_m]. *)
Definition sample_color (f : DepthFrame) (colorFrame : option ColorFrame)
           (x y : Z) (depth_m : F32.float) : Vec3b :=
  match colorFrame with
  | Some (mkColorFrame cw ch (Some color_data)) =>
      let color_x := Wire.to_int (u32 (x * cw) / df_width f) in
      let color_y := Wire.to_int (u32 (y * ch) / df_height f) in
      let idx := Wire.to_int (u32 (u32 (color_y * cw + color_x) * 3)) in
      let at_ (i : Z) := nth (Z.to_nat i) color_data 0 in
      (at_ (idx + 2), at_ (idx + 1), at_ (idx + 0))
  | _ =>
      let intensity := F32.sub (F32.of_Z 1) (F32.div depth_m max_range) in
      (F32.to_u8 (F32.mul intensity (F32.of_Z 255)),
       F32.to_u8 (F32.mul intensity (F32.of_Z 128)),
       F32.to_u8 (F32.mul (F32.sub (F32.of_Z 1) intensity)
                          (F32.of_Z 255)))
  end.

(** One pass of the conversion loop: both vectors grow, or neither. *)
Definition convert_sample (f : DepthFrame) (colorFrame : option ColorFrame)
           (acc : list Vec3f * list Vec3b) (x y : Z)
  : list Vec3f * list Vec3b :=
  let '(newPoints, newColors) := acc in
  let depth_val := depth_at (df_data f) (df_width f) x y in
  if depth_val =? 0 then acc
  else
    let depth_m :=
      F32.div (F32.mul (F32.of_Z depth_val) (getValueScale f))
              (F32.of_Z 1000) in
    if F32.ltb max_range depth_m || F32.ltb depth_m (F32.lit 3 10)
    then acc
    else
      let px := F32.div (F32.mul (F32.sub (F32.of_Z x) cx) depth_m) fx in
      let py := F32.div (F32.mul (F32.sub (F32.of_Z y) cy) depth_m) fy in
      let pz := depth_m in
      (newPoints ++ [(px, py, pz)],
       newColors ++ [sample_color f colorFrame x y depth_m]).

Definition convert (f : DepthFrame) (colorFrame : option ColorFrame)
  : list Vec3f * list Vec3b :=
  fold_left
    (fun acc y =>
       fold_left (fun acc' x => convert_sample f colorFrame acc' x y)
                 (strided skipStep (df_width f)) acc)
    (strided skipStep (df_height f)) ([], []).

(** [update], up to the hand-over to the viewer window. *)
Definition update (m : Map3D) (f : DepthFrame)
           (colorFrame : option ColorFrame) : Map3D :=
  let '(newPoints, newColors) := convert f colorFrame in
  if accumulate m && negb (match newPoints with [] => true | _ => false end)
  then
    let points := accumulatedPoints m ++ newPoints in
    let colors := accumulatedColors m ++ newColors in
    if Z.of_nat (length points) >? maxPoints then
      let excess := Wire.to_int (Z.of_nat (length points) - maxPoints) in
      mkMap3D (skipn (Z.to_nat excess) points)
              (skipn (Z.to_nat excess) colors)
              (accumulate m)
    else mkMap3D points colors (accumulate m)
  else m.

Definition clear (m : Map3D) : Map3D := mkMap3D [] [] (accumulate m).

Definition toggleAccumulation (m : Map3D) : Map3D :=
  let m' := mkMap3D (accumulatedPoints m) (accumulatedColors m)
                    (negb (accumulate m)) in
  if negb (accumulate m') then clear m' else m'.

(** The calls that change the buffers. *)
Inductive call :=
  | Update (f : DepthFrame) (colorFrame : option ColorFrame)
  | Clear
  | ToggleAccumulation.

Definition step (m : Map3D) (c : call) : Map3D :=
  match c with
  | Update f colorFrame => update m f colorFrame
  | Clear => clear m
  | ToggleAccumulation => toggleAccumulation m
  end.

Definition run (m : Map3D) (cs : list call) : Map3D := fold_left step cs m.

End submarine_3d_viz.

(** ** The encoding side of the codec

    [cv::imencode(".jpg", frame, buffer, {IMWRITE_JPEG_QUALITY, q})], at
    quality [q]. *)

Class Encoder := { imencode : Z -> Mat -> list byte }.

(** ** src/color_sender.cpp: [UDPSender::sendFrame] (8-byte header) *)

Module color_sender.

Section WithEncoder.
Context `{Encoder}.

(** The datagram handed to [sendto], or [None] for an empty frame. *)
Definition sendFrame (frame : Mat) (frame_id : Z) : option (list byte) :=
  if Mat_empty frame then None
  else
    let buffer := imencode 85 frame in
    Some (Wire.store_int frame_id
          ++ Wire.store_int (Z.of_nat (length buffer))
          ++ buffer).
End WithEncoder.

End color_sender.

(** ** src/submarine_sender_raw.cpp: [UDPSender::sendRawData] *)

Module submarine_sender_raw.

Definition sendRawData (data : list byte) (frame_id : Z)
  : option (list byte) :=
  match data with
  | [] => None
  | _ =>
      Some (Wire.store_int frame_id
            ++ Wire.store_int (Z.of_nat (length data))
            ++ data)
  end.

End submarine_sender_raw.

(** ** src/submarine_sender_depth3d.cpp: [UDPSender::sendFrame] *)

Module UDPSender_depth3d.

Section WithEncoder.
Context `{Encoder}.

Definition sendFrame (frame : Mat) (frame_id frame_type : Z)
  : option (list byte) :=
  if Mat_empty frame then None
  else
    let buffer := imencode 80 frame in
    Some (Wire.store_int frame_id
          ++ Wire.store_int frame_type
          ++ Wire.store_int (Z.of_nat (length buffer))
          ++ buffer).
End WithEncoder.

End UDPSender_depth3d.

(** ** The sending side of a stream socket

    What has been written to the connection so far, and what the next
    [send] calls will return: a positive entry [r] lets the call take at
    most [r] bytes, an entry that is zero or negative is a failed call;
    with no entry left every call takes all it is given. *)

Module SendStream.

Record wire := mkWire { written : list byte; script : list Z }.

(** [send(fd, buf, len, 0)]: the return value and the connection
    afterwards. *)
Definition send (w : wire) (buf : list byte) : Z * wire :=
  match script w with
  | [] => (Z.of_nat (length buf), mkWire (written w ++ buf) [])
  | r :: rest =>
      if r <=? 0 then (r, mkWire (written w) rest)
      else
        let k := Z.min r (Z.of_nat (length buf)) in
        (k, mkWire (written w ++ firstn (Z.to_nat k) buf) rest)
  end.

(** [while (total_sent < size) { sent = send(fd, data + total_sent,
    size - total_sent, 0); if (sent <= 0) return; total_sent += sent; }]:
    the connection afterwards, and whether the loop ran to its end. *)
Fixpoint send_loop (fuel : nat) (w : wire) (data : list byte)
           (total_sent : Z) : bool * wire :=
  if total_sent <? Z.of_nat (length data) then
    match fuel with
    | O => (false, w)
    | S fuel' =>
        let '(sent, w') := send w (skipn (Z.to_nat total_sent) data) in
        if sent <=? 0 then (false, w')
        else send_loop fuel' w' data (total_sent + sent)
    end
  else (true, w).

End SendStream.

(** ** src/submarine_sender_tcp.cpp: [TCPSender::sendFrame] *)

Module submarine_sender_tcp.

Section WithEncoder.
Context `{Encoder}.

(** The connection after the call. *)
Definition sendFrame (sockfd : SendStream.wire) (frame : Mat)
           (frame_id frame_type : Z) : SendStream.wire :=
  if Mat_empty frame then sockfd
  else
    let buffer := imencode 85 frame in
    let header :=
      Wire.store_int frame_id ++ Wire.store_int frame_type
      ++ Wire.store_int (Z.of_nat (length buffer)) in
    let '(n, s1) := SendStream.send sockfd header in
    if negb (n =? 12) then s1
    else snd (SendStream.send_loop (length buffer) s1 buffer 0).
End WithEncoder.

End submarine_sender_tcp.

(** ** src/switchable_sender.cpp: [SwitchableSender::sendFrame] *)

Module switchable_sender.

Record SwitchableSender := mkSender {
  sockfd : SendStream.wire;
  connected : bool
}.

Section WithEncoder.
Context `{Encoder}.

(** The header goes out with one [send] that must take all 5 bytes; the
    payload with one [send] whose result is not looked at. *)
Definition sendFrame (s : SwitchableSender) (frame : Mat) (frame_type : Z)
  : SwitchableSender :=
  if negb (connected s) || Mat_empty frame then s
  else
    let buffer := imencode 85 frame in
    let header :=
      Wire.byte_of_Z frame_type
      :: Wire.store_int (Z.of_nat (length buffer)) in
    let '(n, s1) := SendStream.send (sockfd s) header in
    if negb (n =? 5) then mkSender s1 false
    else mkSender (snd (SendStream.send s1 buffer)) true.
End WithEncoder.

End switchable_sender.

(** ** src/submarine_receiver.cpp: [FrameBuffer] and the receive loop *)

Module submarine_receiver_main.

(** [FrameBuffer]: a map without time stamps. *)
Definition update (frames : gmap Z Mat) (frameType : Z) (frame : Mat)
  : gmap Z Mat :=
  <[frameType := frame]> frames.

Definition get (frames : gmap Z Mat) (frameType : Z) : Mat :=
  match frames !! frameType with
  | Some it => it
  | None => Mat_default
  end.

Record state := mkState { frameBuffer : gmap Z Mat; frameCount : Z }.

Section WithCodec.
Context `{Codec}.

(** One pass of the [while (true)] loop, up to the display: the datagram
    is received and, when accepted, stored. *)
Definition receive_step (st : state) (ev : option (list byte)) : state :=
  match submarine_receiver.receiveFrame ev with
  | Ok (frame, frameType) =>
      mkState (update (frameBuffer st) frameType frame)
              (Wire.to_int (frameCount st + 1))
  | _ => st
  end.

Definition receive_all (st : state) (evs : list (option (list byte)))
  : state :=
  fold_left receive_step evs st.
End WithCodec.

End submarine_receiver_main.

(** ** src/submarine_receiver_depth3d.cpp: the loop of [main] *)

Module depth3d_main.

Record state := mkState {
  frameBuffer : gmap Z FrameBuffer_depth3d.TimedFrame;
  frameCount : Z
}.

Section WithCodec.
Context `{Codec}.

(** The body of [if (receiver.receivePacket(buffer, frame_id, frame_type))],
    entered with the result of the call; [now] is the clock at the
    update. *)
Definition on_packet (st : state) (r : outcome (list byte * Z * Z))
           (now : Z) : state :=
  match r with
  | Ok (buffer, frame_id, frame_type) =>
      if (frame_type =? submarine_receiver_depth3d.FRAME_DEPTH_VIS)
         || (frame_type =? submarine_receiver_depth3d.FRAME_2D_MAP)
      then
        let decoded := imdecode buffer in
        if negb (Mat_empty decoded) then
          mkState (FrameBuffer_depth3d.update (frameBuffer st)
                     frame_type decoded now)
                  (Wire.to_int (frameCount st + 1))
        else st
      else if frame_type =? submarine_receiver_depth3d.FRAME_3D_DEPTH then
        mkState (FrameBuffer_depth3d.updateRaw (frameBuffer st)
                   frame_type buffer now)
                (frameCount st)
      else st
  | _ => st
  end.

Definition receive_step (st : state) (ev : option (list byte)) (now : Z)
  : state :=
  on_packet st (submarine_receiver_depth3d.receivePacket ev) now.

(** A run of the loop: each pass with its datagram and its clock. *)
Definition receive_all (st : state) (evs : list (option (list byte) * Z))
  : state :=
  fold_left (fun s e => receive_step s (fst e) (snd e)) evs st.
End WithCodec.

(** The key handling at the end of the loop body; [None] is the [break]
    on ESC. *)
Definition on_key (viewer3D : PointCloudViewer.t) (key : Z)
  : option PointCloudViewer.t :=
  if key =? 27 then None
  else if key =? 81 then
    Some (PointCloudViewer.rotate viewer3D
            (F32.opp (F32.lit 1 10)) (F32.of_Z 0))
  else if key =? 83 then
    Some (PointCloudViewer.rotate viewer3D (F32.lit 1 10) (F32.of_Z 0))
  else if key =? 82 then
    Some (PointCloudViewer.rotate viewer3D
            (F32.of_Z 0) (F32.opp (F32.lit 1 10)))
  else if key =? 84 then
    Some (PointCloudViewer.rotate viewer3D (F32.of_Z 0) (F32.lit 1 10))
  else if (key =? 43) || (key =? 171) then
    Some (PointCloudViewer.setZoom viewer3D
            (F32.add (PointCloudViewer.getZoom viewer3D) (F32.of_Z 25)))
  else if (key =? 45) || (key =? 173) then
    Some (PointCloudViewer.setZoom viewer3D
            (F32.sub (PointCloudViewer.getZoom viewer3D) (F32.of_Z 25)))
  else Some viewer3D.

(** The keys of a session, up to the first ESC. *)
Fixpoint on_keys (viewer3D : PointCloudViewer.t) (keys : list Z)
  : PointCloudViewer.t :=
  match keys with
  | [] => viewer3D
  | key :: keys' =>
      match on_key viewer3D key with
      | None => viewer3D
      | Some v => on_keys v keys'
      end
  end.

End depth3d_main.

(** ** src/color_receiver.cpp: the loop of [main]

    [display = lastFrame] shares the pixels of [lastFrame], so the text
    drawn on [display] is drawn on [lastFrame]; [cv::putText] is a
    parameter, known to keep the shape of the image. *)

Class Overlay := {
  putText : Mat -> Mat;
  putText_empty : forall m, Mat_empty (putText m) = Mat_empty m
}.

Module color_receiver_main.

Record state := mkState {
  lastFrame : Mat;
  lastFrameTime : Z;
  frameCount : Z
}.

Inductive shown := LIVE | NO_SIGNAL | WAITING.

Section WithCodec.
Context `{Codec} `{Overlay}.

(** One pass of the loop: the receive at clock [t_recv], the display at
    clock [now]. The result is the state carried to the next pass and the
    screen shown. *)
Definition loop_step (st : state) (ev : option (list byte))
           (t_recv now : Z) : state * shown :=
  let st1 :=
    match color_receiver.receiveFrame ev with
    | Ok (frame, frame_id) =>
        mkState frame t_recv (Wire.to_int (frameCount st + 1))
    | _ => st
    end in
  if negb (Mat_empty (lastFrame st1)) then
    let age := duration_ms now (lastFrameTime st1) in
    if age <? 1000 then
      (mkState (putText (lastFrame st1)) (lastFrameTime st1) (frameCount st1),
       LIVE)
    else (st1, NO_SIGNAL)
  else (st1, WAITING).
End WithCodec.

End color_receiver_main.

(** ** src/submarine_3d_viz.cpp: [keyboardCallback] *)

Module submarine_3d_viz_keys.

Inductive Action := KEY_UP | KEY_DOWN.

Definition keyboardCallback (map3d : submarine_3d_viz.Map3D)
           (action : Action) (code : Z) : submarine_3d_viz.Map3D :=
  match action with
  | KEY_UP =>
      let m1 :=
        if (code =? 97) || (code =? 65)
        then submarine_3d_viz.toggleAccumulation map3d
        else map3d in
      if (code =? 99) || (code =? 67)
      then submarine_3d_viz.clear m1
      else m1
  | KEY_DOWN => map3d
  end.

End submarine_3d_viz_keys.

(** ** Vocabulary of the statements *)

(** The [int] at offset [off] of a buffer, when the four bytes are there. *)
Definition int_at (buf : list byte) (off : nat) : Z :=
  Wire.to_int
    (Wire.le_combine (nth off buf x00) (nth (off + 1) buf x00)
                     (nth (off + 2) buf x00) (nth (off + 3) buf x00)).

(** A multiplexed 12-byte header followed by [payload]; the size field is
    free, so that it can disagree with the payload. *)
Definition datagram (frame_id frame_type declared : Z) (payload : list byte)
  : list byte :=
  Wire.store_int frame_id ++ Wire.store_int frame_type
  ++ Wire.store_int declared ++ payload.

(** A minimal 8-byte header followed by [payload]. *)
Definition datagram8 (frame_id declared : Z) (payload : list byte)
  : list byte :=
  Wire.store_int frame_id ++ Wire.store_int declared ++ payload.

(** A datagram that declares 500 payload bytes and carries 200. *)
Definition oversold : list byte := datagram 7 1 500 (repeat x41 200).

(** A compact 5-byte header, then the payload. *)
Definition compact_frame (frame_type : Z) (payload : list byte) : list byte :=
  Wire.byte_of_Z frame_type
  :: Wire.store_int (Z.of_nat (length payload)) ++ payload.

Definition is_fault {A} (o : outcome A) : Prop :=
  match o with Fault _ => True | _ => False end.

(** The frame types of submarine_receiver_depth3d.cpp. *)
Definition known_frame_type (t : Z) : Prop :=
  t = submarine_receiver_depth3d.FRAME_DEPTH_VIS
  \/ t = submarine_receiver_depth3d.FRAME_2D_MAP
  \/ t = submarine_receiver_depth3d.FRAME_3D_DEPTH.

(** A stream socket on which the given segments arrive in order. *)
Definition segments (cs : list (list byte)) : Stream.sock :=
  map Stream.Chunk cs.

(** A socket whose next [recv] returns zero or a negative value. *)
Definition halts (s : Stream.sock) : Prop :=
  match s with
  | [] => True
  | Stream.Eof :: _ => True
  | Stream.Err :: _ => True
  | Stream.Chunk [] :: _ => True
  | Stream.Chunk (_ :: _) :: _ => False
  end.

(** The ranges of the camera parameters. *)
Definition pitch_in_range (v : PointCloudViewer.t) : Prop :=
  F32.leb (F32.opp (F32.lit 3 2)) (PointCloudViewer.pitch v) = true
  /\ F32.leb (PointCloudViewer.pitch v) (F32.lit 3 2) = true.

Definition zoom_in_range (v : PointCloudViewer.t) : Prop :=
  F32.leb (F32.of_Z 50) (PointCloudViewer.zoom v) = true
  /\ F32.leb (PointCloudViewer.zoom v) (F32.of_Z 500) = true.

Definition camera_in_range (v : PointCloudViewer.t) : Prop :=
  pitch_in_range v /\ zoom_in_range v.

(** A math library for the examples: the small-angle values
    [tan x = x], [sin x = x], [cos x = 1]. *)
Definition small_angle_libm : Libm :=
  {| tan := fun x => x; cos := fun _ => F32.of_Z 1; sin := fun x => x |}.

(** The accumulated cloud is well formed: as many colours as points,
    and no more than the cap. *)
Definition cloud_ok (m : submarine_3d_viz.Map3D) : Prop :=
  length (submarine_3d_viz.accumulatedPoints m)
  = length (submarine_3d_viz.accumulatedColors m)
  /\ Z.of_nat (length (submarine_3d_viz.accumulatedPoints m))
     <= submarine_3d_viz.maxPoints.

(** The frame of an [update] yields few enough points for
    [int excess] to hold the overflow of the cap (any frame of at most
    2147383647 admitted samples). *)
Definition fits_excess (c : submarine_3d_viz.call) : Prop :=
  match c with
  | submarine_3d_viz.Update f colorFrame =>
      Z.of_nat (length (fst (submarine_3d_viz.convert f colorFrame)))
      + submarine_3d_viz.maxPoints <= Wire.int_max
  | _ => True
  end.

(** A codec for the examples: the bytes as a one-row image. *)
Definition raw_codec : Codec :=
  {| imdecode := fun bs =>
       mkMat 1 (Z.of_nat (length bs)) (map Wire.Z_of_byte bs) |}.

(** An encoder for the examples, the inverse of [raw_codec] on one-row
    images of bytes: the pixels as bytes. *)
Definition raw_encoder : Encoder :=
  {| imencode := fun _ m => map Wire.byte_of_Z (mdata m) |}.

(** An image that passed the checks of [receiveFrame]. *)
Definition valid_image (m : Mat) : Prop :=
  Mat_empty m = false
  /\ 1 <= cols m <= 2000 /\ 1 <= rows m <= 2000.

(** Every entry of the cache of submarine_receiver.cpp is a validated
    frame under a known type. *)
Definition validated_cache (frames : gmap Z Mat) : Prop :=
  forall k it, frames !! k = Some it -> 0 <= k <= 3 /\ valid_image it.

(** Every entry of the cache of the depth3d receiver is an image under
    type 1 or 2, or raw bytes under type 3. *)
Definition typed_cache (frames : gmap Z FrameBuffer_depth3d.TimedFrame)
  : Prop :=
  forall k it,
    frames !! k = Some it ->
    ((k = 1 \/ k = 2)
     /\ Mat_empty (FrameBuffer_depth3d.frame it) = false
     /\ FrameBuffer_depth3d.raw_data it = [])
    \/ (k = 3 /\ FrameBuffer_depth3d.frame it = Mat_default).

(** A frame of the 12-byte-header stream protocol: id, type, payload. *)
Definition stream_frame : Type := Z * Z * list byte.

Definition encode_frame (f : stream_frame) : list byte :=
  let '(frame_id, frame_type, payload) := f in
  datagram frame_id frame_type (Z.of_nat (length payload)) payload.

(** A frame that passes the header checks of [TCPReceiver::receiveFrame]. *)
Definition valid_stream_frame (f : stream_frame) : Prop :=
  let '(frame_id, frame_type, payload) := f in
  Wire.is_int frame_id /\ 0 <= frame_type <= 3
  /\ 0 < Z.of_nat (length payload) <= 2000000.

(** What the receiver returns for the payload of a frame. *)
Definition decoded_frame `{Codec} (f : stream_frame) : outcome (Mat * Z) :=
  let '(_, frame_type, payload) := f in
  if Mat_empty (imdecode payload) then Reject
  else Ok (imdecode payload, frame_type).

(** [n] calls of [TCPReceiver::receiveFrame] in a row. *)
Fixpoint receive_frames `{Codec} (n : nat) (s : Stream.sock)
  : list (outcome (Mat * Z)) * Stream.sock :=
  match n with
  | O => ([], s)
  | S n' =>
      let '(r, s1) := submarine_receiver_tcp.receiveFrame s in
      let '(rs, s2) := receive_frames n' s1 in
      (r :: rs, s2)
  end.

(** A sending socket that never fails and takes the first write whole
    when it has [n] bytes. *)
Definition never_fails (script : list Z) : Prop :=
  Forall (fun r => 0 < r) script.

Definition first_write_whole (n : Z) (script : list Z) : Prop :=
  match script with
  | [] => True
  | r :: _ => n <= r
  end.

(** A sending socket that takes every write of at most [n] bytes whole. *)
Definition never_cuts (n : Z) (script : list Z) : Prop :=
  Forall (fun r => 0 < r /\ n <= r) script.

(** The three bytes of pixel [(px, py)] of a 640-pixel-wide image. *)
Definition map_pixel (map_image : list Z) (px py : Z) : option Z * option Z * option Z :=
  let i := Z.to_nat ((py * submarine_multistream.width + px) * 3) in
  (map_image !! i, map_image !! (i + 1)%nat, map_image !! (i + 2)%nat).

(** The size of the image of [Map2D]. *)
Definition map_bytes : Z :=
  submarine_multistream.width * submarine_multistream.height * 3.







(** The number of positions the conversion loop of [Map3D::update]
    visits: every second column of every second row. *)
Definition sampled_positions (f : submarine_3d_viz.DepthFrame) : Z :=
  Z.max 0 ((submarine_3d_viz.df_height f + 1) / 2)
  * Z.max 0 ((submarine_3d_viz.df_width f + 1) / 2).

(** The frames of the [update] calls are small enough for [int excess]. *)
Definition frame_fits (c : submarine_3d_viz.call) : Prop :=
  match c with
  | submarine_3d_viz.Update f _ =>
      sampled_positions f + submarine_3d_viz.maxPoints <= Wire.int_max
  | _ => True
  end.

(** The keys that toggle the accumulation: [a] and [A]. *)
Definition toggle_key (code : Z) : Prop := code = 97 \/ code = 65.

(** A text overlay for the examples: nothing is drawn. *)
Definition no_overlay : Overlay :=
  {| putText := fun m => m; putText_empty := fun m => eq_refl |}.

(** The screens shown over a run of the loop of [color_receiver]'s
    [main]: each pass with its datagram, the clock at the receive and the
    clock at the display. *)
Fixpoint screens `{Codec} `{Overlay} (st : color_receiver_main.state)
         (passes : list (option (list byte) * Z * Z))
  : list color_receiver_main.shown :=
  match passes with
  | [] => []
  | (ev, t_recv, now) :: rest =>
      let r := color_receiver_main.loop_step st ev t_recv now in
      snd r :: screens (fst r) rest
  end.

(* ===================================================================== *)
(** * Part II: properties                                                 *)
(* ===================================================================== *)

(** Case analysis on every test of a conditional in the goal. *)
Ltac case_ifs :=
  repeat match goal with
         | |- context [if ?c then _ else _] => destruct c
         end.

(** Bounds of [int] for [lia]. *)
Ltac int_bounds :=
  unfold Wire.is_int, Wire.int_min, Wire.int_max in *.

(** ** Bytes and integers *)

Lemma Z_of_byte_of_Z (z : Z) : Wire.Z_of_byte (Wire.byte_of_Z z) = z mod 256.
Proof.
  unfold Wire.Z_of_byte, Wire.byte_of_Z.
  assert (Hr : 0 <= z mod 256 < 256) by (apply Z.mod_pos_bound; lia).
  destruct (Byte.of_N (Z.to_N (z mod 256))) as [b|] eqn:E.
  - apply Byte.to_of_N in E. rewrite E. apply Z2N.id. lia.
  - apply Byte.of_N_None_iff in E. lia.
Qed.

Lemma Z_of_byte_range (b : byte) : 0 <= Wire.Z_of_byte b < 256.
Proof.
  unfold Wire.Z_of_byte. pose proof (Byte.to_N_bounded b). lia.
Qed.

Lemma le_combine_store (z : Z) :
  match Wire.store_int z with
  | [b0; b1; b2; b3] => Wire.le_combine b0 b1 b2 b3 = z mod 2 ^ 32
  | _ => False
  end.
Proof.
  unfold Wire.store_int, Wire.le_combine.
  rewrite !Z_of_byte_of_Z.
  assert (Hw : 0 <= z mod 2 ^ 32 < 2 ^ 32) by (apply Z.mod_pos_bound; lia).
  generalize dependent (z mod 2 ^ 32). intros w Hw.
  change (2 ^ 8) with 256. change (2 ^ 16) with 65536.
  change (2 ^ 24) with 16777216. change (2 ^ 32) with 4294967296 in Hw.
  Z.div_mod_to_equations. lia.
Qed.

Lemma to_int_wrap (z : Z) : Wire.is_int z -> Wire.to_int (z mod 2 ^ 32) = z.
Proof.
  unfold Wire.is_int, Wire.int_min, Wire.int_max, Wire.to_int.
  intros Hz. rewrite Z.mod_mod by lia.
  change (2 ^ 31) with 2147483648 in *.
  change (2 ^ 32) with 4294967296 in *.
  destruct (Z.ltb_spec (z mod 4294967296) 2147483648);
    Z.div_mod_to_equations; lia.
Qed.

Lemma length_store_int (z : Z) : length (Wire.store_int z) = 4%nat.
Proof. reflexivity. Qed.

Lemma byte_at_app_r (pre l : list byte) (i : nat) :
  Wire.byte_at (pre ++ l) (length pre + i) = Wire.byte_at l i.
Proof.
  unfold Wire.byte_at. rewrite nth_error_app2 by lia.
  replace (length pre + i - length pre)%nat with i by lia. reflexivity.
Qed.

Lemma byte_at_in (buf : list byte) (i : nat) :
  (i < length buf)%nat -> Wire.byte_at buf i = Ok (nth i buf x00).
Proof.
  intros Hi. unfold Wire.byte_at.
  rewrite (nth_error_nth' buf x00 Hi). reflexivity.
Qed.

Lemma load_int_in (buf : list byte) (off : nat) :
  (off + 4 <= length buf)%nat -> Wire.load_int buf off = Ok (int_at buf off).
Proof.
  intros Hoff. unfold Wire.load_int, int_at.
  rewrite !byte_at_in by lia. reflexivity.
Qed.

Lemma load_int_app_r (pre l : list byte) (off : nat) :
  Wire.load_int (pre ++ l) (length pre + off) = Wire.load_int l off.
Proof.
  unfold Wire.load_int.
  rewrite <- !Nat.add_assoc, !byte_at_app_r. reflexivity.
Qed.

Lemma load_int_store (z : Z) (rest : list byte) :
  Wire.is_int z -> Wire.load_int (Wire.store_int z ++ rest) 0 = Ok z.
Proof.
  intros Hz. pose proof (le_combine_store z) as Hc.
  unfold Wire.load_int.
  destruct (Wire.store_int z) as [|b0 [|b1 [|b2 [|b3 [|? ?]]]]]; try contradiction.
  cbn [app Wire.byte_at nth_error Nat.add obind].
  rewrite Hc. f_equal. apply to_int_wrap, Hz.
Qed.

Lemma int_at_app_r (pre l : list byte) (off : nat) :
  int_at (pre ++ l) (length pre + off) = int_at l off.
Proof.
  unfold int_at. rewrite <- !Nat.add_assoc.
  rewrite !app_nth2 by lia.
  repeat match goal with
         | |- context [(length pre + ?k - length pre)%nat] =>
             replace (length pre + k - length pre)%nat with k by lia
         end.
  reflexivity.
Qed.

Lemma int_at_store (z : Z) (rest : list byte) :
  Wire.is_int z -> int_at (Wire.store_int z ++ rest) 0 = z.
Proof.
  intros Hz.
  assert (H4 : (0 + 4 <= length (Wire.store_int z ++ rest))%nat)
    by (rewrite length_app, length_store_int; lia).
  pose proof (load_int_in _ _ H4) as Hl.
  rewrite load_int_store in Hl by exact Hz. congruence.
Qed.

(** Reading a range that lies inside the written part of a buffer gives
    that part of the buffer, and never faults. *)
Lemma omapM_byte_at (buf : list byte) (k from : nat) :
  (from + k <= length buf)%nat ->
  omapM (Wire.byte_at buf) (seq from k) = Ok (firstn k (skipn from buf)).
Proof.
  revert from. induction k as [|k IH]; intros from Hle.
  - reflexivity.
  - cbn [seq omapM]. rewrite byte_at_in by lia.
    cbn [obind]. rewrite IH by lia. cbn [obind].
    f_equal.
    assert (Hs : skipn from buf = nth from buf x00 :: skipn (S from) buf).
    { clear IH. revert from Hle. induction buf as [|b buf IHb]; intros from Hle.
      - cbn in Hle. lia.
      - destruct from as [|from]; [reflexivity|].
        cbn [skipn nth]. apply IHb. cbn in Hle. lia. }
    rewrite Hs. reflexivity.
Qed.

Lemma slice_to_end (buf : list byte) (from : nat) :
  (from <= length buf)%nat ->
  Wire.slice buf from (length buf) = Ok (skipn from buf).
Proof.
  intros Hle. unfold Wire.slice. rewrite omapM_byte_at by lia.
  f_equal. apply firstn_all2. rewrite length_skipn. lia.
Qed.

Lemma recvfrom_some (d : list byte) (size : Z) :
  Wire.recvfrom (Some d) size
  = (Z.of_nat (length (firstn (Z.to_nat size) d)), firstn (Z.to_nat size) d).
Proof. reflexivity. Qed.

(** ** The datagram receivers, case by case *)

Section DatagramReceivers.
Context `{Codec}.

Lemma receivePacket_none : submarine_receiver_depth3d.receivePacket None = Reject.
Proof. reflexivity. Qed.

Lemma receivePacket_short (d : list byte) :
  (length (firstn (Z.to_nat submarine_receiver_depth3d.bufferSize) d) < 12)%nat ->
  submarine_receiver_depth3d.receivePacket (Some d) = Reject.
Proof.
  intros Hs. unfold submarine_receiver_depth3d.receivePacket.
  rewrite recvfrom_some.
  destruct (Z.ltb_spec
              (Z.of_nat (length (firstn (Z.to_nat submarine_receiver_depth3d.bufferSize) d))) 12);
    [reflexivity | lia].
Qed.

Lemma receivePacket_long (d : list byte) :
  let got := firstn (Z.to_nat submarine_receiver_depth3d.bufferSize) d in
  (12 <= length got)%nat ->
  submarine_receiver_depth3d.receivePacket (Some d)
  = if (int_at got 8 <=? 0) || (int_at got 8 >? 5000000) then Reject
    else Ok (skipn 12 got, int_at got 0, int_at got 4).
Proof.
  intros got Hl. unfold submarine_receiver_depth3d.receivePacket.
  rewrite recvfrom_some. fold got.
  destruct (Z.ltb_spec (Z.of_nat (length got)) 12); [lia|].
  rewrite !load_int_in by lia. cbn [obind].
  destruct ((int_at got 8 <=? 0) || (int_at got 8 >? 5000000)); [reflexivity|].
  rewrite Nat2Z.id, slice_to_end by lia. reflexivity.
Qed.

Lemma receiveFrame_none : submarine_receiver.receiveFrame None = Reject.
Proof. reflexivity. Qed.

Lemma receiveFrame_short (d : list byte) :
  (length (firstn (Z.to_nat submarine_receiver.bufferSize) d) < 12)%nat ->
  submarine_receiver.receiveFrame (Some d) = Reject.
Proof.
  intros Hs. unfold submarine_receiver.receiveFrame.
  rewrite recvfrom_some.
  destruct (Z.ltb_spec
              (Z.of_nat (length (firstn (Z.to_nat submarine_receiver.bufferSize) d))) 12);
    [reflexivity | lia].
Qed.

Lemma receiveFrame_long (d : list byte) :
  let got := firstn (Z.to_nat submarine_receiver.bufferSize) d in
  let decoded := imdecode (skipn 12 got) in
  (12 <= length got)%nat ->
  submarine_receiver.receiveFrame (Some d)
  = if (int_at got 4 <? 0) || (int_at got 4 >? 3) then Reject
    else if Mat_empty decoded then Reject
    else if (cols decoded <=? 0) || (rows decoded <=? 0)
            || (cols decoded >? 2000) || (rows decoded >? 2000)
    then Reject
    else Ok (decoded, int_at got 4).
Proof.
  intros got decoded Hl. unfold submarine_receiver.receiveFrame.
  rewrite recvfrom_some. fold got.
  destruct (Z.ltb_spec (Z.of_nat (length got)) 12); [lia|].
  rewrite !load_int_in by lia. cbn [obind].
  destruct ((int_at got 4 <? 0) || (int_at got 4 >? 3)); [reflexivity|].
  rewrite Nat2Z.id, slice_to_end by lia. reflexivity.
Qed.

Lemma color_receiveFrame_short (d : list byte) :
  (length (firstn (Z.to_nat color_receiver.bufferSize) d) < 8)%nat ->
  color_receiver.receiveFrame (Some d) = Reject.
Proof.
  intros Hs. unfold color_receiver.receiveFrame.
  rewrite recvfrom_some.
  destruct (Z.ltb_spec
              (Z.of_nat (length (firstn (Z.to_nat color_receiver.bufferSize) d))) 8);
    [reflexivity | lia].
Qed.

Lemma color_receiveFrame_long (d : list byte) :
  let got := firstn (Z.to_nat color_receiver.bufferSize) d in
  let decoded := imdecode (skipn 8 got) in
  (8 <= length got)%nat ->
  color_receiver.receiveFrame (Some d)
  = if (int_at got 4 <=? 0) || (int_at got 4 >? 2000000) then Reject
    else if Mat_empty decoded then Reject
    else Ok (decoded, int_at got 0).
Proof.
  intros got decoded Hl. unfold color_receiver.receiveFrame.
  rewrite recvfrom_some. fold got.
  destruct (Z.ltb_spec (Z.of_nat (length got)) 8); [lia|].
  rewrite !load_int_in by lia. cbn [obind].
  destruct ((int_at got 4 <=? 0) || (int_at got 4 >? 2000000)); [reflexivity|].
  rewrite Nat2Z.id, slice_to_end by lia. reflexivity.
Qed.

End DatagramReceivers.

(** Fields of a datagram built by [datagram]. *)
Lemma datagram_fields (frame_id frame_type declared : Z) (payload : list byte) :
  Wire.is_int frame_id -> Wire.is_int frame_type -> Wire.is_int declared ->
  let d := datagram frame_id frame_type declared payload in
  int_at d 0 = frame_id /\ int_at d 4 = frame_type /\ int_at d 8 = declared
  /\ skipn 12 d = payload /\ length d = (12 + length payload)%nat.
Proof.
  intros Hi Ht Hd d. unfold d, datagram.
  split; [apply int_at_store, Hi|].
  split.
  { change 4%nat with (length (Wire.store_int frame_id) + 0)%nat.
    rewrite int_at_app_r. apply int_at_store, Ht. }
  split.
  { rewrite !app_assoc.
    change 8%nat
      with (length (Wire.store_int frame_id ++ Wire.store_int frame_type) + 0)%nat.
    rewrite <- (app_assoc (_ ++ _)).
    rewrite int_at_app_r. apply int_at_store, Hd. }
  split; [reflexivity|].
  rewrite !length_app, !length_store_int. lia.
Qed.

(** ** Header round trip (datagram sender and receiver) *)

(** C2. A frame packed by [sendRawData] (12-byte header, then the payload)
    and handed intact to [receivePacket] comes back with the same
    [frame_id], [frame_type] and payload bytes, for every [int] frame id,
    every frame type of the enumeration and every non-empty payload that
    fits the receive buffer together with its header. *)
Theorem header_roundtrip (frame_id frame_type : Z) (data : list byte) :
  Wire.is_int frame_id ->
  known_frame_type frame_type ->
  data <> [] ->
  12 + Z.of_nat (length data) <= submarine_receiver_depth3d.bufferSize ->
  exists packet,
    submarine_sender_depth3d.sendRawData data frame_id frame_type = Some packet
    /\ submarine_receiver_depth3d.receivePacket (Some packet)
       = Ok (data, frame_id, frame_type).
Proof.
  intros Hid Hty Hne Hfit.
  exists (datagram frame_id frame_type (Z.of_nat (length data)) data).
  split.
  { unfold submarine_sender_depth3d.sendRawData, datagram.
    destruct data; [congruence | reflexivity]. }
  unfold submarine_receiver_depth3d.bufferSize in Hfit.
  assert (Hty' : Wire.is_int frame_type).
  { unfold known_frame_type, submarine_receiver_depth3d.FRAME_DEPTH_VIS,
      submarine_receiver_depth3d.FRAME_2D_MAP,
      submarine_receiver_depth3d.FRAME_3D_DEPTH in Hty.
    int_bounds. lia. }
  assert (Hlen : Wire.is_int (Z.of_nat (length data)))
    by (int_bounds; lia).
  destruct (datagram_fields frame_id frame_type _ data Hid Hty' Hlen)
    as (F0 & F4 & F8 & Fp & Fl).
  pose proof (receivePacket_long
                (datagram frame_id frame_type (Z.of_nat (length data)) data))
    as Hr.
  cbv zeta in Hr.
  rewrite firstn_all2 in Hr
    by (rewrite Fl; unfold submarine_receiver_depth3d.bufferSize; lia).
  rewrite Hr by lia. rewrite F0, F4, F8, Fp.
  assert (Hpos : (0 < length data)%nat)
    by (destruct data; [congruence | cbn; lia]).
  destruct (Z.leb_spec (Z.of_nat (length data)) 0); [lia|].
  destruct (Z.gtb_spec (Z.of_nat (length data)) 5000000); [lia|].
  reflexivity.
Qed.

Lemma header_roundtrip_witness :
  exists packet,
    submarine_sender_depth3d.sendRawData [x10; x20; x30] 5 3 = Some packet
    /\ submarine_receiver_depth3d.receivePacket (Some packet)
       = Ok ([x10; x20; x30], 5, 3).
Proof.
  apply (header_roundtrip 5 3 [x10; x20; x30]).
  - vm_compute. split; discriminate.
  - right. right. reflexivity.
  - discriminate.
  - vm_compute. discriminate.
Defined.

(** ** Malformed datagrams *)

(** C1 (counterexample). A declared size beyond the bytes present is not
    rejected: the datagram declaring 500 bytes with 200 present is accepted
    by [receivePacket], which hands on the 200 bytes. *)
Lemma declared_500_with_200_is_accepted :
  int_at oversold 8 = 500
  /\ length (skipn 12 oversold) = 200%nat
  /\ submarine_receiver_depth3d.receivePacket (Some oversold)
     = Ok (repeat x41 200, 7, 1)
  /\ submarine_receiver_depth3d.receivePacket (Some oversold) <> Reject.
Proof.
  assert (E : submarine_receiver_depth3d.receivePacket (Some oversold)
              = Ok (repeat x41 200, 7, 1)) by (vm_compute; reflexivity).
  repeat split; try (vm_compute; reflexivity); try exact E.
  rewrite E. discriminate.
Qed.

(** C1, amended. For every received datagram: a buffer shorter than the
    12-byte header is rejected (and so is a failed receive);
    [receiveFrame] rejects a frame type outside 0..3; [receivePacket]
    rejects a declared size that is not in 1..5000000; neither reads a
    byte past those received. A declared size larger than the bytes that
    follow the header is no ground for rejection: with the size in range,
    [receivePacket] accepts and hands on the bytes that are there. *)
Theorem malformed_datagram_handling `{Codec} (d : list byte) :
  let got := firstn (Z.to_nat 65536) d in
  submarine_receiver_depth3d.receivePacket None = Reject
  /\ submarine_receiver.receiveFrame None = Reject
  /\ ~ is_fault (submarine_receiver_depth3d.receivePacket (Some d))
  /\ ~ is_fault (submarine_receiver.receiveFrame (Some d))
  /\ ((length got < 12)%nat ->
      submarine_receiver_depth3d.receivePacket (Some d) = Reject
      /\ submarine_receiver.receiveFrame (Some d) = Reject)
  /\ ((12 <= length got)%nat ->
      int_at got 4 < 0 \/ 3 < int_at got 4 ->
      submarine_receiver.receiveFrame (Some d) = Reject)
  /\ ((12 <= length got)%nat ->
      int_at got 8 <= 0 \/ 5000000 < int_at got 8 ->
      submarine_receiver_depth3d.receivePacket (Some d) = Reject)
  /\ ((12 <= length got)%nat ->
      0 < int_at got 8 <= 5000000 ->
      submarine_receiver_depth3d.receivePacket (Some d)
      = Ok (skipn 12 got, int_at got 0, int_at got 4)).
Proof.
  intros got.
  pose proof (receivePacket_short d) as Ps.
  pose proof (receivePacket_long d) as Pl.
  pose proof (receiveFrame_short d) as Fs.
  pose proof (receiveFrame_long d) as Fl.
  change (Z.to_nat submarine_receiver_depth3d.bufferSize)
    with (Z.to_nat 65536) in Ps, Pl.
  change (Z.to_nat submarine_receiver.bufferSize)
    with (Z.to_nat 65536) in Fs, Fl.
  cbv zeta in Pl, Fl. fold got in Ps, Pl, Fs, Fl.
  split; [reflexivity|]. split; [reflexivity|].
  split.
  { destruct (Nat.lt_ge_cases (length got) 12) as [Hlt|Hge].
    - rewrite Ps by exact Hlt. exact id.
    - rewrite Pl by exact Hge.
      case_ifs; exact id. }
  split.
  { destruct (Nat.lt_ge_cases (length got) 12) as [Hlt|Hge].
    - rewrite Fs by exact Hlt. exact id.
    - rewrite Fl by exact Hge.
      case_ifs; exact id. }
  split; [intros Hlt; split; auto|].
  split.
  { intros Hge Hty. rewrite Fl by exact Hge.
    destruct (Z.ltb_spec (int_at got 4) 0); [reflexivity|].
    destruct (Z.gtb_spec (int_at got 4) 3); [reflexivity|]. lia. }
  split.
  { intros Hge Hsz. rewrite Pl by exact Hge.
    destruct (Z.leb_spec (int_at got 8) 0); [reflexivity|].
    destruct (Z.gtb_spec (int_at got 8) 5000000); [reflexivity|]. lia. }
  intros Hge Hsz. rewrite Pl by exact Hge.
  destruct (Z.leb_spec (int_at got 8) 0); [lia|].
  destruct (Z.gtb_spec (int_at got 8) 5000000); [lia|]. reflexivity.
Qed.

Lemma malformed_datagram_handling_witness :
  submarine_receiver_depth3d.receivePacket (Some (datagram 9 2 500 (repeat x42 200)))
  = Ok (repeat x42 200, 9, 2).
Proof.
  pose proof (@malformed_datagram_handling raw_codec
                (datagram 9 2 500 (repeat x42 200))) as W.
  cbv zeta in W.
  destruct W as (_ & _ & _ & _ & _ & _ & _ & W).
  rewrite W.
  - vm_compute. reflexivity.
  - vm_compute. lia.
  - vm_compute. split; [reflexivity | discriminate].
Defined.

(** ** The payload slice of the datagram receivers *)

(** The three receivers that slice up to [n]: no call faults, whatever
    arrives. *)
Lemma datagram_receivers_stay_in_bounds `{Codec} (ev : option (list byte)) :
  ~ is_fault (submarine_receiver_depth3d.receivePacket ev)
  /\ ~ is_fault (submarine_receiver.receiveFrame ev)
  /\ ~ is_fault (color_receiver.receiveFrame ev).
Proof.
  destruct ev as [d|]; [|repeat split; exact id].
  split; [|split].
  - destruct (Nat.lt_ge_cases
                (length (firstn (Z.to_nat submarine_receiver_depth3d.bufferSize) d)) 12)
      as [Hlt|Hge].
    + rewrite receivePacket_short by exact Hlt. exact id.
    + rewrite receivePacket_long by exact Hge.
      case_ifs; exact id.
  - destruct (Nat.lt_ge_cases
                (length (firstn (Z.to_nat submarine_receiver.bufferSize) d)) 12)
      as [Hlt|Hge].
    + rewrite receiveFrame_short by exact Hlt. exact id.
    + rewrite receiveFrame_long by exact Hge.
      case_ifs; exact id.
  - destruct (Nat.lt_ge_cases
                (length (firstn (Z.to_nat color_receiver.bufferSize) d)) 8)
      as [Hlt|Hge].
    + rewrite color_receiveFrame_short by exact Hlt. exact id.
    + rewrite color_receiveFrame_long by exact Hge.
      case_ifs; exact id.
Qed.

(** C10. [receivePacket] of submarine_receiver_raw.cpp sizes the slice by
    the declared size: the datagram of 208 bytes that declares 500 yields a
    500-byte buffer, of which the last 300 bytes were never received. *)
Theorem raw_receivePacket_slices_by_declared_size :
  length (datagram8 7 500 (repeat x41 200)) = 208%nat
  /\ submarine_receiver_raw.receivePacket
       (Some (datagram8 7 500 (repeat x41 200)))
     = Ok (repeat x41 200 ++ repeat x00 300, 7).
Proof. split; vm_compute; reflexivity. Qed.

(** ** The stream receivers *)

Lemma recv_loop_S (fuel : nat) (s : Stream.sock) (size total : Z)
      (buf : list byte) :
  Stream.recv_loop (S fuel) s size total buf
  = if total <? size then
      let '(n, got, s') := Stream.recv s (size - total) in
      if n <=? 0 then (Reject, s')
      else Stream.recv_loop fuel s' size (total + n) (buf ++ got)
    else (Ok buf, s).
Proof. reflexivity. Qed.

Lemma recv_loop_done (fuel : nat) (s : Stream.sock) (size total : Z)
      (buf : list byte) :
  size <= total -> Stream.recv_loop fuel s size total buf = (Ok buf, s).
Proof.
  intros Hle. destruct fuel; cbn [Stream.recv_loop];
    destruct (Z.ltb_spec total size); (lia || reflexivity).
Qed.

(** The loop never lacks iterations when it is given [size - total] of
    them: every pass that continues has read at least one byte. *)
Lemma recv_loop_fuel (fuel : nat) :
  forall (s : Stream.sock) (size total : Z) (buf : list byte),
    size - total <= Z.of_nat fuel ->
    ~ is_fault (fst (Stream.recv_loop fuel s size total buf)).
Proof.
  induction fuel as [|fuel IH]; intros s size total buf Hf.
  - rewrite recv_loop_done by lia. exact id.
  - rewrite recv_loop_S.
    destruct (Z.ltb_spec total size); [|exact id].
    destruct (Stream.recv s (size - total)) as [[n got] s'].
    destruct (Z.leb_spec n 0); [exact id|].
    apply IH. lia.
Qed.

(** Short reads are continued: whatever the segmentation of the bytes
    that arrive, the loop returns exactly the [size - total] bytes it was
    asked for and leaves the bytes after them in the socket. *)
Lemma recv_loop_collects (fuel : nat) :
  forall (cs : list (list byte)) (tail : Stream.sock) (size total : Z)
         (buf want rest : list byte),
    Forall (fun c => c <> []) cs ->
    concat cs = want ++ rest ->
    size - total = Z.of_nat (length want) ->
    (length want <= fuel)%nat ->
    exists cs',
      Forall (fun c => c <> []) cs' /\ concat cs' = rest
      /\ Stream.recv_loop fuel (segments cs ++ tail) size total buf
         = (Ok (buf ++ want), segments cs' ++ tail).
Proof.
  induction fuel as [|fuel IH]; intros cs tail size total buf want rest Hne Hcat Hsz Hfuel.
  - destruct want; [|cbn in Hfuel; lia].
    exists cs. rewrite recv_loop_done by (cbn in Hsz; lia).
    rewrite app_nil_r. auto.
  - destruct want as [|w want].
    { exists cs. rewrite recv_loop_done by (cbn in Hsz; lia).
      rewrite app_nil_r. auto. }
    destruct cs as [|c cs]; [discriminate Hcat|].
    inversion Hne as [|? ? Hc Hcs]; subst.
    rewrite recv_loop_S.
    destruct (Z.ltb_spec total size); [|cbn [length] in Hsz; lia].
    change (segments (c :: cs) ++ tail)
      with (Stream.Chunk c :: (segments cs ++ tail)).
    cbn [Stream.recv].
    rewrite Hsz, Nat2Z.id.
    cbn [concat] in Hcat.
    apply app_eq_app in Hcat. destruct Hcat as [l [[Hc1 Hr]|[Hw Hcs']]].
    + (* the segment holds all that is wanted *)
      rewrite Hc1, take_app_length, drop_app_length.
      destruct (Z.leb_spec (Z.of_nat (length (w :: want))) 0);
        [cbn [length] in *; lia|].
      rewrite recv_loop_done by lia.
      destruct l as [|b l].
      * exists cs. rewrite app_nil_l in Hr. auto.
      * exists ((b :: l) :: cs). split; [constructor; [discriminate|assumption]|].
        split; [cbn [concat]; congruence | reflexivity].
    + (* the segment is a short read *)
      assert (Hlen : (length c <= length (w :: want))%nat)
        by (rewrite Hw, length_app; lia).
      rewrite firstn_all2 by exact Hlen.
      rewrite skipn_all2 by exact Hlen.
      assert (Hpos : (0 < length c)%nat) by (destruct c; [congruence|cbn; lia]).
      destruct (Z.leb_spec (Z.of_nat (length c)) 0); [lia|].
      destruct (IH cs tail size (total + Z.of_nat (length c)) (buf ++ c) l rest)
        as (cs' & Hne' & Hcat' & Hloop); auto.
      * rewrite Hw, length_app in Hsz. lia.
      * rewrite Hw, length_app in Hfuel. lia.
      * exists cs'. split; [assumption|]. split; [assumption|].
        rewrite Hloop, Hw, app_assoc. reflexivity.
Qed.

(** A zero or negative read before the wanted bytes are complete makes
    the loop give up. *)
Lemma recv_loop_fails (cs : list (list byte)) :
  forall (fuel : nat) (stop : Stream.sock) (size total : Z) (buf : list byte),
    Forall (fun c => c <> []) cs ->
    halts stop ->
    Z.of_nat (length (concat cs)) < size - total ->
    size - total <= Z.of_nat fuel ->
    fst (Stream.recv_loop fuel (segments cs ++ stop) size total buf) = Reject.
Proof.
  induction cs as [|c cs IH]; intros fuel stop size total buf Hne Hstop Hlt Hfuel.
  - cbn [concat length] in Hlt. destruct fuel as [|fuel]; [lia|].
    rewrite recv_loop_S. destruct (Z.ltb_spec total size); [|lia].
    cbn [segments map app].
    destruct stop as [|[bs| |] stop]; cbn [Stream.recv]; try reflexivity.
    destruct bs; [|contradiction].
    rewrite firstn_nil. reflexivity.
  - inversion Hne as [|? ? Hc Hcs]; subst.
    cbn [concat] in Hlt. rewrite length_app in Hlt.
    destruct fuel as [|fuel]; [lia|].
    rewrite recv_loop_S. destruct (Z.ltb_spec total size); [|lia].
    change (segments (c :: cs) ++ stop)
      with (Stream.Chunk c :: (segments cs ++ stop)).
    cbn [Stream.recv].
    assert (Hlen : (length c <= Z.to_nat (size - total))%nat) by lia.
    rewrite firstn_all2 by exact Hlen.
    rewrite skipn_all2 by exact Hlen.
    assert (Hpos : (0 < length c)%nat) by (destruct c; [congruence|cbn; lia]).
    destruct (Z.leb_spec (Z.of_nat (length c)) 0); [lia|].
    apply IH; auto; lia.
Qed.

Lemma recv_bounds (s : Stream.sock) (len : Z) :
  0 <= len ->
  let '(n, got, _) := Stream.recv s len in
  n <= 0 \/ (n = Z.of_nat (length got) /\ n <= len).
Proof.
  intros Hlen. destruct s as [|[bs| |] s]; cbn [Stream.recv]; try (left; lia).
  right. split; [reflexivity|]. rewrite length_firstn. lia.
Qed.

(** When the loop returns, the buffer holds [size] bytes. *)
Lemma recv_loop_length (fuel : nat) :
  forall (s : Stream.sock) (size total : Z) (buf r : list byte)
         (s' : Stream.sock),
    Stream.recv_loop fuel s size total buf = (Ok r, s') ->
    total <= size ->
    Z.of_nat (length r) = Z.of_nat (length buf) + (size - total).
Proof.
  induction fuel as [|fuel IH]; intros s size total buf r s' Hr Hle.
  - cbn [Stream.recv_loop] in Hr.
    destruct (Z.ltb_spec total size); [discriminate|].
    inversion Hr; subst. lia.
  - rewrite recv_loop_S in Hr.
    destruct (Z.ltb_spec total size); [|inversion Hr; subst; lia].
    pose proof (recv_bounds s (size - total) ltac:(lia)) as Hb.
    destruct (Stream.recv s (size - total)) as [[n got] s1].
    destruct (Z.leb_spec n 0); [discriminate|].
    destruct Hb as [|[Hn Hn']]; [lia|].
    apply IH in Hr; [|lia]. rewrite length_app in Hr. lia.
Qed.

Section StreamReceivers.
Context `{Codec}.

(** [TCPReceiver::receiveFrame] rebuilds a frame from any segmentation of
    its bytes. *)
Lemma tcp_receiveFrame_reassembles
      (cs : list (list byte)) (tail : Stream.sock)
      (frame_id frame_type : Z) (payload rest : list byte) :
  Forall (fun c => c <> []) cs ->
  concat cs
  = datagram frame_id frame_type (Z.of_nat (length payload)) payload ++ rest ->
  Wire.is_int frame_id ->
  0 <= frame_type <= 3 ->
  0 < Z.of_nat (length payload) <= 2000000 ->
  exists cs',
    Forall (fun c => c <> []) cs'
    /\ concat cs' = rest
    /\ submarine_receiver_tcp.receiveFrame (segments cs ++ tail)
       = (if Mat_empty (imdecode payload) then Reject
          else Ok (imdecode payload, frame_type),
          segments cs' ++ tail).
Proof.
  intros Hne Hcat Hid Hty Hlen.
  set (header := Wire.store_int frame_id ++ Wire.store_int frame_type
                 ++ Wire.store_int (Z.of_nat (length payload))).
  assert (Hcat1 : concat cs = header ++ (payload ++ rest)).
  { rewrite Hcat. unfold datagram, header. rewrite <- !app_assoc. reflexivity. }
  assert (Hh : length header = 12%nat) by reflexivity.
  destruct (recv_loop_collects 12 cs tail 12 0 [] header (payload ++ rest))
    as (cs1 & Hne1 & Hcat2 & Hloop1); auto; try (rewrite Hh; lia).
  unfold submarine_receiver_tcp.receiveFrame.
  rewrite Hloop1. cbn [app].
  assert (Hty' : Wire.is_int frame_type)
    by (int_bounds; lia).
  assert (Hsz : Wire.is_int (Z.of_nat (length payload)))
    by (int_bounds; lia).
  assert (L0 : Wire.load_int header 0 = Ok frame_id)
    by (apply load_int_store, Hid).
  assert (L4 : Wire.load_int header 4 = Ok frame_type).
  { unfold header.
    change 4%nat with (length (Wire.store_int frame_id) + 0)%nat.
    rewrite load_int_app_r. apply load_int_store, Hty'. }
  assert (L8 : Wire.load_int header 8
               = Ok (Z.of_nat (length payload))).
  { unfold header. rewrite app_assoc.
    change 8%nat
      with (length (Wire.store_int frame_id ++ Wire.store_int frame_type) + 0)%nat.
    rewrite load_int_app_r.
    rewrite <- (app_nil_r (Wire.store_int _)).
    apply load_int_store, Hsz. }
  rewrite L0, L4, L8. cbn [obind].
  destruct (Z.ltb_spec frame_type 0); [lia|].
  destruct (Z.gtb_spec frame_type 3); [lia|].
  destruct (Z.leb_spec (Z.of_nat (length payload)) 0); [lia|].
  destruct (Z.gtb_spec (Z.of_nat (length payload)) 2000000); [lia|].
  cbn [orb]. rewrite Nat2Z.id.
  destruct (recv_loop_collects (length payload) cs1 tail
              (Z.of_nat (length payload)) 0 [] payload rest)
    as (cs2 & Hne2 & Hcat3 & Hloop2); auto; try lia.
  rewrite Hloop2. cbn [app].
  exists cs2. split; [assumption|]. split; [assumption|].
  destruct (Mat_empty (imdecode payload)); reflexivity.
Qed.

(** The frame with header (5, 1, 100) whose 100 payload bytes arrive
    as 40, 40 and 20: the payload handed to the codec is the original
    one, byte for byte. *)
Lemma tcp_receiveFrame_40_40_20 (payload : list byte) (tail : Stream.sock) :
  length payload = 100%nat ->
  submarine_receiver_tcp.receiveFrame
    (segments [ datagram 5 1 100 [];
                firstn 40 payload;
                firstn 40 (skipn 40 payload);
                skipn 80 payload ] ++ tail)
  = (if Mat_empty (imdecode payload) then Reject
     else Ok (imdecode payload, 1),
     tail).
Proof.
  intros Hlen.
  destruct (tcp_receiveFrame_reassembles
              [ datagram 5 1 100 [];
                firstn 40 payload;
                firstn 40 (skipn 40 payload);
                skipn 80 payload ] tail 5 1 payload [])
    as (cs' & Hne & Hcat & Hr).
  - repeat constructor; intros E; apply (f_equal (@length byte)) in E;
      revert E; rewrite ?length_firstn, ?length_skipn, ?Hlen;
      cbn; lia.
  - rewrite Hlen. cbn [concat]. unfold datagram.
    rewrite !app_nil_r, <- !app_assoc.
    do 3 f_equal.
    transitivity (firstn 40 payload ++ skipn 40 payload);
      [f_equal | apply firstn_skipn].
    replace (skipn 80 payload) with (skipn 40 (skipn 40 payload))
      by (rewrite skipn_skipn; reflexivity).
    apply firstn_skipn.
  - vm_compute. split; discriminate.
  - lia.
  - rewrite Hlen. lia.
  - destruct cs' as [|c cs'].
    + exact Hr.
    + inversion Hne; subst. destruct c; [congruence | discriminate Hcat].
Qed.

(** A zero or negative read while the header or the payload is still
    incomplete makes [TCPReceiver::receiveFrame] fail. *)
Lemma tcp_receiveFrame_fails_in_header
      (cs : list (list byte)) (stop : Stream.sock) :
  Forall (fun c => c <> []) cs ->
  halts stop ->
  (length (concat cs) < 12)%nat ->
  fst (submarine_receiver_tcp.receiveFrame (segments cs ++ stop)) = Reject.
Proof.
  intros Hne Hstop Hlt.
  pose proof (recv_loop_fails cs 12 stop 12 0 [] Hne Hstop
                ltac:(lia) ltac:(lia)) as Hf.
  unfold submarine_receiver_tcp.receiveFrame.
  destruct (Stream.recv_loop 12 (segments cs ++ stop) 12 0 [])
    as [[header| |f] s1]; cbn [fst] in *;
    try discriminate Hf; reflexivity.
Qed.

Lemma tcp_receiveFrame_fails_in_payload
      (cs : list (list byte)) (stop : Stream.sock)
      (frame_id frame_type declared : Z) (part : list byte) :
  Forall (fun c => c <> []) cs ->
  halts stop ->
  concat cs = datagram frame_id frame_type declared part ->
  Wire.is_int frame_id -> Wire.is_int frame_type -> Wire.is_int declared ->
  Z.of_nat (length part) < declared ->
  fst (submarine_receiver_tcp.receiveFrame (segments cs ++ stop)) = Reject.
Proof.
  intros Hne Hstop Hcat Hid Hty Hde Hlt.
  set (header := Wire.store_int frame_id ++ Wire.store_int frame_type
                 ++ Wire.store_int declared).
  assert (Hcat1 : concat cs = header ++ part).
  { rewrite Hcat. unfold datagram, header. rewrite <- !app_assoc. reflexivity. }
  assert (Hh : length header = 12%nat) by reflexivity.
  destruct (recv_loop_collects 12 cs stop 12 0 [] header part)
    as (cs1 & Hne1 & Hcat2 & Hloop1); auto; try (rewrite Hh; lia).
  unfold submarine_receiver_tcp.receiveFrame.
  rewrite Hloop1. cbn [app].
  assert (L0 : Wire.load_int header 0 = Ok frame_id)
    by (apply load_int_store, Hid).
  assert (L4 : Wire.load_int header 4 = Ok frame_type).
  { unfold header.
    change 4%nat with (length (Wire.store_int frame_id) + 0)%nat.
    rewrite load_int_app_r. apply load_int_store, Hty. }
  assert (L8 : Wire.load_int header 8 = Ok declared).
  { unfold header. rewrite app_assoc.
    change 8%nat
      with (length (Wire.store_int frame_id ++ Wire.store_int frame_type) + 0)%nat.
    rewrite load_int_app_r.
    rewrite <- (app_nil_r (Wire.store_int _)).
    apply load_int_store, Hde. }
  rewrite L0, L4, L8. cbn [obind].
  destruct ((frame_type <? 0) || (frame_type >? 3)
            || (declared <=? 0) || (declared >? 2000000)); [reflexivity|].
  pose proof (recv_loop_fails cs1 (Z.to_nat declared) stop declared 0 []
                Hne1 Hstop) as Hf.
  rewrite Hcat2 in Hf. specialize (Hf ltac:(lia) ltac:(lia)).
  destruct (Stream.recv_loop (Z.to_nat declared) (segments cs1 ++ stop)
              declared 0 []) as [[buffer| |f] s2]; cbn [fst] in *;
    try reflexivity; discriminate Hf.
Qed.

(** [TCPReceiver::receiveFrame] returns on every socket: the loops never
    lack iterations and the header is never read out of bounds. *)
Lemma tcp_receiveFrame_total (s : Stream.sock) :
  ~ is_fault (fst (submarine_receiver_tcp.receiveFrame s)).
Proof.
  unfold submarine_receiver_tcp.receiveFrame.
  pose proof (recv_loop_fuel 12 s 12 0 [] ltac:(lia)) as F1.
  pose proof (recv_loop_length 12 s 12 0 []) as L1.
  destruct (Stream.recv_loop 12 s 12 0 []) as [[header| |f] s1];
    cbn [fst] in *; [ | exact id | exact F1].
  specialize (L1 header s1 eq_refl ltac:(lia)). cbn [length] in L1.
  rewrite !load_int_in by lia. cbn [obind].
  destruct ((int_at header 4 <? 0) || (int_at header 4 >? 3)) eqn:E1;
    [exact id|].
  destruct (Z.leb_spec (int_at header 8) 0) as [|Hpos]; [exact id|].
  cbn [orb].
  destruct (int_at header 8 >? 2000000); [exact id|].
  pose proof (recv_loop_fuel (Z.to_nat (int_at header 8)) s1
                (int_at header 8) 0 [] ltac:(lia)) as F2.
  destruct (Stream.recv_loop (Z.to_nat (int_at header 8)) s1
              (int_at header 8) 0 []) as [[buffer| |f] s2];
    cbn [fst] in *; [ | exact id | exact F2].
  destruct (Mat_empty (imdecode buffer)); exact id.
Qed.

End StreamReceivers.

(** ** The compact-header stream receiver *)

(** C3. [SwitchableReceiver::receiveFrame] does not loop on its header:
    the frame that arrives whole is returned, the same frame whose 5 header
    bytes arrive as 3 and then 2 is refused although no read returned zero
    or a negative value, and the receiver stays connected with the rest of
    the frame at the head of the socket. *)
Theorem switchable_receiveFrame_short_header :
  let payload := repeat x41 100 in
  let whole := compact_frame 1 payload in
  let start s := switchable_receiver.mkReceiver s true in
  @switchable_receiver.receiveFrame raw_codec (start (segments [whole]))
  = (Ok (@imdecode raw_codec payload, 1), start [])
  /\ @switchable_receiver.receiveFrame raw_codec
       (start (segments [firstn 3 whole; skipn 3 whole]))
     = (Reject, start (segments [skipn 3 whole])).
Proof. split; vm_compute; reflexivity. Qed.

(** ** The frame cache *)

(** The age test in milliseconds is the test on the clock difference. *)
Lemma age_below_timeout (now timestamp : Z) :
  (duration_ms now timestamp <? 2000) = true
  <-> now - timestamp < 2000 * 1000000.
Proof.
  unfold duration_ms. rewrite Z.ltb_lt.
  Z.quot_rem_to_equations. lia.
Qed.

Lemma age_reached_timeout (now timestamp : Z) :
  (duration_ms now timestamp <? 2000) = false
  <-> 2000 * 1000000 <= now - timestamp.
Proof.
  unfold duration_ms. rewrite Z.ltb_ge.
  Z.quot_rem_to_equations. lia.
Qed.

(** C4. [get] right after [update] returns the value put; [get] returns
    the stored value of an entry younger than the 2000 ms timeout, and the
    default ("absent") image when the entry is 2000 ms old or older, or
    when there is no entry: a stale value is never returned. *)
Theorem cache_get_fresh_or_absent
        (frames : gmap Z FrameBuffer_depth3d.TimedFrame)
        (frameType : Z) (v : Mat) (now : Z) :
  FrameBuffer_depth3d.get
    (FrameBuffer_depth3d.update frames frameType v now) frameType now = v
  /\ (forall it,
        frames !! frameType = Some it ->
        now - FrameBuffer_depth3d.timestamp it < 2000 * 1000000 ->
        FrameBuffer_depth3d.get frames frameType now
        = FrameBuffer_depth3d.frame it)
  /\ (forall it,
        frames !! frameType = Some it ->
        2000 * 1000000 <= now - FrameBuffer_depth3d.timestamp it ->
        FrameBuffer_depth3d.get frames frameType now = Mat_default)
  /\ (frames !! frameType = None ->
      FrameBuffer_depth3d.get frames frameType now = Mat_default).
Proof.
  unfold FrameBuffer_depth3d.get, FrameBuffer_depth3d.update,
    FrameBuffer_depth3d.timeout_ms.
  split.
  { rewrite lookup_insert_eq. cbn [FrameBuffer_depth3d.timestamp
                                   FrameBuffer_depth3d.frame].
    assert (E : (duration_ms now now <? 2000) = true)
      by (apply age_below_timeout; lia).
    rewrite E. reflexivity. }
  split.
  { intros it Hit Hage. rewrite Hit.
    apply age_below_timeout in Hage. rewrite Hage. reflexivity. }
  split.
  { intros it Hit Hage. rewrite Hit.
    apply age_reached_timeout in Hage. rewrite Hage. reflexivity. }
  intros Hnone. rewrite Hnone. reflexivity.
Qed.

Lemma cache_get_fresh_or_absent_witness :
  let v := mkMat 1 1 [7] in
  let frames := FrameBuffer_depth3d.update ∅ 1 v 0 in
  FrameBuffer_depth3d.get frames 1 1999999999 = v
  /\ FrameBuffer_depth3d.get frames 1 2000000000 = Mat_default
  /\ FrameBuffer_depth3d.get frames 2 0 = Mat_default.
Proof.
  intros v frames.
  assert (Hit : frames !! 1 = Some (FrameBuffer_depth3d.mkTimed v [] 0))
    by (apply lookup_insert_eq).
  assert (Hno : frames !! 2 = None)
    by (unfold frames, FrameBuffer_depth3d.update;
        rewrite lookup_insert_ne by lia; apply lookup_empty).
  split; [|split].
  - apply (proj1 (proj2 (cache_get_fresh_or_absent frames 1 v 1999999999))
             _ Hit).
    vm_compute. reflexivity.
  - apply (proj1 (proj2 (proj2
             (cache_get_fresh_or_absent frames 1 v 2000000000))) _ Hit).
    vm_compute. discriminate.
  - apply (proj2 (proj2 (proj2 (cache_get_fresh_or_absent frames 2 v 0)))).
    exact Hno.
Defined.

(** The raw side of the depth3d buffer behaves the same way. *)
Lemma cache_raw_fresh_or_absent
      (frames : gmap Z FrameBuffer_depth3d.TimedFrame)
      (frameType : Z) (data : list byte) (t now : Z) :
  FrameBuffer_depth3d.getRaw
    (FrameBuffer_depth3d.updateRaw frames frameType data t) frameType now
  = if duration_ms now t <? 2000 then data else [].
Proof.
  unfold FrameBuffer_depth3d.getRaw, FrameBuffer_depth3d.updateRaw,
    FrameBuffer_depth3d.timeout_ms.
  rewrite lookup_insert_eq. reflexivity.
Qed.

(** C7. The cache keeps the last value put for a type: a second [update]
    for the same type leaves the map it would have left without the first
    one, so the first value is gone and no entry is added; [get] then
    returns the second value (while it is fresh), whatever the first one
    was. The same holds when either write is an [updateRaw]. *)
Theorem cache_last_value_wins
        (frames : gmap Z FrameBuffer_tcp.TimedFrame)
        (frames3 : gmap Z FrameBuffer_depth3d.TimedFrame)
        (frameType : Z) (A B : Mat) (rawA rawB : list byte)
        (t1 t2 now : Z) :
  let once := FrameBuffer_tcp.update frames frameType A t1 in
  let twice := FrameBuffer_tcp.update once frameType B t2 in
  twice = FrameBuffer_tcp.update frames frameType B t2
  /\ twice !! frameType = Some (FrameBuffer_tcp.mkTimed B t2)
  /\ dom twice = dom once
  /\ FrameBuffer_tcp.get twice frameType t2 = B
  /\ FrameBuffer_tcp.get twice frameType now
     = (if duration_ms now t2 <? 2000 then B else Mat_default)
  /\ FrameBuffer_depth3d.update
       (FrameBuffer_depth3d.update frames3 frameType A t1) frameType B t2
     = FrameBuffer_depth3d.update frames3 frameType B t2
  /\ FrameBuffer_depth3d.update
       (FrameBuffer_depth3d.updateRaw frames3 frameType rawA t1) frameType B t2
     = FrameBuffer_depth3d.update frames3 frameType B t2
  /\ FrameBuffer_depth3d.updateRaw
       (FrameBuffer_depth3d.update frames3 frameType A t1) frameType rawB t2
     = FrameBuffer_depth3d.updateRaw frames3 frameType rawB t2
  /\ FrameBuffer_depth3d.updateRaw
       (FrameBuffer_depth3d.updateRaw frames3 frameType rawA t1)
       frameType rawB t2
     = FrameBuffer_depth3d.updateRaw frames3 frameType rawB t2
  /\ FrameBuffer_depth3d.get
       (FrameBuffer_depth3d.update
          (FrameBuffer_depth3d.update frames3 frameType A t1) frameType B t2)
       frameType t2 = B.
Proof.
  intros once twice.
  assert (E : twice = FrameBuffer_tcp.update frames frameType B t2)
    by (apply insert_insert_eq).
  assert (Hfresh : (duration_ms t2 t2 <? 2000) = true)
    by (apply age_below_timeout; lia).
  split; [exact E|].
  split; [apply lookup_insert_eq|].
  split.
  { rewrite E. unfold once, FrameBuffer_tcp.update.
    rewrite !dom_insert_L. reflexivity. }
  split.
  { unfold FrameBuffer_tcp.get, twice, FrameBuffer_tcp.update,
      FrameBuffer_tcp.timeout_ms.
    rewrite lookup_insert_eq. cbn [FrameBuffer_tcp.timestamp FrameBuffer_tcp.frame].
    rewrite Hfresh. reflexivity. }
  split.
  { unfold FrameBuffer_tcp.get, twice, FrameBuffer_tcp.update,
      FrameBuffer_tcp.timeout_ms.
    rewrite lookup_insert_eq. reflexivity. }
  unfold FrameBuffer_depth3d.update, FrameBuffer_depth3d.updateRaw.
  rewrite !insert_insert_eq.
  repeat (split; [reflexivity|]).
  unfold FrameBuffer_depth3d.get, FrameBuffer_depth3d.timeout_ms.
  rewrite lookup_insert_eq.
  cbn [FrameBuffer_depth3d.timestamp FrameBuffer_depth3d.frame].
  rewrite Hfresh. reflexivity.
Qed.

(** ** Camera clamping *)

Lemma ltb_leb (a b : F32.float) : F32.ltb a b = true -> F32.leb a b = true.
Proof.
  unfold F32.ltb, F32.leb, SFltb, SFleb.
  destruct (SFcompare a b) as [[| |]|]; congruence.
Qed.

(** [max lo (min hi x)] lies between [lo] and [hi] for every [x],
    infinities and NaN included: a NaN compares false both times and
    leaves [hi]. *)
Lemma clamp_between (lo hi x : F32.float) :
  F32.ltb lo hi = true ->
  F32.leb lo lo = true ->
  F32.leb hi hi = true ->
  F32.leb lo (F32.max lo (F32.min hi x)) = true
  /\ F32.leb (F32.max lo (F32.min hi x)) hi = true.
Proof.
  intros Hlh Hll Hhh. unfold F32.max, F32.min.
  destruct (F32.ltb x hi) eqn:E1.
  - destruct (F32.ltb lo x) eqn:E2.
    + split; apply ltb_leb; assumption.
    + split; [assumption | apply ltb_leb; assumption].
  - rewrite Hlh. split; [apply ltb_leb; assumption | assumption].
Qed.

Lemma rotate_clamps (v : PointCloudViewer.t) (dy dp : F32.float) :
  pitch_in_range (PointCloudViewer.rotate v dy dp).
Proof.
  unfold pitch_in_range, PointCloudViewer.rotate.
  cbn [PointCloudViewer.pitch].
  apply clamp_between; vm_compute; reflexivity.
Qed.

Lemma setZoom_clamps (v : PointCloudViewer.t) (z : F32.float) :
  zoom_in_range (PointCloudViewer.setZoom v z).
Proof.
  unfold zoom_in_range, PointCloudViewer.setZoom.
  cbn [PointCloudViewer.zoom].
  apply clamp_between; vm_compute; reflexivity.
Qed.

Lemma step_keeps_range (v : PointCloudViewer.t) (c : PointCloudViewer.call) :
  camera_in_range v -> camera_in_range (PointCloudViewer.step v c).
Proof.
  intros [Hp Hz]. destruct c as [dy dp|z]; cbn [PointCloudViewer.step].
  - split; [apply rotate_clamps | exact Hz].
  - split; [exact Hp | apply setZoom_clamps].
Qed.

Lemma run_keeps_range (cs : list PointCloudViewer.call) :
  forall v, camera_in_range v -> camera_in_range (PointCloudViewer.run v cs).
Proof.
  unfold PointCloudViewer.run.
  induction cs as [|c cs IH]; intros v Hv; cbn [fold_left].
  - exact Hv.
  - apply IH, step_keeps_range, Hv.
Qed.

Lemma make_in_range (w h : Z) : camera_in_range (PointCloudViewer.make w h).
Proof. split; split; vm_compute; reflexivity. Qed.

(** Huge, infinite and NaN arguments all end at a bound. *)
Example rotate_saturates :
  let v := PointCloudViewer.make 1280 360 in
  PointCloudViewer.pitch (PointCloudViewer.rotate v (F32.of_Z 0) (F32.of_Z 1000000))
  = F32.lit 3 2
  /\ PointCloudViewer.pitch
       (PointCloudViewer.rotate v (F32.of_Z 0) (S754_infinity true))
     = F32.opp (F32.lit 3 2)
  /\ PointCloudViewer.pitch (PointCloudViewer.rotate v S754_nan S754_nan)
     = F32.lit 3 2
  /\ PointCloudViewer.zoom (PointCloudViewer.setZoom v (F32.of_Z 1000000))
     = F32.of_Z 500
  /\ PointCloudViewer.zoom (PointCloudViewer.setZoom v (F32.of_Z 25))
     = F32.of_Z 50.
Proof. repeat split; vm_compute; reflexivity. Qed.

(** C5. Every call of [rotate] leaves the pitch in [-1.5, 1.5] and every
    call of [setZoom] leaves the zoom in [50, 500], whatever the state
    and the arguments (infinities and NaN included); so every sequence of
    calls keeps a camera in range, and a camera that starts as the
    constructor leaves it is in range after any sequence of calls. *)
Theorem camera_clamped (v : PointCloudViewer.t)
        (cs : list PointCloudViewer.call) :
  (forall dy dp, pitch_in_range (PointCloudViewer.rotate v dy dp))
  /\ (forall z, zoom_in_range (PointCloudViewer.setZoom v z))
  /\ (camera_in_range v -> camera_in_range (PointCloudViewer.run v cs))
  /\ (forall w h,
        camera_in_range (PointCloudViewer.run (PointCloudViewer.make w h) cs)).
Proof.
  split; [apply rotate_clamps|]. split; [apply setZoom_clamps|].
  split; [apply run_keeps_range|].
  intros w h. apply run_keeps_range, make_in_range.
Qed.

Lemma camera_clamped_witness :
  camera_in_range
    (PointCloudViewer.run
       (PointCloudViewer.make 1280 360)
       [ PointCloudViewer.Rotate (F32.of_Z 1000000) (S754_infinity false);
         PointCloudViewer.SetZoom (F32.of_Z (-1000000));
         PointCloudViewer.Rotate S754_nan S754_nan;
         PointCloudViewer.SetZoom (S754_infinity false) ]).
Proof.
  apply (proj1 (proj2 (proj2
           (camera_clamped (PointCloudViewer.make 1280 360) _)))).
  split; split; vm_compute; reflexivity.
Defined.

(** ** Loops as folds *)

Lemma fold_left_unchanged {A B} (f : A -> B -> A) (l : list B) (a : A) :
  (forall x, In x l -> forall a', f a' x = a') -> fold_left f l a = a.
Proof.
  revert a. induction l as [|x l IH]; intros a Hf; cbn [fold_left].
  - reflexivity.
  - rewrite (Hf x (or_introl eq_refl)).
    apply IH. intros x' Hx'. apply Hf. right. exact Hx'.
Qed.

Lemma fold_left_invariant {A B} (P : A -> Prop) (f : A -> B -> A)
      (l : list B) (a : A) :
  P a -> (forall a' x, P a' -> P (f a' x)) -> P (fold_left f l a).
Proof.
  intros Ha Hf. revert a Ha.
  induction l as [|x l IH]; intros a Ha; cbn [fold_left]; auto.
Qed.

(** ** Pixels of the 2D map *)

Lemma length_set_rgb (img : list Z) (idx r g b : Z) :
  length (submarine_multistream.set_rgb img idx r g b) = length img.
Proof.
  unfold submarine_multistream.set_rgb, submarine_multistream.set_at.
  rewrite !length_insert. reflexivity.
Qed.

(** A pixel write, read back: the pixel written holds the colour, every
    other pixel of the image is as before. *)
Lemma set_rgb_same (img : list Z) (px py r g b : Z) :
  0 <= px -> 0 <= py ->
  (py * 640 + px) * 3 + 2 < Z.of_nat (length img) ->
  map_pixel (submarine_multistream.set_rgb img ((py * 640 + px) * 3) r g b)
            px py
  = (Some r, Some g, Some b).
Proof.
  intros Hx Hy Hlen.
  unfold map_pixel, submarine_multistream.set_rgb,
    submarine_multistream.set_at, submarine_multistream.width.
  set (i := Z.to_nat ((py * 640 + px) * 3)).
  replace (Z.to_nat ((py * 640 + px) * 3 + 1)) with (i + 1)%nat by lia.
  replace (Z.to_nat ((py * 640 + px) * 3 + 2)) with (i + 2)%nat by lia.
  rewrite list_lookup_insert_ne by lia.
  rewrite list_lookup_insert_ne by lia.
  rewrite list_lookup_insert_eq by lia.
  rewrite list_lookup_insert_ne by lia.
  rewrite list_lookup_insert_eq by (rewrite length_insert; lia).
  rewrite list_lookup_insert_eq by (rewrite !length_insert; lia).
  reflexivity.
Qed.

Lemma set_rgb_other (img : list Z) (px py qx qy r g b : Z) :
  0 <= px -> 0 <= py -> 0 <= qx < 640 -> 0 <= qy ->
  (px <> qx \/ py <> qy) ->
  px < 640 ->
  map_pixel (submarine_multistream.set_rgb img ((qy * 640 + qx) * 3) r g b)
            px py
  = map_pixel img px py.
Proof.
  intros Hx Hy Hqx Hqy Hne Hpx.
  unfold map_pixel, submarine_multistream.set_rgb,
    submarine_multistream.set_at, submarine_multistream.width.
  set (i := Z.to_nat ((py * 640 + px) * 3)).
  set (j := Z.to_nat ((qy * 640 + qx) * 3)).
  replace (Z.to_nat ((qy * 640 + qx) * 3 + 1)) with (j + 1)%nat by lia.
  replace (Z.to_nat ((qy * 640 + qx) * 3 + 2)) with (j + 2)%nat by lia.
  assert (Hij : (i + 3 <= j \/ j + 3 <= i)%nat) by (unfold i, j; lia).
  rewrite !list_lookup_insert_ne by lia. reflexivity.
Qed.

Lemma length_fold_set_rgb {B} (g : B -> Z) (r gr b : Z) (l : list B)
      (img : list Z) :
  length (fold_left
            (fun img' x => submarine_multistream.set_rgb img' (g x) r gr b)
            l img)
  = length img.
Proof.
  apply (fold_left_invariant (fun i => length i = length img));
    [reflexivity|].
  intros a x Ha. rewrite length_set_rgb. exact Ha.
Qed.

Lemma length_decorations (img : list Z) :
  length (submarine_multistream.center_line
            (submarine_multistream.grid_lines
               (submarine_multistream.clear img)))
  = length img.
Proof.
  unfold submarine_multistream.center_line, submarine_multistream.grid_lines,
    submarine_multistream.clear.
  rewrite length_fold_set_rgb.
  transitivity (length (map (fun _ : Z => 255) img)); [|apply length_map].
  set (img0 := map _ img).
  apply (fold_left_invariant (fun i => length i = length img0)).
  - apply (fold_left_invariant (fun i => length i = length img0));
      [reflexivity|].
    intros a y Ha. rewrite length_fold_set_rgb. exact Ha.
  - intros a x Ha. rewrite length_fold_set_rgb. exact Ha.
Qed.

(** ** Depth admission in the 2D map and the 3D cloud *)

Section Projection.
Context `{Libm}.




Lemma viewer_zero_skipped (v : PointCloudViewer.t) (depthFrame : Mat)
      (display : list PointCloudViewer.pixel) (x y : Z) :
  depth_at (mdata depthFrame) (cols depthFrame) x y = 0 ->
  PointCloudViewer.project_sample v depthFrame display x y = display.
Proof.
  intros Hz. unfold PointCloudViewer.project_sample.
  rewrite Hz. reflexivity.
Qed.


Lemma viewer_all_zero (v : PointCloudViewer.t) (depthFrame : Mat) :
  (forall x y,
      In x (strided 3 (cols depthFrame)) ->
      In y (strided 3 (rows depthFrame)) ->
      depth_at (mdata depthFrame) (cols depthFrame) x y = 0) ->
  PointCloudViewer.project v depthFrame = PointCloudViewer.background v.
Proof.
  intros Hz. unfold PointCloudViewer.project.
  apply fold_left_unchanged. intros y Hy img.
  apply fold_left_unchanged. intros x Hx img'.
  apply viewer_zero_skipped, Hz; assumption.
Qed.







(** ** 3D visibility *)

Lemma viewer_behind_skipped (v : PointCloudViewer.t) (depthFrame : Mat)
      (display : list PointCloudViewer.pixel) (x y : Z) :
  F32.leb (snd (PointCloudViewer.rotated_sample v depthFrame x y))
          (F32.lit 1 10) = true ->
  PointCloudViewer.project_sample v depthFrame display x y = display.
Proof.
  intros Hrz. unfold PointCloudViewer.project_sample.
  unfold PointCloudViewer.rotated_sample in Hrz.
  destruct (_ || _); [reflexivity|].
  rewrite Hrz. reflexivity.
Qed.

(** C8. A sample whose rotated depth coordinate [rz] (after the +2.0
    offset) is at most 0.1 leaves the canvas as it was: it is dropped
    before the division by [rz], whatever the grid, the yaw, the pitch
    and the zoom; and a grid all of whose visited samples are so placed
    renders as the bare background. *)
Theorem behind_camera_discarded
        (v : PointCloudViewer.t) (depthFrame : Mat)
        (display : list PointCloudViewer.pixel) (x y : Z) :
  (F32.leb (snd (PointCloudViewer.rotated_sample v depthFrame x y))
           (F32.lit 1 10) = true ->
   PointCloudViewer.project_sample v depthFrame display x y = display)
  /\ ((forall x' y',
          In x' (strided 3 (cols depthFrame)) ->
          In y' (strided 3 (rows depthFrame)) ->
          F32.leb (snd (PointCloudViewer.rotated_sample v depthFrame x' y'))
                  (F32.lit 1 10) = true) ->
      PointCloudViewer.project v depthFrame
      = PointCloudViewer.background v).
Proof.
  split; [apply viewer_behind_skipped|].
  intros Hall. unfold PointCloudViewer.project.
  apply fold_left_unchanged. intros y' Hy img.
  apply fold_left_unchanged. intros x' Hx img'.
  apply viewer_behind_skipped, Hall; assumption.
Qed.

End Projection.



Lemma behind_camera_discarded_witness :
  @PointCloudViewer.project_sample small_angle_libm
    (PointCloudViewer.make 1280 360) (mkMat 1 1 [5000]) [(1, 2, 3)] 0 0
  = [(1, 2, 3)].
Proof.
  apply (proj1 (@behind_camera_discarded small_angle_libm
                  (PointCloudViewer.make 1280 360) (mkMat 1 1 [5000])
                  [(1, 2, 3)] 0 0)).
  vm_compute. reflexivity.
Defined.

(** ** The accumulating cloud *)

Lemma to_int_id (z : Z) : Wire.is_int z -> Wire.to_int z = z.
Proof.
  intros Hz. rewrite <- (to_int_wrap z Hz) at 2.
  unfold Wire.to_int. rewrite Z.mod_mod by lia. reflexivity.
Qed.

Lemma skipn_combine {A B} (n : nat) :
  forall (a : list A) (b : list B),
    combine (skipn n a) (skipn n b) = skipn n (combine a b).
Proof.
  induction n as [|n IH]; intros a b.
  - reflexivity.
  - destruct a as [|x a]; [reflexivity|].
    destruct b as [|y b]; [|apply IH].
    cbn [skipn combine]. destruct (skipn n a); reflexivity.
Qed.

Lemma convert_sample_lengths
      (f : submarine_3d_viz.DepthFrame)
      (colorFrame : option submarine_3d_viz.ColorFrame)
      (acc : list submarine_3d_viz.Vec3f * list submarine_3d_viz.Vec3b)
      (x y : Z) :
  length (fst acc) = length (snd acc) ->
  length (fst (submarine_3d_viz.convert_sample f colorFrame acc x y))
  = length (snd (submarine_3d_viz.convert_sample f colorFrame acc x y)).
Proof.
  intros Hacc. unfold submarine_3d_viz.convert_sample.
  destruct acc as [newPoints newColors]. cbn [fst snd] in Hacc.
  destruct (_ =? 0); [exact Hacc|].
  destruct (_ || _); [exact Hacc|].
  cbn [fst snd]. rewrite !length_app, Hacc. reflexivity.
Qed.

(** The conversion loop pushes points and colours in pairs. *)
Lemma convert_lengths
      (f : submarine_3d_viz.DepthFrame)
      (colorFrame : option submarine_3d_viz.ColorFrame) :
  length (fst (submarine_3d_viz.convert f colorFrame))
  = length (snd (submarine_3d_viz.convert f colorFrame)).
Proof.
  unfold submarine_3d_viz.convert.
  apply (fold_left_invariant
           (fun acc => length (fst acc) = length (snd acc))); [reflexivity|].
  intros acc y Hacc.
  apply (fold_left_invariant
           (fun acc => length (fst acc) = length (snd acc))); [exact Hacc|].
  intros acc' x Hacc'. apply convert_sample_lengths, Hacc'.
Qed.

Lemma clear_keeps_cloud (m : submarine_3d_viz.Map3D) :
  cloud_ok (submarine_3d_viz.clear m).
Proof. split; [reflexivity | cbn; unfold submarine_3d_viz.maxPoints; lia]. Qed.

Lemma toggle_keeps_cloud (m : submarine_3d_viz.Map3D) :
  cloud_ok m -> cloud_ok (submarine_3d_viz.toggleAccumulation m).
Proof.
  intros Hm. unfold submarine_3d_viz.toggleAccumulation.
  cbn [submarine_3d_viz.accumulate].
  destruct (submarine_3d_viz.accumulate m); cbn [negb].
  - apply clear_keeps_cloud.
  - exact Hm.
Qed.

(** [update] in one equation: when it accumulates, both buffers lose the
    same number of entries at the front, as many as the points exceed the
    cap. The frame must leave [int excess] in range. *)
Lemma update_unfold
      (m : submarine_3d_viz.Map3D) (f : submarine_3d_viz.DepthFrame)
      (colorFrame : option submarine_3d_viz.ColorFrame) :
  Z.of_nat (length (submarine_3d_viz.accumulatedPoints m))
  <= submarine_3d_viz.maxPoints ->
  Z.of_nat (length (fst (submarine_3d_viz.convert f colorFrame)))
  + submarine_3d_viz.maxPoints <= Wire.int_max ->
  let newPoints := fst (submarine_3d_viz.convert f colorFrame) in
  let newColors := snd (submarine_3d_viz.convert f colorFrame) in
  let points := submarine_3d_viz.accumulatedPoints m ++ newPoints in
  let colors := submarine_3d_viz.accumulatedColors m ++ newColors in
  let excess := (length points - Z.to_nat submarine_3d_viz.maxPoints)%nat in
  submarine_3d_viz.update m f colorFrame
  = if submarine_3d_viz.accumulate m
       && negb (match newPoints with [] => true | _ => false end)
    then submarine_3d_viz.mkMap3D (skipn excess points) (skipn excess colors)
           (submarine_3d_viz.accumulate m)
    else m.
Proof.
  intros Hcap Hfit newPoints newColors points colors excess.
  unfold submarine_3d_viz.update.
  destruct (submarine_3d_viz.convert f colorFrame) as [nP nC] eqn:E.
  cbn [fst snd] in *. subst newPoints newColors.
  destruct (submarine_3d_viz.accumulate m && _); [|reflexivity].
  fold points. fold colors.
  unfold submarine_3d_viz.maxPoints, Wire.int_max in *.
  destruct (Z.gtb_spec (Z.of_nat (length points)) 100000) as [Hgt|Hle].
  - rewrite to_int_id
      by (unfold Wire.is_int, Wire.int_min, Wire.int_max;
          unfold points in *; rewrite length_app in *; lia).
    replace (Z.to_nat (Z.of_nat (length points) - 100000)) with excess
      by (unfold excess, submarine_3d_viz.maxPoints; lia).
    reflexivity.
  - replace excess with 0%nat
      by (unfold excess, submarine_3d_viz.maxPoints; lia).
    reflexivity.
Qed.

(** C9. [update] keeps the accumulated cloud well formed: the point and
    colour buffers have the same length, at most 100000. When points are
    appended and the cap is passed, what remains is the end of the old
    buffer followed by the new points: the entries dropped are the oldest,
    and the same number at the front of both buffers, so the pairs stay
    matched. Without accumulation, or with no new point, the buffers are
    left as they were. *)
Theorem accumulation_bounded_fifo
        (m : submarine_3d_viz.Map3D) (f : submarine_3d_viz.DepthFrame)
        (colorFrame : option submarine_3d_viz.ColorFrame) :
  cloud_ok m ->
  Z.of_nat (length (fst (submarine_3d_viz.convert f colorFrame)))
  + submarine_3d_viz.maxPoints <= Wire.int_max ->
  let newPoints := fst (submarine_3d_viz.convert f colorFrame) in
  let newColors := snd (submarine_3d_viz.convert f colorFrame) in
  let m' := submarine_3d_viz.update m f colorFrame in
  let points := submarine_3d_viz.accumulatedPoints m ++ newPoints in
  let colors := submarine_3d_viz.accumulatedColors m ++ newColors in
  let excess := (length points - Z.to_nat submarine_3d_viz.maxPoints)%nat in
  cloud_ok m'
  /\ length newPoints = length newColors
  /\ (submarine_3d_viz.accumulate m = true -> newPoints <> [] ->
      submarine_3d_viz.accumulatedPoints m' = skipn excess points
      /\ submarine_3d_viz.accumulatedColors m' = skipn excess colors
      /\ combine (submarine_3d_viz.accumulatedPoints m')
                 (submarine_3d_viz.accumulatedColors m')
         = skipn excess (combine points colors))
  /\ (submarine_3d_viz.accumulate m = false \/ newPoints = [] -> m' = m).
Proof.
  intros [Heq Hcap] Hfit newPoints newColors m' points colors excess.
  pose proof (convert_lengths f colorFrame) as Hnew.
  fold newPoints newColors in Hnew.
  assert (Hpc : length points = length colors)
    by (unfold points, colors; rewrite !length_app; lia).
  pose proof (update_unfold m f colorFrame Hcap Hfit) as Hm'.
  cbv zeta in Hm'. fold newPoints newColors in Hm'.
  fold points colors in Hm'. fold excess in Hm'. fold m' in Hm'.
  split.
  { rewrite Hm'. destruct (_ && _); [|split; assumption].
    unfold cloud_ok.
    cbn [submarine_3d_viz.accumulatedPoints submarine_3d_viz.accumulatedColors].
    rewrite !length_skipn. unfold excess, submarine_3d_viz.maxPoints.
    split; lia. }
  split; [exact Hnew|].
  split.
  { intros Hacc Hne. rewrite Hm', Hacc.
    destruct newPoints as [|p ps]; [congruence|]. cbn [negb andb].
    cbn [submarine_3d_viz.accumulatedPoints submarine_3d_viz.accumulatedColors].
    split; [reflexivity|]. split; [reflexivity|]. apply skipn_combine. }
  intros [Hacc|Hemp]; rewrite Hm'.
  - rewrite Hacc. reflexivity.
  - rewrite Hemp, andb_false_r. reflexivity.
Qed.

Lemma accumulation_bounded_fifo_witness :
  let f := submarine_3d_viz.mkDepthFrame 2 2 (F32.of_Z 1) [1000; 0; 0; 0] in
  cloud_ok (submarine_3d_viz.update submarine_3d_viz.make f None)
  /\ length (submarine_3d_viz.accumulatedPoints
               (submarine_3d_viz.update submarine_3d_viz.make f None))
     = 1%nat.
Proof.
  intros f.
  split.
  - apply (accumulation_bounded_fifo submarine_3d_viz.make f None).
    + split; [reflexivity | vm_compute; discriminate].
    + vm_compute. discriminate.
  - vm_compute. reflexivity.
Defined.

(** The 3D accumulation also skips a zero sample. *)
Lemma cloud_zero_skipped
      (f : submarine_3d_viz.DepthFrame)
      (colorFrame : option submarine_3d_viz.ColorFrame)
      (acc : list submarine_3d_viz.Vec3f * list submarine_3d_viz.Vec3b)
      (x y : Z) :
  depth_at (submarine_3d_viz.df_data f) (submarine_3d_viz.df_width f) x y = 0 ->
  submarine_3d_viz.convert_sample f colorFrame acc x y = acc.
Proof.
  intros Hz. unfold submarine_3d_viz.convert_sample.
  destruct acc as [newPoints newColors]. rewrite Hz. reflexivity.
Qed.

(** Every state reached from the constructor by [update], [clear] and
    [toggleAccumulation] has a well-formed cloud. *)
Lemma reachable_cloud_ok (cs : list submarine_3d_viz.call) :
  Forall fits_excess cs ->
  cloud_ok (submarine_3d_viz.run submarine_3d_viz.make cs).
Proof.
  unfold submarine_3d_viz.run.
  assert (Hgen : forall m, cloud_ok m -> Forall fits_excess cs ->
                           cloud_ok (fold_left submarine_3d_viz.step cs m)).
  { induction cs as [|c cs IH]; intros m Hm Hfit; cbn [fold_left]; [exact Hm|].
    inversion Hfit as [|? ? Hc Hcs]; subst.
    apply IH; [|exact Hcs].
    destruct c as [f colorFrame| |]; cbn [submarine_3d_viz.step].
    - destruct Hm as [Heq Hcap].
      pose proof (convert_lengths f colorFrame) as Hnew.
      rewrite (update_unfold m f colorFrame Hcap Hc).
      destruct (_ && _); [|split; assumption].
      unfold cloud_ok.
      cbn [submarine_3d_viz.accumulatedPoints
           submarine_3d_viz.accumulatedColors].
      rewrite !length_skipn, !length_app.
      unfold submarine_3d_viz.maxPoints. split; lia.
    - apply clear_keeps_cloud.
    - apply toggle_keeps_cloud, Hm. }
  apply Hgen.
  split; [reflexivity | vm_compute; discriminate].
Qed.

(** The cap at work: a full buffer that receives one more point drops its
    first (oldest) entry and keeps the rest in order. *)
Lemma accumulation_evicts_oldest
      (old : list submarine_3d_viz.Vec3f) (oldc : list submarine_3d_viz.Vec3b)
      (p0 : submarine_3d_viz.Vec3f) (c0 : submarine_3d_viz.Vec3b) :
  Z.of_nat (length (p0 :: old)) = submarine_3d_viz.maxPoints ->
  let f := submarine_3d_viz.mkDepthFrame 2 2 (F32.of_Z 1) [1000; 0; 0; 0] in
  let m := submarine_3d_viz.mkMap3D (p0 :: old) (c0 :: oldc) true in
  submarine_3d_viz.update m f None
  = submarine_3d_viz.mkMap3D
      (old ++ fst (submarine_3d_viz.convert f None))
      (oldc ++ snd (submarine_3d_viz.convert f None))
      true.
Proof.
  intros Hfull f m.
  assert (Hone : length (fst (submarine_3d_viz.convert f None)) = 1%nat)
    by (vm_compute; reflexivity).
  rewrite update_unfold.
  - unfold m.
    cbn [submarine_3d_viz.accumulatedPoints submarine_3d_viz.accumulatedColors
         submarine_3d_viz.accumulate].
    destruct (fst (submarine_3d_viz.convert f None)) as [|p ps] eqn:E;
      [discriminate Hone|].
    cbn [negb andb]. rewrite length_app, Hone.
    unfold submarine_3d_viz.maxPoints in *.
    replace (length (p0 :: old) + 1 - Z.to_nat 100000)%nat with 1%nat by lia.
    reflexivity.
  - unfold m. cbn [submarine_3d_viz.accumulatedPoints]. lia.
  - rewrite Hone. unfold submarine_3d_viz.maxPoints, Wire.int_max. lia.
Qed.

(* ===================================================================== *)
(** * Part III: further properties of the cited files                     *)
(* ===================================================================== *)

(** ** Datagram senders and receivers around the claims *)

Lemma datagram8_fields (frame_id declared : Z) (payload : list byte) :
  Wire.is_int frame_id -> Wire.is_int declared ->
  let d := datagram8 frame_id declared payload in
  int_at d 0 = frame_id /\ int_at d 4 = declared
  /\ skipn 8 d = payload /\ length d = (8 + length payload)%nat.
Proof.
  intros Hi Hd d. unfold d, datagram8.
  split; [apply int_at_store, Hi|].
  split.
  { change 4%nat with (length (Wire.store_int frame_id) + 0)%nat.
    rewrite int_at_app_r. apply int_at_store, Hd. }
  split; [reflexivity|].
  rewrite !length_app, !length_store_int. lia.
Qed.

(** [receivePacket] on a well-formed 12-byte-header datagram that fits
    the buffer: the size field only has to be in range. *)
Lemma receivePacket_of_datagram
      (frame_id frame_type declared : Z) (payload : list byte) :
  Wire.is_int frame_id -> Wire.is_int frame_type ->
  0 < declared <= 5000000 ->
  12 + Z.of_nat (length payload) <= submarine_receiver_depth3d.bufferSize ->
  submarine_receiver_depth3d.receivePacket
    (Some (datagram frame_id frame_type declared payload))
  = Ok (payload, frame_id, frame_type).
Proof.
  intros Hid Hty Hde Hfit.
  assert (Hde' : Wire.is_int declared) by (int_bounds; lia).
  destruct (datagram_fields frame_id frame_type declared payload Hid Hty Hde')
    as (F0 & F4 & F8 & Fp & Fl).
  pose proof (receivePacket_long
                (datagram frame_id frame_type declared payload)) as Hr.
  cbv zeta in Hr.
  unfold submarine_receiver_depth3d.bufferSize in *.
  rewrite firstn_all2 in Hr by (rewrite Fl; lia).
  rewrite Hr by lia. rewrite F0, F4, F8, Fp.
  destruct (Z.leb_spec declared 0); [lia|].
  destruct (Z.gtb_spec declared 5000000); [lia|]. reflexivity.
Qed.

(** X1. A colour frame sent by [sendFrame] of color_sender.cpp (8-byte
    header) and received intact by [receiveFrame] of color_receiver.cpp
    comes back as the decoding of its encoding, with its frame id; the
    unit is refused when the encoder produced no byte or the decoder
    produces an empty image. *)
Theorem color_frame_roundtrip `{Encoder} `{Codec}
        (frame : Mat) (frame_id : Z) :
  Mat_empty frame = false ->
  Wire.is_int frame_id ->
  8 + Z.of_nat (length (imencode 85 frame)) <= color_receiver.bufferSize ->
  exists packet,
    color_sender.sendFrame frame frame_id = Some packet
    /\ color_receiver.receiveFrame (Some packet)
       = match imencode 85 frame with
         | [] => Reject
         | jpeg =>
             if Mat_empty (imdecode jpeg) then Reject
             else Ok (imdecode jpeg, frame_id)
         end.
Proof.
  intros Hne Hid Hfit.
  set (jpeg := imencode 85 frame) in *.
  exists (datagram8 frame_id (Z.of_nat (length jpeg)) jpeg).
  split.
  { unfold color_sender.sendFrame. fold jpeg. rewrite Hne. reflexivity. }
  unfold color_receiver.bufferSize in Hfit.
  assert (Hlen : Wire.is_int (Z.of_nat (length jpeg))) by (int_bounds; lia).
  destruct (datagram8_fields frame_id _ jpeg Hid Hlen) as (F0 & F4 & Fp & Fl).
  pose proof (color_receiveFrame_long
                (datagram8 frame_id (Z.of_nat (length jpeg)) jpeg)) as Hr.
  cbv zeta in Hr.
  rewrite firstn_all2 in Hr
    by (rewrite Fl; unfold color_receiver.bufferSize; lia).
  rewrite Hr by (rewrite Fl; lia). rewrite F0, F4, Fp.
  destruct jpeg as [|b jpeg'] eqn:E; [reflexivity|].
  destruct (Z.leb_spec (Z.of_nat (length (b :: jpeg'))) 0);
    [cbn [length] in *; lia|].
  destruct (Z.gtb_spec (Z.of_nat (length (b :: jpeg'))) 2000000); [lia|].
  reflexivity.
Qed.

Lemma color_frame_roundtrip_witness :
  exists packet,
    @color_sender.sendFrame raw_encoder (mkMat 1 3 [10; 20; 30]) 7
    = Some packet
    /\ @color_receiver.receiveFrame raw_codec (Some packet)
       = Ok (mkMat 1 3 [10; 20; 30], 7).
Proof.
  apply (@color_frame_roundtrip raw_encoder raw_codec
           (mkMat 1 3 [10; 20; 30]) 7).
  - reflexivity.
  - vm_compute. split; discriminate.
  - vm_compute. discriminate.
Defined.

(** ** The raw-depth datagram receiver in general *)

Lemma raw_load_int (got : list byte) (off : nat) :
  Z.of_nat off + 4 <= submarine_receiver_raw.maxSize ->
  submarine_receiver_raw.load_int got off = Ok (int_at got off).
Proof.
  intros Hoff. unfold submarine_receiver_raw.load_int, int_at,
    submarine_receiver_raw.tempBuf_at.
  unfold submarine_receiver_raw.maxSize in *.
  repeat match goal with
         | |- context [Z.of_nat ?i <? 2000000] =>
             destruct (Z.ltb_spec (Z.of_nat i) 2000000); [|lia]
         end.
  reflexivity.
Qed.

Lemma raw_slice_inside (got : list byte) (k from : nat) :
  Z.of_nat from + Z.of_nat k <= submarine_receiver_raw.maxSize ->
  omapM (submarine_receiver_raw.tempBuf_at got) (seq from k)
  = Ok (map (fun i => nth i got x00) (seq from k)).
Proof.
  unfold submarine_receiver_raw.maxSize.
  revert from. induction k as [|k IH]; intros from Hle; [reflexivity|].
  cbn [seq omapM map]. unfold submarine_receiver_raw.tempBuf_at at 1.
  unfold submarine_receiver_raw.maxSize.
  destruct (Z.ltb_spec (Z.of_nat from) 2000000); [|lia].
  cbn [obind]. rewrite IH by lia. reflexivity.
Qed.

Lemma raw_slice_outside (got : list byte) (k from : nat) :
  Z.of_nat from <= submarine_receiver_raw.maxSize ->
  submarine_receiver_raw.maxSize < Z.of_nat from + Z.of_nat k ->
  omapM (submarine_receiver_raw.tempBuf_at got) (seq from k)
  = Fault OutOfBounds.
Proof.
  unfold submarine_receiver_raw.maxSize.
  revert from. induction k as [|k IH]; intros from Hle Hgt; [lia|].
  cbn [seq omapM]. unfold submarine_receiver_raw.tempBuf_at at 1.
  unfold submarine_receiver_raw.maxSize.
  destruct (Z.ltb_spec (Z.of_nat from) 2000000); [|reflexivity].
  cbn [obind]. rewrite IH by lia. reflexivity.
Qed.

Lemma raw_receivePacket_long (d : list byte) :
  let got := firstn (Z.to_nat submarine_receiver_raw.maxSize) d in
  let data_size := int_at got 4 in
  (8 <= length got)%nat ->
  submarine_receiver_raw.receivePacket (Some d)
  = if (data_size <=? 0) || (data_size >? 2000000) then Reject
    else if 8 + data_size <=? submarine_receiver_raw.maxSize
         then Ok (map (fun i => nth i got x00) (seq 8 (Z.to_nat data_size)),
                  int_at got 0)
         else Fault OutOfBounds.
Proof.
  intros got data_size Hl. unfold submarine_receiver_raw.receivePacket.
  rewrite recvfrom_some. fold got.
  destruct (Z.ltb_spec (Z.of_nat (length got)) 8); [lia|].
  rewrite !raw_load_int by (unfold submarine_receiver_raw.maxSize; lia).
  cbn [obind]. fold data_size.
  destruct (Z.leb_spec data_size 0); [reflexivity|].
  destruct (Z.gtb_spec data_size 2000000); [reflexivity|].
  cbn [orb].
  destruct (Z.leb_spec (8 + data_size) submarine_receiver_raw.maxSize).
  - rewrite raw_slice_inside by lia. reflexivity.
  - rewrite raw_slice_outside
      by (unfold submarine_receiver_raw.maxSize in *; lia).
    reflexivity.
Qed.

Lemma map_nth_seq_app {A} (d : A) (l : list A) :
  forall pre,
    map (fun i => nth i (pre ++ l) d) (seq (length pre) (length l)) = l.
Proof.
  induction l as [|a l IH]; intros pre; [reflexivity|].
  cbn [length seq map]. rewrite nth_middle. f_equal.
  replace (pre ++ a :: l) with ((pre ++ [a]) ++ l)
    by (rewrite <- app_assoc; reflexivity).
  replace (S (length pre)) with (length (pre ++ [a]))
    by (rewrite length_app; cbn; lia).
  apply IH.
Qed.

(** X2. A raw depth payload sent by [sendRawData] of
    submarine_sender_raw.cpp and received intact by [receivePacket] of
    submarine_receiver_raw.cpp comes back byte for byte with its frame
    id, for every non-empty payload of at most 1999992 bytes. *)
Theorem raw_depth_roundtrip (data : list byte) (frame_id : Z) :
  data <> [] ->
  Wire.is_int frame_id ->
  8 + Z.of_nat (length data) <= submarine_receiver_raw.maxSize ->
  exists packet,
    submarine_sender_raw.sendRawData data frame_id = Some packet
    /\ submarine_receiver_raw.receivePacket (Some packet)
       = Ok (data, frame_id).
Proof.
  intros Hne Hid Hfit.
  exists (datagram8 frame_id (Z.of_nat (length data)) data).
  split.
  { unfold submarine_sender_raw.sendRawData, datagram8.
    destruct data; [congruence | reflexivity]. }
  unfold submarine_receiver_raw.maxSize in Hfit.
  assert (Hlen : Wire.is_int (Z.of_nat (length data))) by (int_bounds; lia).
  destruct (datagram8_fields frame_id _ data Hid Hlen) as (F0 & F4 & Fp & Fl).
  pose proof (raw_receivePacket_long
                (datagram8 frame_id (Z.of_nat (length data)) data)) as Hr.
  cbv zeta in Hr.
  rewrite firstn_all2 in Hr
    by (rewrite Fl; unfold submarine_receiver_raw.maxSize; lia).
  rewrite Hr by (rewrite Fl; lia). rewrite F0, F4.
  assert (Hpos : (0 < length data)%nat)
    by (destruct data; [congruence | cbn; lia]).
  destruct (Z.leb_spec (Z.of_nat (length data)) 0); [lia|].
  destruct (Z.gtb_spec (Z.of_nat (length data)) 2000000); [lia|].
  cbn [orb].
  destruct (Z.leb_spec (8 + Z.of_nat (length data))
                       submarine_receiver_raw.maxSize);
    [|unfold submarine_receiver_raw.maxSize in *; lia].
  rewrite Nat2Z.id. f_equal. f_equal.
  unfold datagram8. rewrite app_assoc.
  apply (map_nth_seq_app x00 data
           (Wire.store_int frame_id
            ++ Wire.store_int (Z.of_nat (length data)))).
Qed.

Lemma raw_depth_roundtrip_witness :
  exists packet,
    submarine_sender_raw.sendRawData [x01; x02; x03] 9 = Some packet
    /\ submarine_receiver_raw.receivePacket (Some packet)
       = Ok ([x01; x02; x03], 9).
Proof.
  apply (raw_depth_roundtrip [x01; x02; x03] 9).
  - discriminate.
  - vm_compute. split; discriminate.
  - vm_compute. discriminate.
Defined.

Lemma raw_receivePacket_short (d : list byte) :
  (length (firstn (Z.to_nat submarine_receiver_raw.maxSize) d) < 8)%nat ->
  submarine_receiver_raw.receivePacket (Some d) = Reject.
Proof.
  intros Hs. unfold submarine_receiver_raw.receivePacket.
  rewrite recvfrom_some.
  destruct (Z.ltb_spec
              (Z.of_nat (length (firstn (Z.to_nat submarine_receiver_raw.maxSize) d))) 8);
    [reflexivity | lia].
Qed.

Lemma nth_map_seq (got : list byte) (from k i : nat) :
  (i < k)%nat ->
  nth i (map (fun j => nth j got x00) (seq from k)) x00
  = nth (from + i) got x00.
Proof.
  intros Hi.
  rewrite (nth_indep _ x00 (nth 0 got x00))
    by (rewrite length_map, length_seq; exact Hi).
  rewrite (map_nth (fun i => nth i got x00)).
  rewrite seq_nth by exact Hi. reflexivity.
Qed.

Lemma raw_ok_inv (d got buffer : list byte) (frame_id : Z) :
  firstn (Z.to_nat submarine_receiver_raw.maxSize) d = got ->
  submarine_receiver_raw.receivePacket (Some d) = Ok (buffer, frame_id) ->
  0 < int_at got 4 <= 2000000
  /\ buffer = map (fun i => nth i got x00) (seq 8 (Z.to_nat (int_at got 4)))
  /\ frame_id = int_at got 0.
Proof.
  intros Hgot Hok.
  destruct (Nat.lt_ge_cases (length got) 8) as [Hlt|Hge].
  { exfalso. rewrite <- Hgot in Hlt.
    rewrite raw_receivePacket_short in Hok by exact Hlt. discriminate. }
  pose proof (raw_receivePacket_long d) as Hr. cbv zeta in Hr.
  rewrite Hgot in Hr. rewrite Hr in Hok by exact Hge. clear Hr.
  destruct (Z.leb_spec (int_at got 4) 0); [discriminate|].
  destruct (Z.gtb_spec (int_at got 4) 2000000); [discriminate|].
  cbn [orb] in Hok.
  destruct (8 + int_at got 4 <=? submarine_receiver_raw.maxSize);
    [|discriminate].
  injection Hok as Hb Hf.
  split; [lia|]. split; congruence.
Qed.

(** X3. Whenever [receivePacket] of submarine_receiver_raw.cpp accepts a
    datagram, the buffer it returns has exactly the declared number of
    bytes, whatever was received: byte [i] is byte [8 + i] of the
    datagram where the datagram has one, and zero beyond its end. *)
Theorem raw_receivePacket_buffer_shape
        (d buffer : list byte) (frame_id : Z) :
  submarine_receiver_raw.receivePacket (Some d) = Ok (buffer, frame_id) ->
  let got := firstn (Z.to_nat submarine_receiver_raw.maxSize) d in
  Z.of_nat (length buffer) = int_at got 4
  /\ frame_id = int_at got 0
  /\ forall i, (i < length buffer)%nat ->
               nth i buffer x00 = nth (8 + i) got x00.
Proof.
  intros Hok got.
  destruct (raw_ok_inv d got buffer frame_id eq_refl Hok) as (Hr & Hb & Hf).
  clearbody got. subst buffer frame_id.
  rewrite length_map, length_seq.
  split; [lia|]. split; [reflexivity|].
  intros i Hi. apply nth_map_seq. exact Hi.
Qed.

Lemma raw_receivePacket_buffer_shape_witness :
  let got := firstn (Z.to_nat submarine_receiver_raw.maxSize)
                    (datagram8 7 5 [x41; x42]) in
  Z.of_nat (length [x41; x42; x00; x00; x00]) = int_at got 4
  /\ 7 = int_at got 0
  /\ forall i, (i < length [x41; x42; x00; x00; x00])%nat ->
               nth i [x41; x42; x00; x00; x00] x00 = nth (8 + i) got x00.
Proof.
  apply (raw_receivePacket_buffer_shape
           (datagram8 7 5 [x41; x42]) [x41; x42; x00; x00; x00] 7).
  vm_compute. reflexivity.
Defined.

(** X4. [receivePacket] of submarine_receiver_raw.cpp reads past the end
    of its 2000000-byte vector exactly on the declared sizes 1999993 to
    2000000, which pass its range check: for these the slice
    [begin() + 8, begin() + 8 + data_size) ends beyond the vector. *)
Theorem raw_receivePacket_out_of_bounds (d : list byte) :
  let got := firstn (Z.to_nat submarine_receiver_raw.maxSize) d in
  (8 <= length got)%nat ->
  (submarine_receiver_raw.receivePacket (Some d) = Fault OutOfBounds
   <-> 1999992 < int_at got 4 <= 2000000).
Proof.
  intros got Hge. rewrite raw_receivePacket_long by exact Hge. fold got.
  unfold submarine_receiver_raw.maxSize.
  destruct (Z.leb_spec (int_at got 4) 0);
    [split; [discriminate | lia]|].
  destruct (Z.gtb_spec (int_at got 4) 2000000);
    [split; [discriminate | lia]|].
  cbn [orb].
  destruct (Z.leb_spec (8 + int_at got 4) 2000000);
    split; try discriminate; try lia; reflexivity.
Qed.

Lemma raw_receivePacket_out_of_bounds_witness :
  submarine_receiver_raw.receivePacket
    (Some (datagram8 7 1999993 [x41]))
  = Fault OutOfBounds.
Proof.
  apply (raw_receivePacket_out_of_bounds (datagram8 7 1999993 [x41])).
  - vm_compute. lia.
  - vm_compute. split; [reflexivity | discriminate].
Defined.

(** ** The receive loops and their caches *)

Lemma validated_empty : validated_cache ∅.
Proof. intros k it Hk. rewrite lookup_empty in Hk. discriminate. Qed.

Lemma typed_empty : typed_cache ∅.
Proof. intros k it Hk. rewrite lookup_empty in Hk. discriminate. Qed.

Section ReceiveLoops.
Context `{Codec}.

(** What [receiveFrame] of submarine_receiver.cpp hands to its caller. *)
Lemma receiveFrame_ok_inv (ev : option (list byte)) (frame : Mat) (ty : Z) :
  submarine_receiver.receiveFrame ev = Ok (frame, ty) ->
  0 <= ty <= 3 /\ valid_image frame.
Proof.
  destruct ev as [d|]; [|discriminate].
  destruct (Nat.lt_ge_cases
              (length (firstn (Z.to_nat submarine_receiver.bufferSize) d)) 12)
    as [Hlt|Hge].
  { rewrite receiveFrame_short by exact Hlt. discriminate. }
  rewrite receiveFrame_long by exact Hge.
  set (got := firstn (Z.to_nat submarine_receiver.bufferSize) d).
  set (decoded := imdecode (skipn 12 got)).
  destruct (Z.ltb_spec (int_at got 4) 0); [discriminate|].
  destruct (Z.gtb_spec (int_at got 4) 3); [discriminate|].
  cbn [orb].
  destruct (Mat_empty decoded) eqn:Hemp; [discriminate|].
  destruct (Z.leb_spec (cols decoded) 0); [discriminate|].
  destruct (Z.leb_spec (rows decoded) 0); [discriminate|].
  destruct (Z.gtb_spec (cols decoded) 2000); [discriminate|].
  destruct (Z.gtb_spec (rows decoded) 2000); [discriminate|].
  cbn [orb]. intros E. inversion E; subst.
  unfold valid_image. repeat split; (assumption || lia).
Qed.

Lemma submarine_receive_step_keeps (st : submarine_receiver_main.state)
      (ev : option (list byte)) :
  validated_cache (submarine_receiver_main.frameBuffer st) ->
  validated_cache
    (submarine_receiver_main.frameBuffer
       (submarine_receiver_main.receive_step st ev)).
Proof.
  intros Hst. unfold submarine_receiver_main.receive_step.
  destruct (submarine_receiver.receiveFrame ev) as [[frame ty]| |f] eqn:E;
    try exact Hst.
  apply receiveFrame_ok_inv in E. destruct E as [Hty Hv].
  cbn [submarine_receiver_main.frameBuffer].
  unfold submarine_receiver_main.update.
  intros k it Hk. rewrite lookup_insert in Hk.
  case_decide.
  - inversion Hk; subst. split; assumption.
  - apply (Hst k it Hk).
Qed.

(** X5. Whatever datagrams arrive, the cache of submarine_receiver.cpp
    only ever holds validated frames: every entry sits under a frame type
    in 0..3 and is a non-empty image whose width and height are between 1
    and 2000. *)
Theorem submarine_receiver_cache_validated
        (evs : list (option (list byte))) (st : submarine_receiver_main.state) :
  validated_cache (submarine_receiver_main.frameBuffer st) ->
  validated_cache
    (submarine_receiver_main.frameBuffer
       (submarine_receiver_main.receive_all st evs)).
Proof.
  unfold submarine_receiver_main.receive_all.
  revert st. induction evs as [|ev evs IH]; intros st Hst; cbn [fold_left].
  - exact Hst.
  - apply IH, submarine_receive_step_keeps, Hst.
Qed.

(** X6. The cache of submarine_receiver.cpp has no time-out: after any
    further datagrams that are refused or carry other frame types, [get]
    still returns the frame of the last accepted datagram of its type. *)
Theorem submarine_receiver_last_frame_stays
        (st : submarine_receiver_main.state) (ev : option (list byte))
        (frame : Mat) (ty : Z) (later : list (option (list byte))) :
  submarine_receiver.receiveFrame ev = Ok (frame, ty) ->
  Forall (fun e => forall f, submarine_receiver.receiveFrame e <> Ok (f, ty))
         later ->
  submarine_receiver_main.get
    (submarine_receiver_main.frameBuffer
       (submarine_receiver_main.receive_all st (ev :: later)))
    ty
  = frame.
Proof.
  intros Hev Hlater.
  unfold submarine_receiver_main.receive_all. cbn [fold_left].
  set (st1 := submarine_receiver_main.receive_step st ev).
  assert (H1 : submarine_receiver_main.get
                 (submarine_receiver_main.frameBuffer st1) ty = frame).
  { unfold st1, submarine_receiver_main.receive_step. rewrite Hev.
    cbn [submarine_receiver_main.frameBuffer].
    unfold submarine_receiver_main.get, submarine_receiver_main.update.
    rewrite lookup_insert_eq. reflexivity. }
  clearbody st1. revert st1 H1.
  induction Hlater as [|e later He Hl IH]; intros st1 H1; cbn [fold_left].
  - exact H1.
  - apply IH. unfold submarine_receiver_main.receive_step.
    destruct (submarine_receiver.receiveFrame e) as [[f t]| |ff] eqn:E;
      try exact H1.
    cbn [submarine_receiver_main.frameBuffer].
    unfold submarine_receiver_main.get, submarine_receiver_main.update in *.
    rewrite lookup_insert_ne; [exact H1|].
    intros ->. apply (He f). reflexivity.
Qed.

(** [on_packet] of the depth3d loop keeps the shape of the cache. *)
Lemma depth3d_on_packet_keeps (st : depth3d_main.state)
      (r : outcome (list byte * Z * Z)) (now : Z) :
  typed_cache (depth3d_main.frameBuffer st) ->
  typed_cache (depth3d_main.frameBuffer (depth3d_main.on_packet st r now)).
Proof.
  intros Hst. unfold depth3d_main.on_packet.
  destruct r as [[[buffer frame_id] frame_type]| |f]; try exact Hst.
  unfold submarine_receiver_depth3d.FRAME_DEPTH_VIS,
    submarine_receiver_depth3d.FRAME_2D_MAP,
    submarine_receiver_depth3d.FRAME_3D_DEPTH.
  destruct (Z.eqb_spec frame_type 1) as [E1|N1];
    [|destruct (Z.eqb_spec frame_type 2) as [E2|N2]]; cbn [orb].
  1,2: destruct (Mat_empty (imdecode buffer)) eqn:Hemp; cbn [negb];
       [exact Hst|];
       cbn [depth3d_main.frameBuffer]; unfold FrameBuffer_depth3d.update;
       intros k it Hk; rewrite lookup_insert in Hk; case_decide;
       [inversion Hk; subst; left; repeat split; auto; lia
       |apply (Hst k it Hk)].
  destruct (Z.eqb_spec frame_type 3) as [E3|N3]; [|exact Hst].
  cbn [depth3d_main.frameBuffer]. unfold FrameBuffer_depth3d.updateRaw.
  intros k it Hk. rewrite lookup_insert in Hk. case_decide.
  - inversion Hk; subst. right. split; [reflexivity|reflexivity].
  - apply (Hst k it Hk).
Qed.

(** X7. Whatever datagrams arrive, the cache of the depth3d receiver only
    holds the three known frame types: under types 1 and 2 a non-empty
    decoded image and no raw bytes, under type 3 raw bytes and no image.
    A datagram of any other type adds nothing. *)
Theorem depth3d_cache_typed
        (evs : list (option (list byte) * Z)) (st : depth3d_main.state) :
  typed_cache (depth3d_main.frameBuffer st) ->
  typed_cache
    (depth3d_main.frameBuffer (depth3d_main.receive_all st evs)).
Proof.
  unfold depth3d_main.receive_all.
  revert st. induction evs as [|[ev now] evs IH]; intros st Hst;
    cbn [fold_left fst snd].
  - exact Hst.
  - apply IH. unfold depth3d_main.receive_step.
    apply depth3d_on_packet_keeps, Hst.
Qed.

(** X8. A datagram whose frame type is not 1, 2 or 3 passes
    [receivePacket] and is then dropped by the loop of
    submarine_receiver_depth3d.cpp: the cache and the frame counter are
    left as they were. *)
Theorem depth3d_unknown_type_dropped
        (st : depth3d_main.state) (frame_id frame_type declared now : Z)
        (payload : list byte) :
  Wire.is_int frame_id -> Wire.is_int frame_type ->
  0 < declared <= 5000000 ->
  12 + Z.of_nat (length payload) <= submarine_receiver_depth3d.bufferSize ->
  frame_type <> 1 -> frame_type <> 2 -> frame_type <> 3 ->
  submarine_receiver_depth3d.receivePacket
    (Some (datagram frame_id frame_type declared payload))
  = Ok (payload, frame_id, frame_type)
  /\ depth3d_main.receive_step st
       (Some (datagram frame_id frame_type declared payload)) now
     = st.
Proof.
  intros Hid Hty Hde Hfit N1 N2 N3.
  pose proof (receivePacket_of_datagram frame_id frame_type declared payload
                Hid Hty Hde Hfit) as Hr.
  split; [exact Hr|].
  unfold depth3d_main.receive_step. rewrite Hr.
  unfold depth3d_main.on_packet,
    submarine_receiver_depth3d.FRAME_DEPTH_VIS,
    submarine_receiver_depth3d.FRAME_2D_MAP,
    submarine_receiver_depth3d.FRAME_3D_DEPTH.
  destruct (Z.eqb_spec frame_type 1); [contradiction|].
  destruct (Z.eqb_spec frame_type 2); [contradiction|].
  destruct (Z.eqb_spec frame_type 3); [contradiction|].
  reflexivity.
Qed.

End ReceiveLoops.

Lemma submarine_receiver_cache_validated_witness :
  validated_cache
    (submarine_receiver_main.frameBuffer
       (@submarine_receiver_main.receive_all raw_codec
          (submarine_receiver_main.mkState ∅ 0)
          [Some (datagram 1 2 3 [x41; x42; x43]); None; Some [x00]])).
Proof.
  apply (@submarine_receiver_cache_validated raw_codec).
  exact validated_empty.
Defined.

Lemma submarine_receiver_last_frame_stays_witness :
  submarine_receiver_main.get
    (submarine_receiver_main.frameBuffer
       (@submarine_receiver_main.receive_all raw_codec
          (submarine_receiver_main.mkState ∅ 0)
          [Some (datagram 1 2 3 [x41; x42; x43]); None; Some [x00]]))
    2
  = mkMat 1 3 [65; 66; 67].
Proof.
  apply (@submarine_receiver_last_frame_stays raw_codec).
  - vm_compute. reflexivity.
  - repeat constructor; intros f; vm_compute; discriminate.
Defined.

Lemma depth3d_cache_typed_witness :
  typed_cache
    (depth3d_main.frameBuffer
       (@depth3d_main.receive_all raw_codec
          (depth3d_main.mkState ∅ 0)
          [(Some (datagram 1 3 3 [x41; x42; x43]), 10); (None, 20)])).
Proof.
  apply (@depth3d_cache_typed raw_codec).
  exact typed_empty.
Defined.

Lemma depth3d_unknown_type_dropped_witness :
  submarine_receiver_depth3d.receivePacket
    (Some (datagram 1 99 3 [x41; x42; x43]))
  = Ok ([x41; x42; x43], 1, 99)
  /\ @depth3d_main.receive_step raw_codec (depth3d_main.mkState ∅ 0)
       (Some (datagram 1 99 3 [x41; x42; x43])) 10
     = depth3d_main.mkState ∅ 0.
Proof.
  apply (@depth3d_unknown_type_dropped raw_codec
           (depth3d_main.mkState ∅ 0) 1 99 3 10 [x41; x42; x43]);
    try (vm_compute; split; discriminate); try lia.
  vm_compute. discriminate.
Defined.

(** ** Cache entries over time *)

(** X9. In the cache of the depth3d receiver an expired entry stays
    expired: once the clock is 2000 ms past the time stamp, [get] and
    [getRaw] return the empty result at every later reading of the
    (monotonic) clock, until the type is written again. *)
Theorem cache_expiry_is_permanent
        (frames : gmap Z FrameBuffer_depth3d.TimedFrame)
        (frameType : Z) (it : FrameBuffer_depth3d.TimedFrame)
        (now later : Z) :
  frames !! frameType = Some it ->
  2000 * 1000000 <= now - FrameBuffer_depth3d.timestamp it ->
  now <= later ->
  FrameBuffer_depth3d.get frames frameType later = Mat_default
  /\ FrameBuffer_depth3d.getRaw frames frameType later = [].
Proof.
  intros Hit Hage Hlater.
  unfold FrameBuffer_depth3d.get, FrameBuffer_depth3d.getRaw,
    FrameBuffer_depth3d.timeout_ms.
  rewrite Hit.
  assert (E : (duration_ms later (FrameBuffer_depth3d.timestamp it) <? 2000)
              = false) by (apply age_reached_timeout; lia).
  rewrite E. split; reflexivity.
Qed.

Lemma cache_expiry_is_permanent_witness :
  let frames := FrameBuffer_depth3d.update ∅ 1 (mkMat 1 1 [7]) 0 in
  FrameBuffer_depth3d.get frames 1 5000000000 = Mat_default
  /\ FrameBuffer_depth3d.getRaw frames 1 5000000000 = [].
Proof.
  intros frames.
  apply (cache_expiry_is_permanent frames 1
           (FrameBuffer_depth3d.mkTimed (mkMat 1 1 [7]) [] 0)
           2000000000 5000000000).
  - apply lookup_insert_eq.
  - vm_compute. discriminate.
  - lia.
Defined.

(** X10. In the cache of the depth3d receiver the two kinds of write
    replace the whole entry: after [update] the raw bytes of that type
    are gone, after [updateRaw] its image is gone; entries of other types
    are not touched by either. *)
Theorem cache_writes_replace_whole_entry
        (frames : gmap Z FrameBuffer_depth3d.TimedFrame)
        (frameType other : Z) (v : Mat) (data : list byte) (t now : Z) :
  FrameBuffer_depth3d.getRaw
    (FrameBuffer_depth3d.update frames frameType v t) frameType now = []
  /\ FrameBuffer_depth3d.get
       (FrameBuffer_depth3d.updateRaw frames frameType data t) frameType now
     = Mat_default
  /\ (other <> frameType ->
      FrameBuffer_depth3d.get
        (FrameBuffer_depth3d.update frames frameType v t) other now
      = FrameBuffer_depth3d.get frames other now
      /\ FrameBuffer_depth3d.getRaw
           (FrameBuffer_depth3d.update frames frameType v t) other now
         = FrameBuffer_depth3d.getRaw frames other now
      /\ FrameBuffer_depth3d.get
           (FrameBuffer_depth3d.updateRaw frames frameType data t) other now
         = FrameBuffer_depth3d.get frames other now
      /\ FrameBuffer_depth3d.getRaw
           (FrameBuffer_depth3d.updateRaw frames frameType data t) other now
         = FrameBuffer_depth3d.getRaw frames other now).
Proof.
  unfold FrameBuffer_depth3d.get, FrameBuffer_depth3d.getRaw,
    FrameBuffer_depth3d.update, FrameBuffer_depth3d.updateRaw.
  split; [|split].
  - rewrite lookup_insert_eq. cbn [FrameBuffer_depth3d.raw_data].
    destruct (_ <? _); reflexivity.
  - rewrite lookup_insert_eq. cbn [FrameBuffer_depth3d.frame].
    destruct (_ <? _); reflexivity.
  - intros Hne. rewrite !lookup_insert_ne by congruence.
    repeat split; reflexivity.
Qed.

Lemma cache_writes_replace_whole_entry_witness :
  let frames := FrameBuffer_depth3d.updateRaw ∅ 3 [x41] 0 in
  FrameBuffer_depth3d.getRaw
    (FrameBuffer_depth3d.update frames 1 (mkMat 1 1 [7]) 5) 3 10
  = [x41].
Proof.
  intros frames.
  destruct (cache_writes_replace_whole_entry frames 1 3 (mkMat 1 1 [7]) [] 5 10)
    as (_ & _ & W).
  destruct (W ltac:(lia)) as (_ & W2 & _).
  rewrite W2. vm_compute. reflexivity.
Defined.

(** ** End to end through the depth3d datagram path *)

Section Depth3dEndToEnd.
Context `{Encoder} `{Codec}.

(** X11. Raw depth bytes sent with [sendRawData] under type 3 and taken
    in by one pass of the receive loop are what [getRaw] returns for the
    next 2000 ms, byte for byte; [get] of that type stays empty. *)
Theorem depth3d_raw_end_to_end
        (st : depth3d_main.state) (data : list byte)
        (frame_id now later : Z) :
  data <> [] ->
  Wire.is_int frame_id ->
  12 + Z.of_nat (length data) <= submarine_receiver_depth3d.bufferSize ->
  later - now < 2000 * 1000000 ->
  exists packet,
    submarine_sender_depth3d.sendRawData data frame_id
      submarine_receiver_depth3d.FRAME_3D_DEPTH = Some packet
    /\ let st' := depth3d_main.receive_step st (Some packet) now in
       FrameBuffer_depth3d.getRaw (depth3d_main.frameBuffer st')
         submarine_receiver_depth3d.FRAME_3D_DEPTH later = data
       /\ FrameBuffer_depth3d.get (depth3d_main.frameBuffer st')
            submarine_receiver_depth3d.FRAME_3D_DEPTH later = Mat_default
       /\ depth3d_main.frameCount st' = depth3d_main.frameCount st.
Proof.
  intros Hne Hid Hfit Hfresh.
  exists (datagram frame_id 3 (Z.of_nat (length data)) data).
  split.
  { unfold submarine_sender_depth3d.sendRawData, datagram.
    destruct data; [congruence | reflexivity]. }
  assert (Hpos : (0 < length data)%nat)
    by (destruct data; [congruence | cbn; lia]).
  unfold submarine_receiver_depth3d.bufferSize in Hfit.
  cbv zeta. unfold depth3d_main.receive_step.
  rewrite receivePacket_of_datagram
    by (try (int_bounds; lia);
        unfold submarine_receiver_depth3d.bufferSize; lia).
  unfold depth3d_main.on_packet,
    submarine_receiver_depth3d.FRAME_DEPTH_VIS,
    submarine_receiver_depth3d.FRAME_2D_MAP,
    submarine_receiver_depth3d.FRAME_3D_DEPTH.
  cbn [Z.eqb Pos.eqb orb depth3d_main.frameBuffer depth3d_main.frameCount].
  unfold FrameBuffer_depth3d.getRaw, FrameBuffer_depth3d.get,
    FrameBuffer_depth3d.updateRaw, FrameBuffer_depth3d.timeout_ms.
  rewrite lookup_insert_eq.
  cbn [FrameBuffer_depth3d.timestamp FrameBuffer_depth3d.raw_data
       FrameBuffer_depth3d.frame].
  assert (E : (duration_ms later now <? 2000) = true)
    by (apply age_below_timeout; lia).
  rewrite E. repeat split; reflexivity.
Qed.

(** X12. An image sent with [sendFrame] under type 1 or 2 and taken in by
    one pass of the receive loop: when its encoding decodes to a
    non-empty image, that image is what [get] returns for the next
    2000 ms and the frame counter goes up by one; when it does not, the
    pass changes nothing, so an undecodable frame never replaces the
    cached one. *)
Theorem depth3d_image_end_to_end
        (st : depth3d_main.state) (frame : Mat)
        (frame_id frame_type now later : Z) :
  Mat_empty frame = false ->
  Wire.is_int frame_id ->
  frame_type = 1 \/ frame_type = 2 ->
  0 < Z.of_nat (length (imencode 80 frame)) ->
  12 + Z.of_nat (length (imencode 80 frame))
  <= submarine_receiver_depth3d.bufferSize ->
  later - now < 2000 * 1000000 ->
  exists packet,
    UDPSender_depth3d.sendFrame frame frame_id frame_type = Some packet
    /\ let st' := depth3d_main.receive_step st (Some packet) now in
       let decoded := imdecode (imencode 80 frame) in
       if Mat_empty decoded then st' = st
       else FrameBuffer_depth3d.get (depth3d_main.frameBuffer st')
              frame_type later = decoded
            /\ depth3d_main.frameCount st'
               = Wire.to_int (depth3d_main.frameCount st + 1).
Proof.
  intros Hne Hid Hty Hpos Hfit Hfresh.
  set (jpeg := imencode 80 frame) in *.
  exists (datagram frame_id frame_type (Z.of_nat (length jpeg)) jpeg).
  split.
  { unfold UDPSender_depth3d.sendFrame. fold jpeg. rewrite Hne. reflexivity. }
  unfold submarine_receiver_depth3d.bufferSize in Hfit.
  cbv zeta. unfold depth3d_main.receive_step.
  rewrite receivePacket_of_datagram
    by (try (int_bounds; lia);
        unfold submarine_receiver_depth3d.bufferSize; lia).
  unfold depth3d_main.on_packet,
    submarine_receiver_depth3d.FRAME_DEPTH_VIS,
    submarine_receiver_depth3d.FRAME_2D_MAP.
  assert (Et : (frame_type =? 1) || (frame_type =? 2) = true)
    by (destruct Hty; subst; reflexivity).
  rewrite Et.
  destruct (Mat_empty (imdecode jpeg)) eqn:Hemp; cbn [negb]; [reflexivity|].
  cbn [depth3d_main.frameBuffer depth3d_main.frameCount].
  unfold FrameBuffer_depth3d.get, FrameBuffer_depth3d.update,
    FrameBuffer_depth3d.timeout_ms.
  rewrite lookup_insert_eq.
  cbn [FrameBuffer_depth3d.timestamp FrameBuffer_depth3d.frame].
  assert (E : (duration_ms later now <? 2000) = true)
    by (apply age_below_timeout; lia).
  rewrite E. split; reflexivity.
Qed.

End Depth3dEndToEnd.

Lemma depth3d_raw_end_to_end_witness :
  exists packet,
    submarine_sender_depth3d.sendRawData [x01; x02] 4 3 = Some packet
    /\ let st' := @depth3d_main.receive_step raw_codec
                    (depth3d_main.mkState ∅ 0) (Some packet) 100 in
       FrameBuffer_depth3d.getRaw (depth3d_main.frameBuffer st') 3 200
       = [x01; x02]
       /\ FrameBuffer_depth3d.get (depth3d_main.frameBuffer st') 3 200
          = Mat_default
       /\ depth3d_main.frameCount st' = 0.
Proof.
  apply (@depth3d_raw_end_to_end raw_codec
           (depth3d_main.mkState ∅ 0) [x01; x02] 4 100 200).
  - discriminate.
  - vm_compute. split; discriminate.
  - vm_compute. discriminate.
  - lia.
Defined.

Lemma depth3d_image_end_to_end_witness :
  exists packet,
    @UDPSender_depth3d.sendFrame raw_encoder (mkMat 1 2 [5; 6]) 4 1
    = Some packet
    /\ FrameBuffer_depth3d.get
         (depth3d_main.frameBuffer
            (@depth3d_main.receive_step raw_codec
               (depth3d_main.mkState ∅ 0) (Some packet) 100))
         1 200
       = mkMat 1 2 [5; 6].
Proof.
  destruct (@depth3d_image_end_to_end raw_encoder raw_codec
              (depth3d_main.mkState ∅ 0) (mkMat 1 2 [5; 6]) 4 1 100 200)
    as (packet & Hs & Hr).
  - reflexivity.
  - vm_compute. split; discriminate.
  - left. reflexivity.
  - vm_compute. reflexivity.
  - vm_compute. discriminate.
  - lia.
  - exists packet. split; [exact Hs|].
    cbv zeta in Hr.
    change (Mat_empty (@imdecode raw_codec
                         (@imencode raw_encoder 80 (mkMat 1 2 [5; 6]))))
      with false in Hr.
    destruct Hr as [Hg _]. exact Hg.
Defined.

(** ** The stream sender and receiver together *)

Lemma send_positive (w : SendStream.wire) (buf : list byte) :
  never_fails (SendStream.script w) ->
  buf <> [] ->
  exists k,
    (0 < k <= length buf)%nat
    /\ fst (SendStream.send w buf) = Z.of_nat k
    /\ SendStream.written (snd (SendStream.send w buf))
       = SendStream.written w ++ firstn k buf
    /\ never_fails (SendStream.script (snd (SendStream.send w buf))).
Proof.
  intros Hs Hne.
  assert (Hpos : (0 < length buf)%nat)
    by (destruct buf; [congruence | cbn; lia]).
  unfold SendStream.send.
  destruct (SendStream.script w) as [|r rest] eqn:E.
  - exists (length buf). cbn [fst snd SendStream.written SendStream.script].
    rewrite firstn_all. repeat split; (lia || constructor).
  - inversion Hs as [|? ? Hr Hrest]; subst.
    destruct (Z.leb_spec r 0); [lia|].
    exists (Z.to_nat (Z.min r (Z.of_nat (length buf)))).
    cbn [fst snd SendStream.written SendStream.script].
    repeat split; (lia || assumption || reflexivity).
Qed.

(** With a socket that never fails the payload loop writes all the bytes
    that are left, however the writes are cut. *)
Lemma send_loop_all (fuel : nat) :
  forall (w : SendStream.wire) (data : list byte) (total : Z),
    never_fails (SendStream.script w) ->
    0 <= total <= Z.of_nat (length data) ->
    Z.of_nat (length data) - total <= Z.of_nat fuel ->
    fst (SendStream.send_loop fuel w data total) = true
    /\ SendStream.written (snd (SendStream.send_loop fuel w data total))
       = SendStream.written w ++ skipn (Z.to_nat total) data.
Proof.
  induction fuel as [|fuel IH]; intros w data total Hs Ht Hf.
  - cbn [SendStream.send_loop].
    destruct (Z.ltb_spec total (Z.of_nat (length data))); [lia|].
    cbn [fst snd]. rewrite skipn_all2 by lia. rewrite app_nil_r. auto.
  - cbn [SendStream.send_loop].
    destruct (Z.ltb_spec total (Z.of_nat (length data))) as [Hlt|Hge].
    2:{ cbn [fst snd]. rewrite skipn_all2 by lia. rewrite app_nil_r. auto. }
    assert (Hrest : skipn (Z.to_nat total) data <> []).
    { intros E. apply (f_equal (@length byte)) in E.
      rewrite length_skipn in E. cbn in E. lia. }
    destruct (send_positive w _ Hs Hrest) as (k & Hk & Hret & Hw & Hs').
    rewrite length_skipn in Hk.
    destruct (SendStream.send w (skipn (Z.to_nat total) data)) as [sent w'].
    cbn [fst snd] in Hret, Hw, Hs'. subst sent.
    destruct (Z.leb_spec (Z.of_nat k) 0); [lia|].
    destruct (IH w' data (total + Z.of_nat k) Hs' ltac:(lia) ltac:(lia))
      as [Hok Hwr].
    split; [exact Hok|].
    rewrite Hwr, Hw, <- app_assoc. f_equal.
    replace (Z.to_nat (total + Z.of_nat k)) with (k + Z.to_nat total)%nat
      by lia.
    rewrite <- skipn_skipn. apply firstn_skipn.
Qed.

Section StreamEndToEnd.
Context `{Encoder} `{Codec}.

(** What [TCPSender::sendFrame] writes on a socket that never fails and
    takes the header whole. *)
Lemma tcp_sendFrame_writes (old : list byte) (script : list Z)
      (frame : Mat) (frame_id frame_type : Z) :
  Mat_empty frame = false ->
  never_fails script ->
  first_write_whole 12 script ->
  SendStream.written
    (submarine_sender_tcp.sendFrame (SendStream.mkWire old script)
       frame frame_id frame_type)
  = old ++ encode_frame (frame_id, frame_type, imencode 85 frame).
Proof.
  intros Hne Hs Hfirst.
  unfold submarine_sender_tcp.sendFrame. rewrite Hne.
  set (jpeg := imencode 85 frame).
  set (header := Wire.store_int frame_id ++ Wire.store_int frame_type
                 ++ Wire.store_int (Z.of_nat (length jpeg))).
  assert (Hh : length header = 12%nat) by reflexivity.
  assert (Hsend :
    exists rest, never_fails rest
      /\ SendStream.send (SendStream.mkWire old script) header
         = (12, SendStream.mkWire (old ++ header) rest)).
  { unfold SendStream.send. cbn [SendStream.script SendStream.written].
    destruct script as [|r rest].
    - exists []. split; [constructor|]. rewrite Hh. reflexivity.
    - inversion Hs; subst. cbn in Hfirst.
      destruct (Z.leb_spec r 0); [lia|].
      exists rest. split; [assumption|].
      rewrite Hh. replace (Z.min r (Z.of_nat 12)) with 12 by lia.
      rewrite firstn_all2 by (rewrite Hh; lia). reflexivity. }
  destruct Hsend as (rest & Hrest & Hsend). rewrite Hsend.
  cbn [Z.eqb Pos.eqb negb].
  destruct (send_loop_all (length jpeg)
              (SendStream.mkWire (old ++ header) rest) jpeg 0 Hrest
              ltac:(lia) ltac:(lia)) as [_ Hw].
  rewrite Hw. cbn [SendStream.written Z.to_nat skipn].
  unfold encode_frame, datagram, header.
  rewrite <- !app_assoc. reflexivity.
Qed.

(** X13. A non-empty frame of type 0..3 whose encoding has 1 to 2000000
    bytes, sent with [TCPSender::sendFrame] on a socket that never fails
    and takes the 12 header bytes in one write, and received with
    [TCPReceiver::receiveFrame], comes back as the decoding of its
    encoding with its frame type, however the writes of the payload are
    cut and however the bytes are segmented on arrival. (The header is
    sent with a single [send]; a header write cut short ends the call.) *)
Theorem tcp_frame_roundtrip
        (script : list Z) (frame : Mat) (frame_id frame_type : Z)
        (cs : list (list byte)) (tail : Stream.sock) :
  Mat_empty frame = false ->
  valid_stream_frame (frame_id, frame_type, imencode 85 frame) ->
  never_fails script ->
  first_write_whole 12 script ->
  Forall (fun c => c <> []) cs ->
  concat cs
  = SendStream.written
      (submarine_sender_tcp.sendFrame (SendStream.mkWire [] script)
         frame frame_id frame_type) ->
  submarine_receiver_tcp.receiveFrame (segments cs ++ tail)
  = (decoded_frame (frame_id, frame_type, imencode 85 frame), tail).
Proof.
  intros Hne (Hid & Hty & Hlen) Hs Hfirst Hcs Hcat.
  rewrite tcp_sendFrame_writes in Hcat by assumption.
  cbn [app] in Hcat. unfold encode_frame in Hcat.
  rewrite <- (app_nil_r (datagram _ _ _ _)) in Hcat.
  destruct (tcp_receiveFrame_reassembles cs tail frame_id frame_type
              (imencode 85 frame) [] Hcs Hcat Hid Hty Hlen)
    as (cs' & Hne' & Hcat' & Hr).
  rewrite Hr. unfold decoded_frame.
  destruct cs' as [|c cs']; [reflexivity|].
  inversion Hne'; subst. destruct c; [congruence | discriminate Hcat'].
Qed.

(** X14. Frames that follow each other on the stream are received one
    per call and in order, whatever the segmentation: each call of
    [TCPReceiver::receiveFrame] takes exactly the bytes of one frame and
    leaves the next frame at the head of the socket. *)
Theorem tcp_frames_in_order (fs : list stream_frame) :
  forall (cs : list (list byte)) (tail : Stream.sock),
    Forall valid_stream_frame fs ->
    Forall (fun c => c <> []) cs ->
    concat cs = flat_map encode_frame fs ->
    receive_frames (length fs) (segments cs ++ tail)
    = (map decoded_frame fs, tail).
Proof.
  induction fs as [|[[frame_id frame_type] payload] fs IH];
    intros cs tail Hv Hcs Hcat.
  - cbn [length receive_frames map].
    destruct cs as [|c cs]; [reflexivity|].
    inversion Hcs; subst. destruct c; [congruence | discriminate Hcat].
  - inversion Hv as [|? ? Hf Hv']; subst.
    unfold valid_stream_frame in Hf. destruct Hf as (Hid & Hty & Hlen).
    cbn [flat_map encode_frame] in Hcat.
    destruct (tcp_receiveFrame_reassembles cs tail frame_id frame_type
                payload (flat_map encode_frame fs) Hcs Hcat Hid Hty Hlen)
      as (cs' & Hne' & Hcat' & Hr).
    cbn [length receive_frames]. rewrite Hr.
    rewrite (IH cs' tail Hv' Hne' Hcat').
    reflexivity.
Qed.

(** X15. A header that fails the checks of [TCPReceiver::receiveFrame]
    (frame type outside 0..3, or size outside 1..2000000) makes the call
    fail after it has taken the 12 header bytes only: the payload that
    follows stays in the socket, where the next call will read it as a
    header. *)
Theorem tcp_refused_header_leaves_payload
        (cs : list (list byte)) (tail : Stream.sock)
        (frame_id frame_type declared : Z) (rest : list byte) :
  Forall (fun c => c <> []) cs ->
  concat cs = datagram frame_id frame_type declared rest ->
  Wire.is_int frame_id -> Wire.is_int frame_type -> Wire.is_int declared ->
  frame_type < 0 \/ 3 < frame_type \/ declared <= 0 \/ 2000000 < declared ->
  exists cs',
    Forall (fun c => c <> []) cs' /\ concat cs' = rest
    /\ submarine_receiver_tcp.receiveFrame (segments cs ++ tail)
       = (Reject, segments cs' ++ tail).
Proof.
  intros Hne Hcat Hid Hty Hde Hbad.
  set (header := Wire.store_int frame_id ++ Wire.store_int frame_type
                 ++ Wire.store_int declared).
  assert (Hcat1 : concat cs = header ++ rest).
  { rewrite Hcat. unfold datagram, header. rewrite <- !app_assoc. reflexivity. }
  assert (Hh : length header = 12%nat) by reflexivity.
  destruct (recv_loop_collects 12 cs tail 12 0 [] header rest)
    as (cs1 & Hne1 & Hcat2 & Hloop1); auto; try (rewrite Hh; lia).
  exists cs1. split; [assumption|]. split; [assumption|].
  unfold submarine_receiver_tcp.receiveFrame.
  rewrite Hloop1. cbn [app].
  assert (L0 : Wire.load_int header 0 = Ok frame_id)
    by (apply load_int_store, Hid).
  assert (L4 : Wire.load_int header 4 = Ok frame_type).
  { unfold header.
    change 4%nat with (length (Wire.store_int frame_id) + 0)%nat.
    rewrite load_int_app_r. apply load_int_store, Hty. }
  assert (L8 : Wire.load_int header 8 = Ok declared).
  { unfold header. rewrite app_assoc.
    change 8%nat
      with (length (Wire.store_int frame_id ++ Wire.store_int frame_type) + 0)%nat.
    rewrite load_int_app_r.
    rewrite <- (app_nil_r (Wire.store_int _)).
    apply load_int_store, Hde. }
  rewrite L0, L4, L8. cbn [obind].
  destruct (Z.ltb_spec frame_type 0); [reflexivity|].
  destruct (Z.gtb_spec frame_type 3); [reflexivity|].
  destruct (Z.leb_spec declared 0); [reflexivity|].
  destruct (Z.gtb_spec declared 2000000); [reflexivity|].
  lia.
Qed.

End StreamEndToEnd.

Lemma tcp_frame_roundtrip_witness :
  @submarine_receiver_tcp.receiveFrame raw_codec
    (segments [ datagram 5 1 3 [x41]; [x42; x43] ] ++ [Stream.Eof])
  = (Ok (mkMat 1 3 [65; 66; 67], 1), [Stream.Eof]).
Proof.
  apply (@tcp_frame_roundtrip raw_encoder raw_codec
           [12; 2] (mkMat 1 3 [65; 66; 67]) 5 1).
  - reflexivity.
  - vm_compute. repeat split; discriminate.
  - repeat constructor.
  - vm_compute. discriminate.
  - repeat constructor; discriminate.
  - vm_compute. reflexivity.
Defined.

Lemma tcp_frames_in_order_witness :
  @receive_frames raw_codec 2
    (segments [ datagram 5 1 2 [x41]; x42 :: datagram 6 2 1 [x43] ] ++ [])
  = ([Ok (mkMat 1 2 [65; 66], 1); Ok (mkMat 1 1 [67], 2)], []).
Proof.
  apply (@tcp_frames_in_order raw_codec
           [(5, 1, [x41; x42]); (6, 2, [x43])]).
  - repeat constructor; vm_compute; discriminate.
  - repeat constructor; discriminate.
  - vm_compute. reflexivity.
Defined.

Lemma tcp_refused_header_leaves_payload_witness :
  exists cs',
    Forall (fun c => c <> []) cs' /\ concat cs' = [x41; x42]
    /\ @submarine_receiver_tcp.receiveFrame raw_codec
         (segments [datagram 5 9 2 [x41; x42]] ++ [])
       = (Reject, segments cs' ++ []).
Proof.
  apply (@tcp_refused_header_leaves_payload raw_codec
           [datagram 5 9 2 [x41; x42]] [] 5 9 2 [x41; x42]).
  - repeat constructor; discriminate.
  - vm_compute. reflexivity.
  - vm_compute. split; discriminate.
  - vm_compute. split; discriminate.
  - vm_compute. split; discriminate.
  - right. left. lia.
Defined.

(** ** The compact-header sender and receiver together *)

Lemma send_whole (n : Z) (w : SendStream.wire) (buf : list byte) :
  never_cuts n (SendStream.script w) ->
  Z.of_nat (length buf) <= n ->
  fst (SendStream.send w buf) = Z.of_nat (length buf)
  /\ SendStream.written (snd (SendStream.send w buf))
     = SendStream.written w ++ buf
  /\ never_cuts n (SendStream.script (snd (SendStream.send w buf))).
Proof.
  intros Hs Hn. unfold SendStream.send.
  destruct (SendStream.script w) as [|r rest] eqn:E.
  - cbn [fst snd SendStream.written SendStream.script].
    repeat split; constructor.
  - inversion Hs as [|? ? [Hr Hr'] Hrest]; subst.
    destruct (Z.leb_spec r 0); [lia|].
    cbn [fst snd SendStream.written SendStream.script].
    replace (Z.min r (Z.of_nat (length buf))) with (Z.of_nat (length buf))
      by lia.
    rewrite Nat2Z.id, firstn_all. repeat split; assumption.
Qed.

Lemma send_cons (old : list byte) (r : Z) (rest : list Z) (buf : list byte) :
  0 < r ->
  SendStream.send (SendStream.mkWire old (r :: rest)) buf
  = (Z.min r (Z.of_nat (length buf)),
     SendStream.mkWire
       (old ++ firstn (Z.to_nat (Z.min r (Z.of_nat (length buf)))) buf)
       rest).
Proof.
  intros Hr. unfold SendStream.send.
  cbn [SendStream.script SendStream.written].
  destruct (Z.leb_spec r 0); [lia | reflexivity].
Qed.

Section CompactStream.
Context `{Encoder} `{Codec}.

(** [SwitchableReceiver::receiveFrame] when the first segment holds the
    whole header. *)
Lemma switchable_receiveFrame_whole_header
      (c : list byte) (cs : list (list byte)) (tail : Stream.sock)
      (frame_type : Z) (payload rest : list byte) :
  Forall (fun x => x <> []) (c :: cs) ->
  (5 <= length c)%nat ->
  concat (c :: cs) = compact_frame frame_type payload ++ rest ->
  0 < Z.of_nat (length payload) <= 5000000 ->
  exists cs',
    Forall (fun x => x <> []) cs' /\ concat cs' = rest
    /\ switchable_receiver.receiveFrame
         (switchable_receiver.mkReceiver (segments (c :: cs) ++ tail) true)
       = (if Mat_empty (imdecode payload) then Reject
          else Ok (imdecode payload, frame_type mod 256),
          switchable_receiver.mkReceiver (segments cs' ++ tail) true).
Proof.
  intros Hne Hc Hcat Hlen.
  inversion Hne as [|? ? Hcne Hcs]; subst.
  set (header := Wire.byte_of_Z frame_type
                 :: Wire.store_int (Z.of_nat (length payload))).
  assert (Hh : length header = 5%nat) by reflexivity.
  assert (Hsplit : exists l, c = header ++ l
                             /\ l ++ concat cs = payload ++ rest).
  { cbn [concat] in Hcat.
    change (compact_frame frame_type payload) with (header ++ payload) in Hcat.
    rewrite <- app_assoc in Hcat.
    apply app_eq_app in Hcat. destruct Hcat as [l [[Hc1 Hr]|[Hw Hcs']]].
    - exists l. split; [exact Hc1 | symmetry; exact Hr].
    - assert (Hl : l = []).
      { apply (f_equal (@length byte)) in Hw.
        rewrite length_app, Hh in Hw.
        destruct l; [reflexivity | cbn in Hw; lia]. }
      subst l. rewrite app_nil_r in Hw. rewrite app_nil_l in Hcs'.
      exists []. rewrite app_nil_r, app_nil_l. split; [congruence | exact Hcs']. }
  destruct Hsplit as (l & Hc1 & Hl).
  set (cs1 := match l with [] => cs | _ => l :: cs end).
  assert (Hne1 : Forall (fun x => x <> []) cs1).
  { unfold cs1. destruct l; [assumption|].
    constructor; [discriminate | assumption]. }
  assert (Hcat1 : concat cs1 = payload ++ rest).
  { unfold cs1. destruct l; [exact Hl | exact Hl]. }
  destruct (recv_loop_collects (length payload) cs1 tail
              (Z.of_nat (length payload)) 0 [] payload rest)
    as (cs2 & Hne2 & Hcat2 & Hloop); auto; try lia.
  exists cs2. split; [assumption|]. split; [assumption|].
  unfold switchable_receiver.receiveFrame.
  cbn [switchable_receiver.connected negb switchable_receiver.client_sock].
  change (segments (c :: cs) ++ tail)
    with (Stream.Chunk c :: (segments cs ++ tail)).
  cbn [Stream.recv].
  change (Z.to_nat 5) with (length header).
  rewrite Hc1, take_app_length, drop_app_length, Hh.
  cbn [Z.of_nat Pos.of_succ_nat Pos.succ Z.eqb Pos.eqb negb].
  assert (Hsock : match l with
                  | [] => segments cs ++ tail
                  | _ :: _ => Stream.Chunk l :: segments cs ++ tail
                  end = segments cs1 ++ tail).
  { unfold cs1. destruct l; reflexivity. }
  rewrite Hsock.
  pose proof (le_combine_store (Z.of_nat (length payload))) as Hle.
  unfold header.
  destruct (Wire.store_int (Z.of_nat (length payload)))
    as [|b0 [|b1 [|b2 [|b3 [|? ?]]]]]; try contradiction.
  unfold Wire.load_u32.
  cbn [Wire.byte_at nth_error Nat.add obind].
  rewrite Hle, Z_of_byte_of_Z.
  rewrite to_int_wrap by (int_bounds; lia).
  destruct (Z.leb_spec (Z.of_nat (length payload)) 0); [lia|].
  destruct (Z.gtb_spec (Z.of_nat (length payload)) 5000000); [lia|].
  cbn [orb]. rewrite Nat2Z.id, Hloop. cbn [app].
  destruct (Mat_empty (imdecode payload)); reflexivity.
Qed.

(** X16. A frame sent with [SwitchableSender::sendFrame] on a socket that
    takes every write whole, and received with
    [SwitchableReceiver::receiveFrame] when the 5 header bytes arrive in
    one segment, comes back as the decoding of its encoding, whatever the
    segmentation of the payload; the frame type comes back modulo 256,
    the header carrying it in one byte. *)
Theorem switchable_frame_roundtrip
        (script : list Z) (frame : Mat) (frame_type : Z)
        (c : list byte) (cs : list (list byte)) (tail : Stream.sock) :
  Mat_empty frame = false ->
  0 < Z.of_nat (length (imencode 85 frame)) <= 5000000 ->
  never_cuts 5000000 script ->
  Forall (fun x => x <> []) (c :: cs) ->
  (5 <= length c)%nat ->
  concat (c :: cs)
  = SendStream.written
      (switchable_sender.sockfd
         (switchable_sender.sendFrame
            (switchable_sender.mkSender (SendStream.mkWire [] script) true)
            frame frame_type)) ->
  switchable_receiver.receiveFrame
    (switchable_receiver.mkReceiver (segments (c :: cs) ++ tail) true)
  = (if Mat_empty (imdecode (imencode 85 frame)) then Reject
     else Ok (imdecode (imencode 85 frame), frame_type mod 256),
     switchable_receiver.mkReceiver tail true).
Proof.
  intros Hne Hlen Hs Hcs Hc Hcat.
  set (jpeg := imencode 85 frame) in *.
  assert (Hw : SendStream.written
                 (switchable_sender.sockfd
                    (switchable_sender.sendFrame
                       (switchable_sender.mkSender
                          (SendStream.mkWire [] script) true)
                       frame frame_type))
               = compact_frame frame_type jpeg).
  { unfold switchable_sender.sendFrame.
    cbn [switchable_sender.connected negb switchable_sender.sockfd orb].
    rewrite Hne. fold jpeg.
    set (header := Wire.byte_of_Z frame_type
                   :: Wire.store_int (Z.of_nat (length jpeg))).
    destruct (send_whole 5000000 (SendStream.mkWire [] script) header Hs)
      as (Hn & Hwr & Hs1); [cbn; lia|].
    destruct (SendStream.send (SendStream.mkWire [] script) header)
      as [n s1].
    cbn [fst snd] in Hn, Hwr, Hs1. subst n.
    change (Z.of_nat (length header)) with 5.
    cbn [Z.eqb Pos.eqb negb switchable_sender.sockfd].
    destruct (send_whole 5000000 s1 jpeg Hs1) as (_ & Hwr2 & _); [lia|].
    rewrite Hwr2, Hwr. reflexivity. }
  rewrite Hw in Hcat.
  rewrite <- (app_nil_r (compact_frame _ _)) in Hcat.
  destruct (switchable_receiveFrame_whole_header c cs tail frame_type jpeg []
              Hcs Hc Hcat Hlen) as (cs' & Hne' & Hcat' & Hr).
  rewrite Hr.
  destruct cs' as [|x cs']; [reflexivity|].
  inversion Hne'; subst. destruct x; [congruence | discriminate Hcat'].
Qed.

(** X17. [SwitchableSender::sendFrame] does not continue a payload write
    that the socket cuts short: when the header is taken whole and the
    socket then takes only [r2] bytes of the payload, the stream holds
    the header and the first [r2] payload bytes, and the sender still
    counts as connected. *)
Theorem switchable_sendFrame_short_write
        (old : list byte) (r1 r2 : Z) (rest : list Z)
        (frame : Mat) (frame_type : Z) :
  Mat_empty frame = false ->
  5 <= r1 ->
  0 < r2 < Z.of_nat (length (imencode 85 frame)) ->
  switchable_sender.sendFrame
    (switchable_sender.mkSender
       (SendStream.mkWire old (r1 :: r2 :: rest)) true)
    frame frame_type
  = switchable_sender.mkSender
      (SendStream.mkWire
         (old ++ firstn (5 + Z.to_nat r2)
                        (compact_frame frame_type (imencode 85 frame)))
         rest)
      true.
Proof.
  intros Hne Hr1 Hr2.
  unfold switchable_sender.sendFrame.
  cbn [switchable_sender.connected negb switchable_sender.sockfd orb].
  rewrite Hne.
  set (jpeg := imencode 85 frame) in *.
  set (header := Wire.byte_of_Z frame_type
                 :: Wire.store_int (Z.of_nat (length jpeg))).
  rewrite send_cons by lia.
  change (Z.of_nat (length header)) with 5.
  replace (Z.min r1 5) with 5 by lia.
  cbn [Z.eqb Pos.eqb negb].
  rewrite send_cons by lia.
  replace (Z.min r2 (Z.of_nat (length jpeg))) with r2 by lia.
  cbn [snd].
  assert (E : (old ++ firstn (Z.to_nat 5) header)
              ++ firstn (Z.to_nat r2) jpeg
              = old ++ firstn (5 + Z.to_nat r2)
                              (compact_frame frame_type jpeg)).
  { rewrite <- app_assoc. reflexivity. }
  rewrite E. reflexivity.
Qed.

End CompactStream.

Lemma switchable_frame_roundtrip_witness :
  @switchable_receiver.receiveFrame raw_codec
    (switchable_receiver.mkReceiver
       (segments [[x01; x02; x00; x00; x00; x41]; [x42]] ++ []) true)
  = (Ok (mkMat 1 2 [65; 66], 1), switchable_receiver.mkReceiver [] true).
Proof.
  apply (@switchable_frame_roundtrip raw_encoder raw_codec
           [] (mkMat 1 2 [65; 66]) 257).
  - reflexivity.
  - vm_compute. split; [reflexivity | discriminate].
  - constructor.
  - repeat constructor; discriminate.
  - vm_compute. lia.
  - vm_compute. reflexivity.
Defined.

Lemma switchable_sendFrame_short_write_witness :
  @switchable_sender.sendFrame raw_encoder
    (switchable_sender.mkSender (SendStream.mkWire [] [5; 1]) true)
    (mkMat 1 2 [65; 66]) 1
  = switchable_sender.mkSender
      (SendStream.mkWire [x01; x02; x00; x00; x00; x41] []) true.
Proof.
  apply (@switchable_sendFrame_short_write raw_encoder
           [] 5 1 [] (mkMat 1 2 [65; 66]) 1).
  - reflexivity.
  - lia.
  - vm_compute. split; reflexivity.
Defined.

(** ** What the stream sender can leave in the stream *)

Lemma send_spec (w : SendStream.wire) (buf : list byte) :
  SendStream.written (snd (SendStream.send w buf))
  = SendStream.written w
    ++ firstn (Z.to_nat (fst (SendStream.send w buf))) buf
  /\ fst (SendStream.send w buf) <= Z.of_nat (length buf).
Proof.
  unfold SendStream.send.
  destruct (SendStream.script w) as [|r rest].
  - cbn [fst snd SendStream.written].
    rewrite Nat2Z.id, firstn_all. split; [reflexivity | lia].
  - destruct (Z.leb_spec r 0); cbn [fst snd SendStream.written].
    + replace (Z.to_nat r) with 0%nat by lia.
      cbn [firstn]. rewrite app_nil_r. split; [reflexivity | lia].
    + split; [reflexivity | lia].
Qed.

Lemma send_loop_prefix (fuel : nat) :
  forall (w : SendStream.wire) (data : list byte) (total : Z),
    0 <= total <= Z.of_nat (length data) ->
    exists k,
      SendStream.written (snd (SendStream.send_loop fuel w data total))
      = SendStream.written w ++ firstn k (skipn (Z.to_nat total) data).
Proof.
  induction fuel as [|fuel IH]; intros w data total Ht.
  - exists 0%nat. cbn [SendStream.send_loop].
    destruct (_ <? _); cbn [snd firstn]; rewrite app_nil_r; reflexivity.
  - cbn [SendStream.send_loop].
    destruct (Z.ltb_spec total (Z.of_nat (length data))) as [Hlt|Hge].
    2:{ exists 0%nat. cbn [snd firstn]. rewrite app_nil_r. reflexivity. }
    destruct (send_spec w (skipn (Z.to_nat total) data)) as [Hw Hn].
    rewrite length_skipn in Hn.
    destruct (SendStream.send w (skipn (Z.to_nat total) data)) as [sent w'].
    cbn [fst snd] in Hw, Hn.
    destruct (Z.leb_spec sent 0).
    + exists (Z.to_nat sent). cbn [snd]. exact Hw.
    + destruct (IH w' data (total + sent) ltac:(lia)) as (k & Hk).
      exists (Z.to_nat sent + k)%nat.
      rewrite Hk, Hw, <- app_assoc. f_equal.
      replace (Z.to_nat (total + sent))
        with (Z.to_nat sent + Z.to_nat total)%nat by lia.
      rewrite <- skipn_skipn.
      apply take_take_drop.
Qed.

(** X18. Whatever the socket does (short writes, failures at any point),
    what [TCPSender::sendFrame] adds to the stream is an initial part of
    the encoding of the frame: header bytes first, payload bytes in
    order, nothing else. *)
Theorem tcp_sendFrame_writes_a_prefix `{Encoder}
        (w : SendStream.wire) (frame : Mat) (frame_id frame_type : Z) :
  exists k,
    SendStream.written
      (submarine_sender_tcp.sendFrame w frame frame_id frame_type)
    = SendStream.written w
      ++ firstn k (encode_frame (frame_id, frame_type, imencode 85 frame)).
Proof.
  unfold submarine_sender_tcp.sendFrame.
  destruct (Mat_empty frame).
  { exists 0%nat. cbn [firstn]. rewrite app_nil_r. reflexivity. }
  set (jpeg := imencode 85 frame).
  set (header := Wire.store_int frame_id ++ Wire.store_int frame_type
                 ++ Wire.store_int (Z.of_nat (length jpeg))).
  assert (Henc : encode_frame (frame_id, frame_type, jpeg) = header ++ jpeg).
  { unfold encode_frame, datagram, header. rewrite <- !app_assoc. reflexivity. }
  rewrite Henc.
  destruct (send_spec w header) as [Hw Hn].
  destruct (SendStream.send w header) as [n s1]. cbn [fst snd] in Hw, Hn.
  destruct (Z.eqb_spec n 12) as [E|N]; cbn [negb].
  - destruct (send_loop_prefix (length jpeg) s1 jpeg 0 ltac:(lia))
      as (k & Hk).
    exists (length header + k)%nat.
    rewrite Hk, Hw, E, firstn_app_2, <- app_assoc.
    reflexivity.
  - exists (Z.to_nat n). rewrite Hw. f_equal.
    rewrite firstn_app.
    replace (Z.to_nat n - length header)%nat with 0%nat
      by (change (length header) with 12%nat in *; lia).
    cbn [firstn]. rewrite app_nil_r. reflexivity.
Qed.

(** ** The 2D map: where it writes *)

Section Map2DWrites.
Context `{Libm}.

(** X19. The plotting step of [Map2D::update] writes inside the image:
    it either leaves the image as it is or writes the three bytes of one
    pixel whose column is in 0..639 and row in 0..479, so the last byte
    written lies before the end of the 640 x 480 x 3 buffer. *)
Theorem map2d_plot_in_bounds (map_image : list Z) (depth_width x : Z)
        (d : F32.float) :
  submarine_multistream.plot map_image depth_width x d = map_image
  \/ exists map_x map_y r g b,
       0 <= map_x < 640 /\ 0 <= map_y < 480
       /\ (map_y * 640 + map_x) * 3 + 2 < map_bytes
       /\ submarine_multistream.plot map_image depth_width x d
          = submarine_multistream.set_rgb map_image
              ((map_y * 640 + map_x) * 3) r g b.
Proof.
  unfold submarine_multistream.plot.
  set (map_x := Wire.to_int _). set (map_y := F32.to_int _).
  unfold submarine_multistream.width, submarine_multistream.height.
  destruct (Z.leb_spec 0 map_x); [|left; reflexivity].
  destruct (Z.ltb_spec map_x 640); [|left; reflexivity].
  destruct (Z.leb_spec 0 map_y); [|left; reflexivity].
  destruct (Z.ltb_spec map_y 480); [|left; reflexivity].
  right. cbn [andb]. exists map_x, map_y. do 3 eexists.
  split; [lia|]. split; [lia|]. split; [|reflexivity].
  unfold map_bytes, submarine_multistream.width, submarine_multistream.height.
  lia.
Qed.

Lemma length_plot (img : list Z) (depth_width x : Z) (d : F32.float) :
  length (submarine_multistream.plot img depth_width x d) = length img.
Proof.
  unfold submarine_multistream.plot.
  destruct (_ && _); [apply length_set_rgb | reflexivity].
Qed.

Lemma length_project_depth (f : submarine_multistream.DepthFrame)
      (img : list Z) :
  length (submarine_multistream.project_depth f img) = length img.
Proof.
  unfold submarine_multistream.project_depth.
  apply (fold_left_invariant (fun i => length i = length img)); [reflexivity|].
  intros a y Ha.
  apply (fold_left_invariant (fun i => length i = length img)); [exact Ha|].
  intros a' x Ha'.
  unfold submarine_multistream.project_sample.
  case_ifs; try exact Ha'. rewrite length_plot. exact Ha'.
Qed.

(** One pass of the robot loop, at offset [(dx, dy)]. *)
Lemma robot_step_keeps (img : list Z) (dx dy px py : Z) :
  0 <= px < 640 -> 0 <= py ->
  (py * 640 + px) * 3 + 2 < Z.of_nat (length img) ->
  map_pixel img px py = (Some 0, Some 255, Some 0) ->
  map_pixel
    (if dx * dx + dy * dy <=? 25 then
       if (0 <=? 320 + dx) && (320 + dx <? 640)
          && (0 <=? 470 + dy) && (470 + dy <? 480)
       then submarine_multistream.set_rgb img
              (((470 + dy) * 640 + (320 + dx)) * 3) 0 255 0
       else img
     else img) px py
  = (Some 0, Some 255, Some 0).
Proof.
  intros Hpx Hpy Hlen Hp.
  destruct (_ <=? 25); [|exact Hp].
  destruct (Z.leb_spec 0 (320 + dx)); [|exact Hp].
  destruct (Z.ltb_spec (320 + dx) 640); [|exact Hp].
  destruct (Z.leb_spec 0 (470 + dy)); [|exact Hp].
  destruct (Z.ltb_spec (470 + dy) 480); [|exact Hp].
  cbn [andb].
  destruct (Z.eq_dec px (320 + dx)) as [Ex|Nx];
    [destruct (Z.eq_dec py (470 + dy)) as [Ey|Ny]|].
  - subst px py. apply set_rgb_same; lia.
  - rewrite set_rgb_other by lia. exact Hp.
  - rewrite set_rgb_other by lia. exact Hp.
Qed.

(** X20. The robot marker is always drawn: after [Map2D::update], on the
    640 x 480 x 3 image and for every depth frame, each pixel of the disc
    of radius 5 around (320, 470) is green (0, 255, 0); no depth sample
    can cover it. *)
Theorem map2d_robot_marker_drawn
        (map_image : list Z) (f : submarine_multistream.DepthFrame)
        (dx dy : Z) :
  Z.of_nat (length map_image) = map_bytes ->
  dx * dx + dy * dy <= 25 ->
  map_pixel (submarine_multistream.update map_image f) (320 + dx) (470 + dy)
  = (Some 0, Some 255, Some 0).
Proof.
  intros Hlen Hdisc.
  assert (Hdx : -5 <= dx <= 5) by nia.
  assert (Hdy : -5 <= dy <= 5) by nia.
  unfold submarine_multistream.update.
  set (img0 := submarine_multistream.project_depth f _).
  assert (Hlen0 : Z.of_nat (length img0) = 921600).
  { unfold img0. rewrite length_project_depth, length_decorations.
    exact Hlen. }
  clearbody img0.
  unfold submarine_multistream.robot_icon.
  change (submarine_multistream.width / 2) with 320.
  change (submarine_multistream.height - 10) with 470.
  change submarine_multistream.width with 640.
  change submarine_multistream.height with 480.
  set (span := map (fun k => k - 5) (strided 1 11)).
  assert (Hspan : forall k, -5 <= k <= 5 -> In k span).
  { intros k Hk.
    assert (Hc : k = -5 \/ k = -4 \/ k = -3 \/ k = -2 \/ k = -1 \/ k = 0
                 \/ k = 1 \/ k = 2 \/ k = 3 \/ k = 4 \/ k = 5) by lia.
    unfold span.
    repeat (destruct Hc as [->|Hc]; [vm_compute; tauto|]).
    subst k. vm_compute. tauto. }
  set (step := fun (img' : list Z) (dy' dx' : Z) =>
                 if dx' * dx' + dy' * dy' <=? 25 then
                   if (0 <=? 320 + dx') && (320 + dx' <? 640)
                      && (0 <=? 470 + dy') && (470 + dy' <? 480)
                   then submarine_multistream.set_rgb img'
                          (((470 + dy') * 640 + (320 + dx')) * 3) 0 255 0
                   else img'
                 else img').
  set (Len := fun img : list Z => Z.of_nat (length img) = 921600).
  set (Green := fun img : list Z =>
                  Len img
                  /\ map_pixel img (320 + dx) (470 + dy)
                     = (Some 0, Some 255, Some 0)).
  assert (Hstep_len : forall img dy' dx', Len img -> Len (step img dy' dx')).
  { intros img dy' dx' Hl. unfold step, Len in *.
    case_ifs; try exact Hl. rewrite length_set_rgb. exact Hl. }
  assert (Hstep_keep : forall img dy' dx', Green img -> Green (step img dy' dx')).
  { intros img dy' dx' [Hl Hg]. split; [apply Hstep_len, Hl|].
    unfold step. apply robot_step_keeps; (unfold Len in Hl; lia) || exact Hg. }
  assert (Hstep_hit : forall img, Len img -> Green (step img dy dx)).
  { intros img Hl. split; [apply Hstep_len, Hl|].
    unfold step.
    destruct (Z.leb_spec (dx * dx + dy * dy) 25); [|lia].
    destruct (Z.leb_spec 0 (320 + dx)); [|lia].
    destruct (Z.ltb_spec (320 + dx) 640); [|lia].
    destruct (Z.leb_spec 0 (470 + dy)); [|lia].
    destruct (Z.ltb_spec (470 + dy) 480); [|lia].
    cbn [andb]. apply set_rgb_same; unfold Len in Hl; lia. }
  assert (Hreach :
    forall {B} (g : list Z -> B -> list Z) (l : list B) (b0 : B),
      In b0 l ->
      (forall img, Len img -> Green (g img b0)) ->
      (forall img b, Len img -> Len (g img b)) ->
      (forall img b, Green img -> Green (g img b)) ->
      forall img, Len img -> Green (fold_left g l img)).
  { intros B g l b0 Hin Hhit Hlen' Hkeep.
    induction l as [|b l IHl]; intros img Hl; [destruct Hin|].
    cbn [fold_left]. destruct Hin as [->|Hin].
    - apply (fold_left_invariant Green); [apply Hhit, Hl | intros; auto].
    - apply IHl; [exact Hin | apply Hlen', Hl]. }
  assert (Hgoal : Green
    (fold_left (fun img dy' => fold_left (fun img' dx' => step img' dy' dx')
                                         span img) span img0)).
  { apply (Hreach Z _ span dy (Hspan dy Hdy)).
    - intros img Hl.
      apply (Hreach Z (fun img' dx' => step img' dy dx') span dx
               (Hspan dx Hdx)); auto.
    - intros img b Hl.
      apply (fold_left_invariant Len); [exact Hl | intros; auto].
    - intros img b Hg.
      apply (fold_left_invariant Green); [exact Hg | intros; auto].
    - exact Hlen0. }
  exact (proj2 Hgoal).
Qed.

End Map2DWrites.

Lemma map2d_robot_marker_drawn_witness :
  map_pixel
    (@submarine_multistream.update small_angle_libm
       (repeat 7 (Z.to_nat map_bytes))
       (submarine_multistream.mkDepthFrame 4 4 (F32.of_Z 1)
          (2000 :: repeat 0 15)))
    (320 + 3) (470 + (-4))
  = (Some 0, Some 255, Some 0).
Proof.
  apply (@map2d_robot_marker_drawn small_angle_libm).
  - rewrite repeat_length, Z2Nat.id; [reflexivity|].
    unfold map_bytes, submarine_multistream.width,
      submarine_multistream.height. lia.
  - reflexivity.
Defined.

(** ** The point-cloud viewer: where it writes, and the keys of [main] *)

Section ViewerWrites.
Context `{Libm}.

(** X21. The drawing step of [PointCloudViewer::project] writes inside
    the canvas: it either leaves the canvas as it is or writes one pixel
    whose column is in [0, width) and row in [0, height), at an index
    below [height * width]. *)
Theorem viewer_draw_in_bounds (v : PointCloudViewer.t)
        (display : list PointCloudViewer.pixel) (depth : F32.float)
        (r : F32.float * F32.float * F32.float) :
  PointCloudViewer.draw v display depth r = display
  \/ exists px py color,
       0 <= px < PointCloudViewer.width v
       /\ 0 <= py < PointCloudViewer.height v
       /\ 0 <= py * PointCloudViewer.width v + px
          < PointCloudViewer.height v * PointCloudViewer.width v
       /\ PointCloudViewer.draw v display depth r
          = PointCloudViewer.set_pixel v display py px color.
Proof.
  destruct r as [[rx ry] rz]. unfold PointCloudViewer.draw.
  set (px := F32.to_int (F32.add _ (F32.mul (F32.div rx rz) _))).
  set (py := F32.to_int (F32.add _ (F32.mul (F32.div ry rz) _))).
  destruct (Z.leb_spec 0 px); [|left; reflexivity].
  destruct (Z.ltb_spec px (PointCloudViewer.width v)); [|left; reflexivity].
  destruct (Z.leb_spec 0 py); [|left; reflexivity].
  destruct (Z.ltb_spec py (PointCloudViewer.height v)); [|left; reflexivity].
  right. cbn [andb]. exists px, py. eexists.
  split; [lia|]. split; [lia|]. split; [nia | reflexivity].
Qed.

End ViewerWrites.

Lemma on_key_keeps_range (v v' : PointCloudViewer.t) (key : Z) :
  camera_in_range v -> depth3d_main.on_key v key = Some v' ->
  camera_in_range v'.
Proof.
  intros [Hp Hz]. unfold depth3d_main.on_key.
  repeat match goal with
         | |- context [if ?c then _ else _] => destruct c
         end;
    intros E; inversion E; subst;
    first [ split; [apply rotate_clamps | exact Hz]
          | split; [exact Hp | apply setZoom_clamps]
          | split; assumption ].
Qed.

(** X22. Whatever keys are pressed in the loop of the receiver's [main],
    the camera it started with [PointCloudViewer(w, h)] keeps its pitch in
    [-1.5, 1.5] and its zoom in [50, 500]; and ESC ends the session: the
    keys after it change nothing. *)
Theorem main_keys_keep_camera_in_range (w h : Z) (keys rest : list Z) :
  camera_in_range
    (depth3d_main.on_keys (PointCloudViewer.make w h) keys)
  /\ depth3d_main.on_keys (PointCloudViewer.make w h) (keys ++ 27 :: rest)
     = depth3d_main.on_keys (PointCloudViewer.make w h) keys.
Proof.
  pose proof (make_in_range w h) as Hv.
  generalize dependent (PointCloudViewer.make w h).
  induction keys as [|key keys IH]; intros v Hv.
  - split; [exact Hv | reflexivity].
  - cbn [depth3d_main.on_keys app].
    destruct (depth3d_main.on_key v key) as [v'|] eqn:E.
    + apply IH. exact (on_key_keeps_range v v' key Hv E).
    + split; [exact Hv | reflexivity].
Qed.

(** ** The accumulating cloud: its size, and its keys *)

Lemma length_strided_2 (bound : Z) :
  Z.of_nat (length (strided 2 bound)) = Z.max 0 ((bound + 1) / 2).
Proof.
  unfold strided. rewrite length_map, length_seq.
  replace (bound + 2 - 1) with (bound + 1) by lia. lia.
Qed.

Lemma convert_sample_grows
      (f : submarine_3d_viz.DepthFrame)
      (colorFrame : option submarine_3d_viz.ColorFrame)
      (acc : list submarine_3d_viz.Vec3f * list submarine_3d_viz.Vec3b)
      (x y : Z) :
  (length (fst (submarine_3d_viz.convert_sample f colorFrame acc x y))
   <= length (fst acc) + 1)%nat.
Proof.
  unfold submarine_3d_viz.convert_sample.
  destruct acc as [newPoints newColors]. cbn [fst].
  destruct (_ =? 0); [cbn [fst]; lia|].
  destruct (_ || _); [cbn [fst]; lia|].
  cbn [fst]. rewrite length_app. cbn [length]. lia.
Qed.

Lemma fold_left_grows {A B} (size : A -> nat) (g : A -> B -> A) (k : nat)
      (l : list B) :
  (forall a x, size (g a x) <= size a + k)%nat ->
  forall a, (size (fold_left g l a) <= size a + length l * k)%nat.
Proof.
  intros Hg. induction l as [|x l IH]; intros a; cbn [fold_left length].
  - lia.
  - specialize (IH (g a x)). specialize (Hg a x). lia.
Qed.

Lemma convert_point_count
      (f : submarine_3d_viz.DepthFrame)
      (colorFrame : option submarine_3d_viz.ColorFrame) :
  Z.of_nat (length (fst (submarine_3d_viz.convert f colorFrame)))
  <= sampled_positions f.
Proof.
  unfold submarine_3d_viz.convert, sampled_positions.
  rewrite <- !length_strided_2.
  change submarine_3d_viz.skipStep with 2.
  pose proof (fold_left_grows
                (fun acc : list submarine_3d_viz.Vec3f
                           * list submarine_3d_viz.Vec3b => length (fst acc))
                (fun acc y =>
                   fold_left
                     (fun acc' x =>
                        submarine_3d_viz.convert_sample f colorFrame acc' x y)
                     (strided 2 (submarine_3d_viz.df_width f)) acc)
                (length (strided 2 (submarine_3d_viz.df_width f)))
                (strided 2 (submarine_3d_viz.df_height f))) as Hout.
  cbv beta in Hout.
  specialize (Hout
    (fun a y =>
       eq_ind _ (fun n => (_ <= length (fst a) + n)%nat)
         (fold_left_grows
            (fun acc : list submarine_3d_viz.Vec3f
                       * list submarine_3d_viz.Vec3b => length (fst acc))
            (fun acc' x =>
               submarine_3d_viz.convert_sample f colorFrame acc' x y)
            1 (strided 2 (submarine_3d_viz.df_width f))
            (fun a' x => convert_sample_grows f colorFrame a' x y) a)
         _ (Nat.mul_1_r _))
    ([], [])).
  cbn [fst length] in Hout. lia.
Qed.

(** X23. One [update] of the 3D map converts at most one point per
    sampled position, that is, at most ceil(height / 2) * ceil(width / 2)
    points; and as many colours. *)
Theorem map3d_convert_point_count
        (f : submarine_3d_viz.DepthFrame)
        (colorFrame : option submarine_3d_viz.ColorFrame) :
  Z.of_nat (length (fst (submarine_3d_viz.convert f colorFrame)))
  <= sampled_positions f
  /\ length (snd (submarine_3d_viz.convert f colorFrame))
     = length (fst (submarine_3d_viz.convert f colorFrame)).
Proof.
  split; [apply convert_point_count|].
  symmetry. apply convert_lengths.
Qed.

(** X24. For depth frames whose sampled positions number at most
    2147383647 (any real sensor frame), every state the 3D map reaches
    from its constructor by [update], [clear] and [toggleAccumulation]
    holds as many colours as points and at most [maxPoints] = 100000 of
    them. *)
Theorem map3d_cloud_bounded_for_real_frames
        (cs : list submarine_3d_viz.call) :
  Forall frame_fits cs ->
  cloud_ok (submarine_3d_viz.run submarine_3d_viz.make cs).
Proof.
  intros Hfit. apply reachable_cloud_ok.
  eapply Forall_impl; [exact Hfit|].
  intros [f colorFrame| |] Hc; cbn [fits_excess frame_fits] in *; auto.
  pose proof (convert_point_count f colorFrame). lia.
Qed.

Lemma map3d_cloud_bounded_for_real_frames_witness :
  cloud_ok
    (submarine_3d_viz.run submarine_3d_viz.make
       [submarine_3d_viz.Update
          (submarine_3d_viz.mkDepthFrame 640 480 (F32.of_Z 1) [])
          None;
        submarine_3d_viz.ToggleAccumulation]).
Proof.
  apply map3d_cloud_bounded_for_real_frames.
  repeat constructor. vm_compute. discriminate.
Defined.

(** X25. In [keyboardCallback], releasing a toggle key ([a] or [A]) twice
    restores the accumulation flag and leaves the cloud empty, whichever
    way the flag stood; a key press (as opposed to a release) changes
    nothing. *)
Theorem keyboard_toggle_twice (map3d : submarine_3d_viz.Map3D)
        (code code' : Z) :
  (forall c, submarine_3d_viz_keys.keyboardCallback map3d
               submarine_3d_viz_keys.KEY_DOWN c = map3d)
  /\ (toggle_key code -> toggle_key code' ->
      submarine_3d_viz_keys.keyboardCallback
        (submarine_3d_viz_keys.keyboardCallback map3d
           submarine_3d_viz_keys.KEY_UP code)
        submarine_3d_viz_keys.KEY_UP code'
      = submarine_3d_viz.mkMap3D [] [] (submarine_3d_viz.accumulate map3d)).
Proof.
  split; [reflexivity|].
  intros [-> | ->] [-> | ->]; destruct map3d as [ps cs [|]]; reflexivity.
Qed.

Lemma keyboard_toggle_twice_witness :
  submarine_3d_viz_keys.keyboardCallback
    (submarine_3d_viz_keys.keyboardCallback
       (submarine_3d_viz.mkMap3D
          [(F32.of_Z 1, F32.of_Z 2, F32.of_Z 3)] [(1, 2, 3)] false)
       submarine_3d_viz_keys.KEY_UP 97)
    submarine_3d_viz_keys.KEY_UP 65
  = submarine_3d_viz.mkMap3D [] [] false.
Proof.
  apply (proj2 (keyboard_toggle_twice
                  (submarine_3d_viz.mkMap3D
                     [(F32.of_Z 1, F32.of_Z 2, F32.of_Z 3)] [(1, 2, 3)] false)
                  97 65)).
  - left. reflexivity.
  - right. reflexivity.
Defined.

(** ** The loop of [color_receiver]'s [main] *)

Section ColorReceiverLoop.
Context `{Codec} `{Overlay}.

Lemma color_receiveFrame_nonempty (ev : option (list byte))
      (frame : Mat) (frame_id : Z) :
  color_receiver.receiveFrame ev = Ok (frame, frame_id) ->
  Mat_empty frame = false.
Proof.
  unfold color_receiver.receiveFrame.
  destruct (Wire.recvfrom ev _) as [n buffer].
  destruct (n <? 8); [discriminate|].
  destruct (Wire.load_int buffer 0); cbn [obind]; try discriminate.
  destruct (Wire.load_int buffer 4); cbn [obind]; try discriminate.
  destruct (_ || _); try discriminate.
  destruct (Wire.slice _ _ _) as [jpegData| |]; cbn [obind];
    try discriminate.
  destruct (Mat_empty (imdecode jpegData)) eqn:E; [discriminate|].
  intros E'. inversion E'; subst. exact E.
Qed.

Lemma loop_step_keeps_frame (st : color_receiver_main.state)
      (ev : option (list byte)) (t_recv now : Z) :
  Mat_empty (color_receiver_main.lastFrame st) = false ->
  Mat_empty (color_receiver_main.lastFrame
               (fst (color_receiver_main.loop_step st ev t_recv now)))
  = false
  /\ snd (color_receiver_main.loop_step st ev t_recv now)
     <> color_receiver_main.WAITING.
Proof.
  intros Hst. unfold color_receiver_main.loop_step.
  set (st1 := match color_receiver.receiveFrame ev with
              | Ok (frame, _) => _
              | _ => st
              end).
  assert (H1 : Mat_empty (color_receiver_main.lastFrame st1) = false).
  { unfold st1.
    destruct (color_receiver.receiveFrame ev) as [[frame id]| |] eqn:E;
      [|exact Hst|exact Hst].
    cbn [color_receiver_main.lastFrame].
    exact (color_receiveFrame_nonempty ev frame id E). }
  clearbody st1. rewrite H1. cbn [negb].
  destruct (_ <? 1000); cbn [fst snd color_receiver_main.lastFrame].
  - split; [rewrite putText_empty; exact H1 | discriminate].
  - split; [exact H1 | discriminate].
Qed.

Lemma screens_never_waiting (passes : list (option (list byte) * Z * Z)) :
  forall st,
    Mat_empty (color_receiver_main.lastFrame st) = false ->
    ~ In color_receiver_main.WAITING (screens st passes).
Proof.
  induction passes as [|[[ev t_recv] now] rest IH]; intros st Hst;
    cbn [screens In]; [tauto|].
  destruct (loop_step_keeps_frame st ev t_recv now Hst) as [Hk Hs].
  intros [E|Hin]; [exact (Hs E)|]. exact (IH _ Hk Hin).
Qed.

(** X26. In the loop of [color_receiver]'s [main], from the pass on which
    a frame is accepted the WAITING screen is never shown again, whatever
    arrives later and however long the stream stays silent: the last
    frame is never cleared, so only LIVE and NO SIGNAL remain. On that
    pass itself the screen is LIVE exactly when less than 1000 ms of the
    clock passed between the receive and the display. *)
Theorem color_receiver_never_waits_again
        (st : color_receiver_main.state) (ev : option (list byte))
        (t_recv now : Z) (rest : list (option (list byte) * Z * Z))
        (frame : Mat) (frame_id : Z) :
  color_receiver.receiveFrame ev = Ok (frame, frame_id) ->
  ~ In color_receiver_main.WAITING
       (screens st ((ev, t_recv, now) :: rest))
  /\ snd (color_receiver_main.loop_step st ev t_recv now)
     = (if duration_ms now t_recv <? 1000
        then color_receiver_main.LIVE
        else color_receiver_main.NO_SIGNAL).
Proof.
  intros E.
  pose proof (color_receiveFrame_nonempty ev frame frame_id E) as Hne.
  assert (Hstep :
    Mat_empty (color_receiver_main.lastFrame
                 (fst (color_receiver_main.loop_step st ev t_recv now)))
    = false
    /\ snd (color_receiver_main.loop_step st ev t_recv now)
       = (if duration_ms now t_recv <? 1000
          then color_receiver_main.LIVE
          else color_receiver_main.NO_SIGNAL)).
  { unfold color_receiver_main.loop_step. rewrite E.
    cbn [color_receiver_main.lastFrame color_receiver_main.lastFrameTime].
    rewrite Hne. cbn [negb].
    destruct (_ <? 1000); cbn [fst snd color_receiver_main.lastFrame].
    - split; [rewrite putText_empty; exact Hne | reflexivity].
    - split; [exact Hne | reflexivity]. }
  destruct Hstep as [Hk Hs]. split; [|exact Hs].
  cbn [screens In]. intros [Ew|Hin].
  - rewrite Hs in Ew. destruct (_ <? 1000); discriminate.
  - exact (screens_never_waiting rest _ Hk Hin).
Qed.

(** X27. A pass of that loop on which nothing is accepted leaves the last
    frame's time and the frame counter as they were, and the last frame
    itself changes at most by the text drawn on it; before the first
    accepted frame the screen is WAITING. *)
Theorem color_receiver_failed_receive
        (st : color_receiver_main.state) (ev : option (list byte))
        (t_recv now : Z) :
  (forall frame frame_id,
     color_receiver.receiveFrame ev <> Ok (frame, frame_id)) ->
  let r := color_receiver_main.loop_step st ev t_recv now in
  color_receiver_main.lastFrameTime (fst r)
  = color_receiver_main.lastFrameTime st
  /\ color_receiver_main.frameCount (fst r)
     = color_receiver_main.frameCount st
  /\ (color_receiver_main.lastFrame (fst r)
      = color_receiver_main.lastFrame st
      \/ color_receiver_main.lastFrame (fst r)
         = putText (color_receiver_main.lastFrame st))
  /\ (Mat_empty (color_receiver_main.lastFrame st) = true ->
      r = (st, color_receiver_main.WAITING)).
Proof.
  intros Hfail r. unfold r, color_receiver_main.loop_step.
  destruct (color_receiver.receiveFrame ev) as [[frame id]| |];
    [exfalso; exact (Hfail frame id eq_refl)| |];
    (destruct (Mat_empty (color_receiver_main.lastFrame st)) eqn:Em;
     cbn [negb];
     [ repeat split; auto
     | destruct (_ <? 1000);
       cbn [fst snd color_receiver_main.lastFrame
              color_receiver_main.lastFrameTime
              color_receiver_main.frameCount];
       repeat split; auto; discriminate ]).
Qed.

End ColorReceiverLoop.

Lemma color_receiver_never_waits_again_witness :
  ~ In color_receiver_main.WAITING
       (@screens raw_codec no_overlay
          (color_receiver_main.mkState Mat_default 0 0)
          ((Some (datagram8 7 1 [x41]), 5, 6)
             :: [(None, 10, 2000000000)]))
  /\ snd (@color_receiver_main.loop_step raw_codec no_overlay
            (color_receiver_main.mkState Mat_default 0 0)
            (Some (datagram8 7 1 [x41])) 5 6)
     = color_receiver_main.LIVE.
Proof.
  apply (@color_receiver_never_waits_again raw_codec no_overlay
           (color_receiver_main.mkState Mat_default 0 0)
           (Some (datagram8 7 1 [x41])) 5 6 [(None, 10, 2000000000)]
           (mkMat 1 1 [65]) 7).
  reflexivity.
Defined.

Lemma color_receiver_failed_receive_witness :
  let r := @color_receiver_main.loop_step raw_codec no_overlay
             (color_receiver_main.mkState Mat_default 0 0) None 5 6 in
  color_receiver_main.lastFrameTime (fst r) = 0
  /\ color_receiver_main.frameCount (fst r) = 0
  /\ (color_receiver_main.lastFrame (fst r) = Mat_default
      \/ color_receiver_main.lastFrame (fst r)
         = @putText no_overlay Mat_default)
  /\ (Mat_empty Mat_default = true ->
      r = (color_receiver_main.mkState Mat_default 0 0,
           color_receiver_main.WAITING)).
Proof.
  apply (@color_receiver_failed_receive raw_codec no_overlay
           (color_receiver_main.mkState Mat_default 0 0) None 5 6).
  intros frame frame_id. vm_compute. discriminate.
Defined.

(** ** The 2D map keeps no history *)

Lemma clear_by_length (img img' : list Z) :
  length img = length img' ->
  submarine_multistream.clear img = submarine_multistream.clear img'.
Proof.
  unfold submarine_multistream.clear.
  revert img'. induction img as [|a img IH]; intros [|a' img'] Hl;
    cbn [length map] in *; try discriminate; [reflexivity|].
  f_equal. apply IH. lia.
Qed.

(** X28. [Map2D::update] redraws from scratch: the image it leaves
    depends on the depth frame and on the size of the image only, not on
    what the image held before, so nothing of an earlier frame survives
    an update (unlike the accumulating 3D cloud). *)
Theorem map2d_update_forgets_history `{Libm}
        (map_image map_image' : list Z)
        (f : submarine_multistream.DepthFrame) :
  length map_image = length map_image' ->
  submarine_multistream.update map_image f
  = submarine_multistream.update map_image' f.
Proof.
  intros Hl. unfold submarine_multistream.update.
  rewrite (clear_by_length map_image map_image' Hl). reflexivity.
Qed.

Lemma map2d_update_forgets_history_witness :
  @submarine_multistream.update small_angle_libm [1; 2; 3]
    (submarine_multistream.mkDepthFrame 4 4 (F32.of_Z 1)
       (2000 :: repeat 0 15))
  = @submarine_multistream.update small_angle_libm [7; 8; 9]
      (submarine_multistream.mkDepthFrame 4 4 (F32.of_Z 1)
         (2000 :: repeat 0 15)).
Proof.
  apply (@map2d_update_forgets_history small_angle_libm).
  reflexivity.
Defined.
